(** * YouTube automation agent: production pipeline, publish queue, scheduler gate

    A shallow embedding of the stateful core of the repository:

    - [Production]  : [agents/production-management-agent.js]
                      ([calculatePriority], [processContent] and its stages);
    - [Publishing]  : the publishing/scheduling agent
                      ([scheduleContent], [publishContent],
                      [processPublishQueue], [getUpcomingSchedule], ...);
    - [Automation]  : [schedules/daily-automation.js]
                      ([shouldGenerateContentToday]).

    JavaScript objects that are shared and mutated in place (the entries of
    [this.publishQueue]) live in an explicit object store addressed by
    references; everything the environment decides (clock, random ids, media
    generators, the upload transport, file system and database failures) is an
    oracle passed to the operation. *)

From Stdlib Require Import ZArith QArith Lia String Ascii List Sorted Permutation.
From stdpp Require Import base option list gmap strings pretty.

Open Scope string_scope.
Open Scope list_scope.
Open Scope Z_scope.

(** ** JavaScript values used by the agents *)

Module Js.

(** A rejected promise / thrown [Error] carries its [message]. *)
Inductive outcome (A : Type) : Type :=
| Ok (a : A)
| Throw (message : string).
Arguments Ok {A} a.
Arguments Throw {A} message.

Definition is_ok {A} (o : outcome A) : bool :=
  match o with Ok _ => true | Throw _ => false end.

#[export] Instance outcome_ret : MRet outcome := fun A a => Ok a.
#[export] Instance outcome_bind : MBind outcome := fun A B f o =>
  match o with
  | Ok a => f a
  | Throw e => Throw e
  end.

(** Code that mutates an object of type [S] and may throw: the mutations
    made before the throw stay. *)
Definition M (S A : Type) : Type := S -> outcome A * S.

#[export] Instance M_ret {S} : MRet (M S) := fun A a s => (Ok a, s).
#[export] Instance M_bind {S} : MBind (M S) := fun A B f m s =>
  match m s with
  | (Ok a, s') => f a s'
  | (Throw e, s') => (Throw e, s')
  end.

Definition throw {S A} (e : string) : M S A := fun s => (Throw e, s).
Definition get {S} : M S S := fun s => (Ok s, s).
Definition modify {S} (f : S -> S) : M S unit := fun s => (Ok tt, f s).
Definition lift {S A} (o : outcome A) : M S A := fun s => (o, s).

(** [try { m } catch (error) { h error.message }] *)
Definition try_catch {S A} (m : M S A) (h : string -> M S A) : M S A := fun s =>
  match m s with
  | (Ok a, s') => (Ok a, s')
  | (Throw e, s') => h e s'
  end.

(** [for (const x of l) { f x }] *)
Fixpoint for_of {S A} (l : list A) (f : A -> M S unit) : M S unit :=
  match l with
  | [] => mret tt
  | x :: l' => f x ;; for_of l' f
  end.

(** An IEEE number as far as the comparisons of the code can tell:
    [NaN] also stands for [undefined] coerced by a comparison. *)
Inductive number : Type :=
| NaN
| Finite (q : Q)
| PosInfinity
| NegInfinity.

(** [x > c] for a numeric literal [c]. *)
Definition greater (x : number) (c : Z) : bool :=
  match x with
  | NaN => false
  | Finite q => negb (Qle_bool q (inject_Z c))
  | PosInfinity => true
  | NegInfinity => false
  end.

(** [x < c] for a numeric literal [c]. *)
Definition less (x : number) (c : Z) : bool :=
  match x with
  | NaN => false
  | Finite q => negb (Qle_bool (inject_Z c) q)
  | PosInfinity => false
  | NegInfinity => true
  end.

(** [new Date(a) - new Date(b)]: a time value is an integral number of
    milliseconds, [None] is an Invalid Date. *)
Definition date_diff (a b : option Z) : number :=
  match a, b with
  | Some x, Some y => Finite (inject_Z (x - y))
  | _, _ => NaN
  end.

(** [x / d] for a positive literal [d]. *)
Definition div_by (x : number) (d : positive) : number :=
  match x with
  | Finite q => Finite (q * (1 # d))
  | other => other
  end.

Definition ms_per_hour : positive := 3600000.
Definition ms_per_day : Z := 24 * 60 * 60 * 1000.

End Js.

Export Js.

(** ** The production management agent *)

Module Production.

(** *** Content brief *)

(** The strategy fields the agent reads. [bestPublishTime] is held as the
    time value [new Date] parses it to; [None] is a missing field. *)
Record Strategy : Type := mkStrategy {
  topic : string;
  estimatedViews : Js.number;
  bestPublishTime : option Z;
  competitorAnalysis : option (list string)
}.

(** A section of [script.mainContent.sections]; an empty title is falsy. *)
Record ScriptSection : Type := mkSection {
  section_title : string
}.

(** [sections] is [script.mainContent && script.mainContent.sections]. *)
Record Script : Type := mkScript {
  script_title : string;
  script_duration : string;
  sections : option (list ScriptSection)
}.

(** The thumbnail of the brief, as the thumbnail designer hands it over. *)
Record BriefThumbnail : Type := mkBriefThumbnail {
  brief_path : option string;
  brief_dimensions : option (Z * Z);
  brief_fileSize : option Z;
  brief_script : option Script
}.

Record ContentData : Type := mkContentData {
  cd_strategy : Strategy;
  cd_script : Script;
  cd_thumbnail : BriefThumbnail;
  cd_seo : string
}.

(** *** Production item *)

Inductive Status : Type := processing | ready | failed.

#[export] Instance Status_eq_dec : EqDecision Status.
Proof. solve_decision. Defined.

(** In every artifact record [simulated] is the JavaScript property of that
    name: [false] when the object literal has no such property. *)
Record ScriptAsset : Type := mkScriptAsset {
  sa_originalPath : string;
  sa_ttsPath : string;
  sa_duration : string;
  sa_sections : nat
}.

Record ThumbnailAsset : Type := mkThumbnailAsset {
  th_path : string;
  th_originalPath : option string;
  th_dimensions : Z * Z;
  th_fileSize : Z;
  th_generatedWith : option string;
  th_simulated : bool
}.

Record AudioAsset : Type := mkAudioAsset {
  au_path : string;
  au_duration : string;
  au_format : string;
  au_generatedWith : option string;
  au_quality : option string;
  au_simulated : bool
}.

Record VideoAsset : Type := mkVideoAsset {
  vi_visualAssets : list string;
  vi_duration : string;
  vi_format : string;
  vi_resolution : string;
  vi_fps : Z;
  vi_generatedWith : option string;
  vi_simulated : bool
}.

Record CaptionsAsset : Type := mkCaptionsAsset {
  ca_path : string;
  ca_format : string;
  ca_language : string;
  ca_autoGenerated : bool;
  ca_simulated : bool
}.

Record FinalVideo : Type := mkFinalVideo {
  fv_path : string;
  fv_fileSize : Z;
  fv_duration : string;
  fv_generatedWith : option string;
  fv_resolution : option string;
  fv_format : option string;
  fv_simulated : bool
}.

(** [productionData.assets]; [None] is [null] (or a property not yet added). *)
Record Assets : Type := mkAssets {
  a_script : ScriptAsset;
  a_thumbnail : ThumbnailAsset;
  a_audio : option AudioAsset;
  a_video : option VideoAsset;
  a_captions : option CaptionsAsset;
  a_finalVideo : option FinalVideo
}.

(** The [timeline] object of an item as [processContent] builds and updates
    it: all seven keys are present, and [None] is [null]. *)
Record Timeline : Type := mkTimeline {
  created : option Z;
  scriptReady : option Z;
  thumbnailReady : option Z;
  audioGenerated : option Z;
  videoGenerated : option Z;
  captionsGenerated : option Z;
  readyForUpload : option Z
}.

Record ProductionItem : Type := mkItem {
  item_id : string;
  item_strategy : Strategy;
  item_script : Script;
  item_thumbnail : BriefThumbnail;
  item_seo : string;
  status : Status;
  assets : Assets;
  timeline : Timeline;
  scheduledPublishTime : Z;
  priority : Z;
  estimatedDuration : string;
  item_createdAt : Z
}.

(** In-place updates of [productionData]. *)
Definition with_assets (f : Assets -> Assets) (p : ProductionItem) : ProductionItem :=
  mkItem (item_id p) (item_strategy p) (item_script p) (item_thumbnail p) (item_seo p)
         (status p) (f (assets p)) (timeline p) (scheduledPublishTime p) (priority p)
         (estimatedDuration p) (item_createdAt p).

Definition with_timeline (f : Timeline -> Timeline) (p : ProductionItem) : ProductionItem :=
  mkItem (item_id p) (item_strategy p) (item_script p) (item_thumbnail p) (item_seo p)
         (status p) (assets p) (f (timeline p)) (scheduledPublishTime p) (priority p)
         (estimatedDuration p) (item_createdAt p).

Definition with_status (s : Status) (p : ProductionItem) : ProductionItem :=
  mkItem (item_id p) (item_strategy p) (item_script p) (item_thumbnail p) (item_seo p)
         s (assets p) (timeline p) (scheduledPublishTime p) (priority p)
         (estimatedDuration p) (item_createdAt p).

Definition set_audio (x : AudioAsset) (a : Assets) : Assets :=
  mkAssets (a_script a) (a_thumbnail a) (Some x) (a_video a) (a_captions a) (a_finalVideo a).
Definition set_video (x : VideoAsset) (a : Assets) : Assets :=
  mkAssets (a_script a) (a_thumbnail a) (a_audio a) (Some x) (a_captions a) (a_finalVideo a).
Definition set_captions (x : CaptionsAsset) (a : Assets) : Assets :=
  mkAssets (a_script a) (a_thumbnail a) (a_audio a) (a_video a) (Some x) (a_finalVideo a).
Definition set_finalVideo (x : FinalVideo) (a : Assets) : Assets :=
  mkAssets (a_script a) (a_thumbnail a) (a_audio a) (a_video a) (a_captions a) (Some x).

Definition set_audioGenerated (t : Z) (l : Timeline) : Timeline :=
  mkTimeline (created l) (scriptReady l) (thumbnailReady l) (Some t) (videoGenerated l)
             (captionsGenerated l) (readyForUpload l).
Definition set_videoGenerated (t : Z) (l : Timeline) : Timeline :=
  mkTimeline (created l) (scriptReady l) (thumbnailReady l) (audioGenerated l) (Some t)
             (captionsGenerated l) (readyForUpload l).
Definition set_captionsGenerated (t : Z) (l : Timeline) : Timeline :=
  mkTimeline (created l) (scriptReady l) (thumbnailReady l) (audioGenerated l)
             (videoGenerated l) (Some t) (readyForUpload l).
Definition set_readyForUpload (t : Z) (l : Timeline) : Timeline :=
  mkTimeline (created l) (scriptReady l) (thumbnailReady l) (audioGenerated l)
             (videoGenerated l) (captionsGenerated l) (Some t).

(** *** Priority and publish time *)

(** [calculatePriority(strategy)], with [new Date()] read as [now]. *)
Definition calculatePriority (now : Z) (strategy : Strategy) : Z :=
  let priority := 50 in
  let priority :=
    if Js.greater (estimatedViews strategy) 100000 then priority + 30
    else if Js.greater (estimatedViews strategy) 50000 then priority + 20
    else if Js.greater (estimatedViews strategy) 10000 then priority + 10
    else priority in
  let priority :=
    match competitorAnalysis strategy with
    | Some insights =>
        if bool_decide (0 < length insights)%nat then priority + 10 else priority
    | None => priority
    end in
  let hoursUntilPublish :=
    Js.div_by (Js.date_diff (bestPublishTime strategy) (Some now)) Js.ms_per_hour in
  let priority :=
    if Js.less hoursUntilPublish 24 then priority + 20
    else if Js.less hoursUntilPublish 48 then priority + 10
    else priority in
  Z.min 100 priority.

(** The bonuses as the specification words them. *)
Inductive views_bonus : Js.number -> Z -> Prop :=
| views_over_100k v : Js.greater v 100000 = true -> views_bonus v 30
| views_over_50k v :
    Js.greater v 100000 = false -> Js.greater v 50000 = true -> views_bonus v 20
| views_over_10k v :
    Js.greater v 50000 = false -> Js.greater v 10000 = true -> views_bonus v 10
| views_low v : Js.greater v 10000 = false -> views_bonus v 0.

Inductive competitor_bonus : option (list string) -> Z -> Prop :=
| competitor_present x xs : competitor_bonus (Some (x :: xs)) 10
| competitor_empty : competitor_bonus (Some []) 0
| competitor_missing : competitor_bonus None 0.

(** The argument is the distance to the target publish time in
    milliseconds, when the strategy has a target at all. *)
Inductive time_bonus : option Z -> Z -> Prop :=
| within_24h ms : ms < 24 * 3600000 -> time_bonus (Some ms) 20
| within_48h ms :
    24 * 3600000 <= ms -> ms < 48 * 3600000 -> time_bonus (Some ms) 10
| beyond_48h ms : 48 * 3600000 <= ms -> time_bonus (Some ms) 0
| no_target : time_bonus None 0.

Definition away (now : Z) (strategy : Strategy) : option Z :=
  (fun t => t - now) <$> bestPublishTime strategy.

(** *** The environment of one [processContent] call *)

(** What [aiVideoGenerator.generateThumbnail] resolves to. *)
Record AIThumbnail : Type := mkAIThumbnail {
  ai_path : string;
  ai_dimensions : Z * Z;
  ai_fileSize : Z;
  ai_simulated : bool
}.

(** Clock, random source, file system, media generators and store, each as
    the answer it gives to a call with the given arguments. The clock is one
    reading for the whole call; [tomorrow_at_14] is what the local calendar
    makes of "tomorrow, 14:00". *)
Record World : Type := mkWorld {
  clock : Z;
  random : string * string;
  root : string;
  tomorrow_at_14 : Z;
  fs_writeFile : string -> outcome unit;
  fs_readFile : string -> outcome string;
  fs_access : string -> bool;
  fs_mkdir : string -> outcome unit;
  fs_stat : string -> outcome Z;
  generateThumbnail : Script -> outcome AIThumbnail;
  generateVisualAssets : string -> outcome (list string);
  generateTTSAudio : string -> string -> outcome string;
  generateVideo : Script -> list string -> string -> string -> outcome string;
  saveProductionData : ProductionItem -> outcome unit;
  updateProductionData : ProductionItem -> outcome unit
}.

Section Pipeline.

(** The two text renderers are pure functions of the script; they throw a
    [TypeError] on scripts that miss a property they dereference. *)
Variable formatScriptForTTS : Script -> outcome string.
Variable createSRTCaptions : Script -> outcome string.
Variable W : World.

Definition generateProductionId : string :=
  "prod_" +:+ pretty (clock W) +:+ "_" +:+ fst (random W) +:+ "_" +:+ snd (random W).

Definition processScript (script : Script) : outcome ScriptAsset :=
  let scriptPath := root W +:+ "/data/scripts/" +:+ pretty (clock W) +:+ "_script.json" in
  let ttsPath := root W +:+ "/data/scripts/" +:+ pretty (clock W) +:+ "_script_tts.txt" in
  ttsScript ← formatScriptForTTS script;
  fs_writeFile W scriptPath;;
  fs_writeFile W ttsPath;;
  match sections script with
  | Some l => Ok (mkScriptAsset scriptPath ttsPath (script_duration script) (length l))
  | None => Throw "Cannot read properties of undefined (reading 'sections')"
  end.

Definition processThumbnail (thumbnail : BriefThumbnail) : outcome ThumbnailAsset :=
  let script :=
    default (mkScript "Ethereal Dreamscript Video" "" None) (brief_script thumbnail) in
  match generateThumbnail W script with
  | Ok aiThumbnail =>
      Ok (mkThumbnailAsset (ai_path aiThumbnail) (brief_path thumbnail)
            (ai_dimensions aiThumbnail) (ai_fileSize aiThumbnail) (Some "AI") false)
  | Throw _ =>
      let productionThumbnailPath :=
        root W +:+ "/data/assets/thumbnail_" +:+ pretty (clock W) +:+ ".jpg" in
      match brief_path thumbnail with
      | Some original =>
          if bool_decide (original <> "") && fs_access W original
          then originalBuffer ← fs_readFile W original;
               fs_writeFile W productionThumbnailPath
          else fs_writeFile W (productionThumbnailPath +:+ ".placeholder")
      | None => fs_writeFile W (productionThumbnailPath +:+ ".placeholder")
      end;;
      Ok (mkThumbnailAsset productionThumbnailPath (brief_path thumbnail)
            (default (1792, 1024) (brief_dimensions thumbnail))
            (default 0 (brief_fileSize thumbnail)) None false)
  end.

(** [calculatePublishTime(strategy)]: a truthy [bestPublishTime] is returned
    as it is, which is held here as the time it parses to; without one the
    result is tomorrow 14:00 local time. [Some t] stands here for a truthy
    field that parses to [t]. A field that is falsy without being missing
    ([null], [0], ['']) makes the code fall through to the default, and a
    truthy string that does not parse is returned as it is: neither is
    covered by this definition. *)
Definition calculatePublishTime (strategy : Strategy) : Z :=
  match bestPublishTime strategy with
  | Some t => t
  | None => tomorrow_at_14 W
  end.

Definition createVisualPromptsFromScript (script : Script) : list string :=
  let prompts := [script_title script +:+ ", ethereal storytelling, mystical background"] in
  let prompts :=
    prompts ++
    omap (fun section =>
            if bool_decide (section_title section <> "")
            then Some (section_title section +:+ ", ethereal dreamscape, creative visualization")
            else None)
         (default [] (sections script)) in
  let prompts :=
    prompts ++
    replicate (3 - length prompts)
              "ethereal dreamscape, mystical storytelling, creative visualization" in
  take 5 prompts.

(** The loop of [generateVideoContent] over the prompts. *)
Fixpoint collectVisualAssets (prompts : list string) (visualAssets : list string)
  : outcome (list string) :=
  match prompts with
  | [] => Ok visualAssets
  | prompt :: rest =>
      generated ← generateVisualAssets W prompt;
      collectVisualAssets rest (visualAssets ++ generated)
  end.

(** On failure the handler returns [createVideoElements(productionData)], a
    list of slide descriptors built from the script; [processContent] drops
    the value and the handler writes nothing to [productionData]. *)
Definition generateVideoContent : M ProductionItem unit :=
  try_catch
    (productionData ← get;
     visualAssets ← lift (collectVisualAssets
                            (createVisualPromptsFromScript (item_script productionData)) []);
     modify (with_assets (set_video
       (mkVideoAsset visualAssets (estimatedDuration productionData) "mp4" "1920x1080" 30
                     (Some "AI") false)));;
     modify (with_timeline (set_videoGenerated (clock W))))
    (fun _ => mret tt).

Definition audioPathOf (productionData : ProductionItem) : string :=
  root W +:+ "/data/audio/" +:+ item_id productionData +:+ "_narration.mp3".

Definition simulateAudioGeneration : M ProductionItem unit :=
  productionData ← get;
  let audioPath := audioPathOf productionData in
  lift (fs_writeFile W (audioPath +:+ ".info"));;
  modify (with_assets (set_audio
    (mkAudioAsset (audioPath +:+ ".info") (estimatedDuration productionData) "mp3"
                  None None true))).

Definition generateAudioNarration : M ProductionItem unit :=
  try_catch
    (productionData ← get;
     let audioPath := audioPathOf productionData in
     ttsText ← lift (fs_readFile W (sa_ttsPath (a_script (assets productionData))));
     lift (generateTTSAudio W ttsText audioPath);;
     modify (with_assets (set_audio
       (mkAudioAsset audioPath (estimatedDuration productionData) "mp3"
                     (Some "AI") (Some "high") false)));;
     modify (with_timeline (set_audioGenerated (clock W))))
    (fun _ => simulateAudioGeneration).

Definition generateCaptions : M ProductionItem unit :=
  productionData ← get;
  let captionsPath :=
    root W +:+ "/data/captions/" +:+ item_id productionData +:+ "_captions.srt" in
  captions ← lift (createSRTCaptions (item_script productionData));
  lift (fs_mkdir W (root W +:+ "/data/captions"));;
  lift (fs_writeFile W captionsPath);;
  modify (with_assets (set_captions (mkCaptionsAsset captionsPath "srt" "en" true false)));;
  modify (with_timeline (set_captionsGenerated (clock W))).

Definition finalVideoPathOf (productionData : ProductionItem) : string :=
  root W +:+ "/data/videos/" +:+ item_id productionData +:+ "_final.mp4".

Definition simulateVideoAssembly : M ProductionItem unit :=
  productionData ← get;
  let finalVideoPath := finalVideoPathOf productionData in
  lift (fs_writeFile W (finalVideoPath +:+ ".assembly.json"));;
  modify (with_assets (set_finalVideo
    (mkFinalVideo (finalVideoPath +:+ ".assembly.json") 0 (estimatedDuration productionData)
                  None None None true))).

Definition assembleVideo : M ProductionItem unit :=
  try_catch
    (productionData ← get;
     let finalVideoPath := finalVideoPathOf productionData in
     video ← match a_video (assets productionData) with
             | Some video => mret video
             | None => throw "Cannot read properties of null (reading 'visualAssets')"
             end;
     audio ← match a_audio (assets productionData) with
             | Some audio => mret audio
             | None => throw "Cannot read properties of null (reading 'path')"
             end;
     lift (generateVideo W (item_script productionData) (vi_visualAssets video)
                         (au_path audio) finalVideoPath);;
     size ← lift (fs_stat W finalVideoPath);
     modify (with_assets (set_finalVideo
       (mkFinalVideo finalVideoPath size (estimatedDuration productionData)
                     (Some "AI") (Some "1920x1080") (Some "mp4") false))))
    (fun _ => simulateVideoAssembly).

(** Everything [processContent] does after [this.pipeline.push]. *)
Definition afterPush : M ProductionItem ProductionItem :=
  productionData ← get;
  lift (saveProductionData W productionData);;
  generateVideoContent;;
  generateAudioNarration;;
  generateCaptions;;
  assembleVideo;;
  modify (with_status ready);;
  modify (with_timeline (set_readyForUpload (clock W)));;
  productionData ← get;
  lift (updateProductionData W productionData);;
  mret productionData.

(** [processContent(contentData)] on the agent's [this.pipeline]. The pushed
    object is the one the stages mutate, so the pipeline ends with the item
    in the state the call left it in, also when the call throws; the outer
    [catch] logs and rethrows. *)
Definition processContent (contentData : ContentData) (pipeline : list ProductionItem)
  : outcome ProductionItem * list ProductionItem :=
  let strategy := cd_strategy contentData in
  let script := cd_script contentData in
  let productionId := generateProductionId in
  match processScript script with
  | Throw e => (Throw e, pipeline)
  | Ok scriptAsset =>
      match processThumbnail (cd_thumbnail contentData) with
      | Throw e => (Throw e, pipeline)
      | Ok thumbnailAsset =>
          let productionData :=
            mkItem productionId strategy script (cd_thumbnail contentData)
                   (cd_seo contentData) processing
                   (mkAssets scriptAsset thumbnailAsset None None None None)
                   (mkTimeline (Some (clock W)) (Some (clock W)) (Some (clock W))
                               None None None None)
                   (calculatePublishTime strategy)
                   (calculatePriority (clock W) strategy)
                   (script_duration script)
                   (clock W) in
          let '(result, final) := afterPush productionData in
          (result, pipeline ++ [final])
      end
  end.

End Pipeline.

(** [calculateProgress(productionData)]: [Math.round((completed / 6) * 100)],
    on an item whose timeline has all its keys. A timeline read back from the
    store may lack keys, which [!== null] counts as reached:
    [Stored.calculateProgress] below is the function on any timeline object. *)
Definition milestones (l : Timeline) : list (option Z) :=
  [scriptReady l; thumbnailReady l; audioGenerated l; videoGenerated l;
   captionsGenerated l; readyForUpload l].

Definition calculateProgress (productionData : ProductionItem) : Z :=
  let completed :=
    Z.of_nat (length (filter (fun m => m <> None) (milestones (timeline productionData)))) in
  (200 * completed + 6) / 12.

End Production.

(** ** The publishing and scheduling agent *)

Module Publishing.

Inductive Status : Type := scheduled | paused | published | failed.

#[export] Instance Status_eq_dec : EqDecision Status.
Proof. solve_decision. Defined.

Record Metadata : Type := mkMetadata {
  seo : string;
  thumbnail : Production.ThumbnailAsset;
  video : option Production.FinalVideo;
  captions : option Production.CaptionsAsset
}.

(** A schedule entry object. [entry_id] is its [id] property, [undefined]
    until [db.saveScheduleEntry] assigns it. *)
Record PublishEntry : Type := mkEntry {
  entry_id : option string;
  productionId : string;
  title : string;
  publishTime : Z;
  status : Status;
  priority : Z;
  metadata : Metadata;
  createdAt : Z;
  publishedAt : option Z;
  youtubeId : option string;
  youtubeUrl : option string;
  error : option string
}.

Definition set_id (i : string) (e : PublishEntry) : PublishEntry :=
  mkEntry (Some i) (productionId e) (title e) (publishTime e) (status e) (priority e)
          (metadata e) (createdAt e) (publishedAt e) (youtubeId e) (youtubeUrl e) (error e).

Definition set_status (s : Status) (e : PublishEntry) : PublishEntry :=
  mkEntry (entry_id e) (productionId e) (title e) (publishTime e) s (priority e)
          (metadata e) (createdAt e) (publishedAt e) (youtubeId e) (youtubeUrl e) (error e).

Definition set_publishTime (t : Z) (e : PublishEntry) : PublishEntry :=
  mkEntry (entry_id e) (productionId e) (title e) t (status e) (priority e)
          (metadata e) (createdAt e) (publishedAt e) (youtubeId e) (youtubeUrl e) (error e).

Definition set_error (m : string) (e : PublishEntry) : PublishEntry :=
  mkEntry (entry_id e) (productionId e) (title e) (publishTime e) (status e) (priority e)
          (metadata e) (createdAt e) (publishedAt e) (youtubeId e) (youtubeUrl e) (Some m).

(** The four assignments of [publishContent] after the upload. *)
Definition set_published (now : Z) (videoId : string) (e : PublishEntry) : PublishEntry :=
  mkEntry (entry_id e) (productionId e) (title e) (publishTime e) published (priority e)
          (metadata e) (createdAt e) (Some now) (Some videoId)
          (Some ("https://www.youtube.com/watch?v=" +:+ videoId)) (error e).

(** A row of the [publish_schedule] table, keyed by its [id] column. *)
Record ScheduleRow : Type := mkRow {
  row_production_id : string;
  row_title : string;
  row_publish_time : Z;
  row_status : Status;
  row_priority : Z;
  row_metadata : Metadata;
  row_youtube_id : option string;
  row_youtube_url : option string;
  row_published_at : option Z;
  row_error_message : option string
}.

(** The two messages of the drain loop, with the entry they are about. *)
Inductive LogEvent : Type :=
| AutoPublished (entry : nat)
| FailedToAutoPublish (entry : nat) (message : string).

(** The agent: the objects it has created ([heap], addressed by reference),
    [this.publishQueue] as an array of references, the store behind
    [this.db], and the logger output. *)
Record Agent : Type := mkAgent {
  heap : gmap nat PublishEntry;
  publishQueue : list nat;
  publish_schedule : gmap string ScheduleRow;
  log : list LogEvent
}.

(** The agent as its constructor leaves it, on an empty store. *)
Definition initial : Agent := mkAgent ∅ [] ∅ [].

(** What the environment answers during one operation: the clock (one
    reading for the whole call), the id [db.generateId('schedule')] makes up
    from clock and random source, the video host, and whether the store
    rejects an insert or an update. The SEO object of an entry is opaque
    here: [seo_error] gives the [TypeError], if any, that reading its
    [title], [description], [tags], [metadata.category] and
    [metadata.language] raises. *)
Record World : Type := mkWorld {
  clock : Z;
  generateId : string;
  seo_error : string -> option string;
  videos_insert : PublishEntry -> outcome string;
  thumbnails_set : string -> string -> outcome unit;
  captions_insert : string -> string -> outcome unit;
  insert_rejected : PublishEntry -> option string;
  update_rejected : PublishEntry -> option string
}.

(** [a.sort(compare)] with a comparator that is a difference of keys: the
    stable sort by ascending key. *)
Fixpoint insert_by {A} (key : A -> Z) (x : A) (l : list A) : list A :=
  match l with
  | [] => [x]
  | y :: l' => if key y <? key x then y :: insert_by key x l' else x :: y :: l'
  end.

Definition sort_by {A} (key : A -> Z) (l : list A) : list A :=
  foldr (insert_by key) [] l.

Definition with_heap (f : gmap nat PublishEntry -> gmap nat PublishEntry) (st : Agent) : Agent :=
  mkAgent (f (heap st)) (publishQueue st) (publish_schedule st) (log st).

Definition with_queue (f : list nat -> list nat) (st : Agent) : Agent :=
  mkAgent (heap st) (f (publishQueue st)) (publish_schedule st) (log st).

Definition with_table (f : gmap string ScheduleRow -> gmap string ScheduleRow) (st : Agent)
  : Agent :=
  mkAgent (heap st) (publishQueue st) (f (publish_schedule st)) (log st).

Definition with_log (f : list LogEvent -> list LogEvent) (st : Agent) : Agent :=
  mkAgent (heap st) (publishQueue st) (publish_schedule st) (f (log st)).

(** [new Date(entry.publishTime)] of the object behind a reference. *)
Definition timeOf (st : Agent) (r : nat) : Z :=
  from_option publishTime 0 (heap st !! r).

(** A new object. *)
Definition alloc (e : PublishEntry) : M Agent nat := fun st =>
  let r := fresh (dom (heap st)) in
  (Ok r, with_heap <[r:=e]> st).

(** Reading through a reference; references held by the agent are allocated. *)
Definition deref (r : nat) : M Agent PublishEntry := fun st =>
  match heap st !! r with
  | Some e => (Ok e, st)
  | None => (Throw "unallocated reference", st)
  end.

(** A property assignment through a reference. *)
Definition assign (r : nat) (f : PublishEntry -> PublishEntry) : M Agent unit :=
  modify (with_heap (alter f r)).

(** [x || null] for a string. *)
Definition or_null (x : option string) : option string :=
  match x with
  | Some "" => None
  | other => other
  end.

Section Operations.

Variable W : World.

(** [db.saveScheduleEntry(entry)] *)
Definition saveScheduleEntry (r : nat) : M Agent unit :=
  let id := generateId W in
  assign r (set_id id);;
  entry ← deref r;
  match insert_rejected W entry with
  | Some message => throw message
  | None =>
      st ← get;
      match publish_schedule st !! id with
      | Some _ => throw "SQLITE_CONSTRAINT: UNIQUE constraint failed: publish_schedule.id"
      | None =>
          modify (with_table <[id := mkRow (productionId entry) (title entry)
                                        (publishTime entry) (status entry) (priority entry)
                                        (metadata entry) None None None None]>)
      end
  end.

(** [db.updateScheduleEntry(entry)] *)
Definition updateScheduleEntry (r : nat) : M Agent unit :=
  entry ← deref r;
  match update_rejected W entry with
  | Some message => throw message
  | None =>
      match entry_id entry with
      | Some id =>
          modify (with_table (alter (fun row =>
            mkRow (row_production_id row) (row_title row) (row_publish_time row)
                  (status entry) (row_priority row) (row_metadata row)
                  (or_null (youtubeId entry)) (or_null (youtubeUrl entry))
                  (publishedAt entry) (or_null (error entry))) id))
      | None => mret tt
      end
  end.

(** The object literal [scheduleEntry] of [scheduleContent]. *)
Definition newScheduleEntry (productionData : Production.ProductionItem) : PublishEntry :=
  mkEntry None
          (Production.item_id productionData)
          (Production.script_title (Production.item_script productionData))
          (Production.scheduledPublishTime productionData)
          scheduled
          (Production.priority productionData)
          (mkMetadata (Production.item_seo productionData)
                      (Production.a_thumbnail (Production.assets productionData))
                      (Production.a_finalVideo (Production.assets productionData))
                      (Production.a_captions (Production.assets productionData)))
          (clock W) None None None None.

(** [scheduleContent(productionData)]; the [catch] logs and rethrows. *)
Definition scheduleContent (productionData : Production.ProductionItem) : M Agent nat :=
  r ← alloc (newScheduleEntry productionData);
  modify (with_queue (fun q => q ++ [r]));;
  st ← get;
  modify (with_queue (sort_by (timeOf st)));;
  saveScheduleEntry r;;
  mret r.

(** [entry.productionId === contentId || entry.id === contentId] *)
Definition matches (contentId : string) (e : PublishEntry) : bool :=
  bool_decide (productionId e = contentId) || bool_decide (entry_id e = Some contentId).

(** [this.publishQueue.find(...)] *)
Fixpoint find (st : Agent) (contentId : string) (q : list nat) : option nat :=
  match q with
  | [] => None
  | r :: q' =>
      if from_option (matches contentId) false (heap st !! r) then Some r
      else find st contentId q'
  end.

(** [uploadToYouTube(scheduleEntry)]: the request body is built from the
    SEO object first, then [metadata.video.path] is read, then the video is
    uploaded; the thumbnail and caption uploads catch their own errors. *)
Definition uploadToYouTube (scheduleEntry : PublishEntry) : outcome string :=
  match seo_error W (seo (metadata scheduleEntry)) with
  | Some message => Throw message
  | None =>
      match video (metadata scheduleEntry) with
      | None => Throw "Cannot read properties of undefined (reading 'path')"
      | Some _ =>
          videoId ← videos_insert W scheduleEntry;
          let _ := thumbnails_set W videoId
                     (Production.th_path (thumbnail (metadata scheduleEntry))) in
          let _ := (fun c => captions_insert W videoId (Production.ca_path c))
                     <$> captions (metadata scheduleEntry) in
          Ok videoId
      end
  end.

(** [entry.id !== scheduleEntry.id], the filter of [publishContent]. *)
Definition otherId (st : Agent) (id : option string) (r : nat) : bool :=
  bool_decide (entry_id <$> heap st !! r <> Some id).

(** [publishContent(contentId)]; the [catch] logs and rethrows. *)
Definition publishContent (contentId : string) : M Agent nat :=
  st ← get;
  match find st contentId (publishQueue st) with
  | None => throw ("Content not found in queue: " +:+ contentId)
  | Some r =>
      scheduleEntry ← deref r;
      videoId ← lift (uploadToYouTube scheduleEntry);
      assign r (set_published (clock W) videoId);;
      updateScheduleEntry r;;
      st ← get;
      modify (with_queue (List.filter (otherId st (entry_id scheduleEntry))));;
      mret r
  end.

(** [publishTime <= now && entry.status === 'scheduled'] *)
Definition due (st : Agent) (now : Z) (r : nat) : bool :=
  from_option (fun e => (publishTime e <=? now) && bool_decide (status e = scheduled))
              false (heap st !! r).

(** The [try] block of the drain loop for one entry of [readyToPublish]. *)
Definition autoPublish (r : nat) : M Agent unit :=
  entry ← deref r;
  publishContent (productionId entry);;
  modify (with_log (fun l => l ++ [AutoPublished r])).

(** Its [catch] block. *)
Definition markFailed (r : nat) (message : string) : M Agent unit :=
  modify (with_log (fun l => l ++ [FailedToAutoPublish r message]));;
  assign r (set_status failed);;
  assign r (set_error message);;
  updateScheduleEntry r.

(** The body of the drain loop. *)
Definition publishOne (r : nat) : M Agent unit :=
  try_catch (autoPublish r) (markFailed r).

(** [processPublishQueue()] *)
Definition processPublishQueue : M Agent nat :=
  st ← get;
  let now := clock W in
  let readyToPublish := List.filter (due st now) (publishQueue st) in
  for_of readyToPublish publishOne;;
  mret (length readyToPublish).

(** [getUpcomingSchedule(days)]: a sorted copy of the entries in the window. *)
Definition getUpcomingSchedule (days : Z) (st : Agent) : list nat :=
  let now := clock W in
  let endDate := now + days * 24 * 60 * 60 * 1000 in
  sort_by (timeOf st)
          (List.filter (fun r => from_option
                                   (fun e => (now <=? publishTime e) && (publishTime e <=? endDate))
                                   false (heap st !! r))
                       (publishQueue st)).

(** [pauseScheduledContent(contentId)] *)
Definition pauseScheduledContent (contentId : string) : M Agent nat :=
  st ← get;
  match find st contentId (publishQueue st) with
  | None => throw ("Content not found: " +:+ contentId)
  | Some r =>
      assign r (set_status paused);;
      updateScheduleEntry r;;
      mret r
  end.

(** [resumeScheduledContent(contentId, newPublishTime)]. [None] stands for
    any falsy argument ([null], omitted, [0], ['']), which leaves the time as
    it is, and [Some t] for a truthy argument that parses to the time [t].
    For a truthy argument that does not parse, [toISOString] throws a
    [RangeError] after the status has been set and before the store is
    updated: such a call is not covered by this definition. *)
Definition resumeScheduledContent (contentId : string) (newPublishTime : option Z)
  : M Agent nat :=
  st ← get;
  match find st contentId (publishQueue st) with
  | None => throw ("Content not found: " +:+ contentId)
  | Some r =>
      assign r (set_status scheduled);;
      match newPublishTime with
      | Some t => assign r (set_publishTime t)
      | None => mret tt
      end;;
      updateScheduleEntry r;;
      mret r
  end.

(** [emergencyPublish(contentId, delayMinutes)] *)
Definition emergencyPublish (contentId : string) (delayMinutes : Z) : M Agent nat :=
  st ← get;
  match find st contentId (publishQueue st) with
  | None => throw ("Content not found: " +:+ contentId)
  | Some r =>
      if 0 <? delayMinutes
      then assign r (set_publishTime (clock W + delayMinutes * 60 * 1000));;
           updateScheduleEntry r;;
           mret r
      else publishContent contentId
  end.

End Operations.

(** *** Notions used to state properties of the queue *)

(** Every reference held in the queue is an allocated object. *)
Definition allocated (st : Agent) : Prop :=
  Forall (fun r => is_Some (heap st !! r)) (publishQueue st).

(** The [id] properties of the queued entries, in queue order. *)
Definition queuedIds (st : Agent) : list (option (option string)) :=
  map (fun r => entry_id <$> heap st !! r) (publishQueue st).

(** No two queued entries share an [id] (the primary key of the store). *)
Definition distinctIds (st : Agent) : Prop := NoDup (queuedIds st).

(** The number of queued entries of a production whose status is
    ['scheduled']. *)
Definition scheduledFor (st : Agent) (contentId : string) : nat :=
  length (List.filter
            (fun r => from_option
                        (fun e => bool_decide (productionId e = contentId)
                                  && bool_decide (status e = scheduled))
                        false (heap st !! r))
            (publishQueue st)).

(** The queue is in ascending order of publish time. *)
Definition sortedByTime (st : Agent) : Prop :=
  Sorted Z.le (map (timeOf st) (publishQueue st)).

Definition entryOf (ev : LogEvent) : nat :=
  match ev with
  | AutoPublished r => r
  | FailedToAutoPublish r _ => r
  end.

Definition isPublished (ev : LogEvent) : bool :=
  match ev with
  | AutoPublished _ => true
  | FailedToAutoPublish _ _ => false
  end.

(** The messages one [processPublishQueue] call logs in its loop, in the
    order in which it logs them. *)
Definition drainEvents (W : World) (st : Agent) : list LogEvent :=
  drop (length (log st)) (log (snd (processPublishQueue W st))).


(** Objects are never deallocated. *)
Definition keeps_objects (st st' : Agent) : Prop :=
  forall x, is_Some (heap st !! x) -> is_Some (heap st' !! x).

(** The state an operation leaves behind. *)
Definition after {A} (m : M Agent A) (st : Agent) : Agent := snd (m st).

(** The states the agent gets into through its operations, in any
    environment and whether or not the operation throws. *)
Inductive reachable : Agent -> Prop :=
| reach_initial : reachable initial
| reach_schedule W productionData st :
    reachable st -> reachable (after (scheduleContent W productionData) st)
| reach_publish W contentId st :
    reachable st -> reachable (after (publishContent W contentId) st)
| reach_drain W st :
    reachable st -> reachable (after (processPublishQueue W) st)
| reach_pause W contentId st :
    reachable st -> reachable (after (pauseScheduledContent W contentId) st)
| reach_resume W contentId newPublishTime st :
    reachable st ->
    reachable (after (resumeScheduledContent W contentId newPublishTime) st)
| reach_emergency W contentId delayMinutes st :
    reachable st ->
    reachable (after (emergencyPublish W contentId delayMinutes) st).

End Publishing.

(** ** The daily automation scheduler *)

Module Automation.

(** *** [parseInt] on the text of a setting *)

(** The text of a setting is a sequence of code units below 256. Of these,
    the white space and line terminators that [parseInt] skips are TAB, LF,
    VT, FF, CR, SP and NBSP. *)
Definition is_whitespace (c : ascii) : bool :=
  match nat_of_ascii c with
  | 9%nat | 10%nat | 11%nat | 12%nat | 13%nat | 32%nat | 160%nat => true
  | _ => false
  end.

Fixpoint skip_whitespace (s : string) : string :=
  match s with
  | String c s' => if is_whitespace c then skip_whitespace s' else s
  | EmptyString => s
  end.

Definition digit_value (c : ascii) : option Z :=
  let n := Z.of_nat (nat_of_ascii c) in
  if (48 <=? n) && (n <=? 57) then Some (n - 48)
  else if (97 <=? n) && (n <=? 122) then Some (n - 87)
  else if (65 <=? n) && (n <=? 90) then Some (n - 55)
  else None.

(** The longest prefix of digits of the radix; [acc] is [None] until a digit
    has been read. *)
Fixpoint digits (radix : Z) (s : string) (acc : option Z) : option Z :=
  match s with
  | String c s' =>
      match digit_value c with
      | Some d => if d <? radix then digits radix s' (Some (default 0 acc * radix + d)) else acc
      | None => acc
      end
  | EmptyString => acc
  end.

(** The Number value of a non-negative integer: exact below [2 ^ 53]; above,
    the 53 leading bits are kept, rounded to nearest, ties to even. From
    [2 ^ 1024 - 2 ^ 970] on the value is [Infinity], which is held as
    [2 ^ 1024]: like [Infinity] it is truthy and above every finite Number. *)
Definition nearest_double (x : Z) : Z :=
  if x <? 2 ^ 53 then x
  else
    let e := Z.log2 x - 52 in
    let q := x / 2 ^ e in
    let r := x mod 2 ^ e in
    let half := 2 ^ (e - 1) in
    let q := if (half <? r) || ((r =? half) && Z.odd q) then q + 1 else q in
    let y := q * 2 ^ e in
    if 2 ^ 1024 <=? y then 2 ^ 1024 else y.

(** [parseInt(s)]; [None] is [NaN]. The digits are read exactly and the
    result is converted to a Number. *)
Definition parseInt (s : string) : option Z :=
  let s := skip_whitespace s in
  let '(sign, s) :=
    match s with
    | String "-" s' => (-1, s')
    | String "+" s' => (1, s')
    | _ => (1, s)
    end in
  let '(radix, s) :=
    match s with
    | String "0" (String "x" s') => (16, s')
    | String "0" (String "X" s') => (16, s')
    | _ => (10, s)
    end in
  (fun mathInt => sign * nearest_double mathInt) <$> digits radix s None.

(** *** The generation gate *)

(** The [settings] table, the clock, the local weekday of the clock
    ([today.getDay()]) and the date parser of the runtime. *)
Record World : Type := mkWorld {
  settings : gmap string string;
  today : Z;
  getDay : Z;
  parseDate : string -> option Z;
  publishing : Publishing.World
}.

(** [db.getSetting(key)]: [None] is [null]. *)
Definition getSetting (W : World) (key : string) : option string :=
  settings W !! key.

(** [parseInt(await this.db.getSetting('content_buffer_days')) || 3];
    [parseInt(null)] is [NaN]. *)
Definition bufferDaysOf (W : World) : Z :=
  match getSetting W "content_buffer_days" ≫= parseInt with
  | Some 0 => 3
  | Some n => n
  | None => 3
  end.

(** [x >= c] for [x = Math.floor(...)], [None] being [NaN]. *)
Definition at_least (x : option Z) (c : Z) : bool :=
  from_option (fun d => c <=? d) false x.

(** [shouldGenerateContentToday()] *)
Definition shouldGenerateContentToday (W : World) (agent : Publishing.Agent) : bool :=
  let upcomingContent := Publishing.getUpcomingSchedule (publishing W) 3 agent in
  let bufferDays := bufferDaysOf W in
  if bufferDays <=? Z.of_nat (length upcomingContent) then false
  else
    let frequency :=
      match getSetting W "posting_frequency" with
      | Some "" => "daily"
      | Some f => f
      | None => "daily"
      end in
    match getSetting W "last_content_generation" with
    | Some "" => true
    | None => true
    | Some lastGeneration =>
        let daysSinceLastGeneration :=
          (fun lastDate => (today W - lastDate) / (1000 * 60 * 60 * 24))
            <$> parseDate W lastGeneration in
        if bool_decide (frequency = "daily") then at_least daysSinceLastGeneration 1
        else if bool_decide (frequency = "every-2-days") then at_least daysSinceLastGeneration 2
        else if bool_decide (frequency = "3-per-week")
          then at_least daysSinceLastGeneration 2
               || bool_decide (getDay W ∈ [1; 3; 5])
        else if bool_decide (frequency = "weekly") then at_least daysSinceLastGeneration 7
        else true
    end.

End Automation.

(** ** Concrete briefs, environments and queues *)

Module Scenario.

Definition script : Production.Script :=
  Production.mkScript "Ten tips" "8:00"
    (Some [Production.mkSection "Getting started"; Production.mkSection "Tip one"]).

Definition strategy : Production.Strategy :=
  Production.mkStrategy "tips" (Js.Finite (inject_Z 200000)) (Some 43200000) None.

Definition brief : Production.ContentData :=
  Production.mkContentData strategy script
    (Production.mkBriefThumbnail (Some "/in/thumb.png") (Some (1280, 720)) (Some 2048)
                                 (Some script))
    "seo".

Definition formatScriptForTTS (s : Production.Script) : outcome string :=
  Ok (Production.script_title s).

Definition createSRTCaptions (s : Production.Script) : outcome string :=
  Ok ("1 " +:+ Production.script_title s).

(** An environment of [processContent] in which the file system and the store
    work and the four media generators answer as given. *)
Definition studio (thumbnail : outcome Production.AIThumbnail)
                  (visuals : outcome (list string))
                  (speech : outcome string)
                  (mkdir : outcome unit) : Production.World :=
  Production.mkWorld 1000 ("k3x", "p9q") "/app" 90000000
    (fun _ => Ok tt) (fun _ => Ok "bytes") (fun _ => true) (fun _ => mkdir)
    (fun _ => Ok 4096)
    (fun _ => thumbnail) (fun _ => visuals) (fun _ _ => speech)
    (fun _ _ _ out => Ok out)
    (fun _ => Ok tt) (fun _ => Ok tt).

Definition aiThumbnail : Production.AIThumbnail :=
  Production.mkAIThumbnail "/app/uploads/thumbnails/thumbnail_1000.png" (1792, 1024) 5000 false.

Definition allWell : Production.World :=
  studio (Ok aiThumbnail) (Ok ["/app/data/assets/visual_0.png"]) (Ok "narration.mp3") (Ok tt).

Definition thumbnailThrows : Production.World :=
  studio (Throw "image API unavailable") (Ok ["/app/data/assets/visual_0.png"])
         (Ok "narration.mp3") (Ok tt).

(** The image API failed inside the generator, which answered with its own
    simulated thumbnail. *)
Definition thumbnailSimulated : Production.World :=
  studio (Ok (Production.mkAIThumbnail "/app/uploads/thumbnails/thumbnail_sim_1000.info"
                                       (1792, 1024) 1024 true))
         (Ok ["/app/data/assets/visual_0.png"]) (Ok "narration.mp3") (Ok tt).

Definition visualsThrow : Production.World :=
  studio (Ok aiThumbnail) (Throw "image API unavailable") (Ok "narration.mp3") (Ok tt).

Definition speechThrows : Production.World :=
  studio (Ok aiThumbnail) (Ok ["/app/data/assets/visual_0.png"]) (Throw "TTS quota exceeded")
         (Ok tt).

Definition captionsThrow : Production.World :=
  studio (Ok aiThumbnail) (Ok ["/app/data/assets/visual_0.png"]) (Ok "narration.mp3")
         (Throw "EACCES: permission denied, mkdir").

Definition process (W : Production.World) :=
  Production.processContent formatScriptForTTS createSRTCaptions W brief [].

(** A production item as [processContent] hands it over, with the given id,
    publish time and status. *)
Definition item (id : string) (publishAt : Z) (s : Production.Status)
  : Production.ProductionItem :=
  Production.mkItem id strategy script
    (Production.mkBriefThumbnail None None None None) "seo" s
    (Production.mkAssets
       (Production.mkScriptAsset "/app/s.json" "/app/s_tts.txt" "8:00" 2)
       (Production.mkThumbnailAsset "/app/t.png" None (1792, 1024) 5000 (Some "AI") false)
       None None None
       (Some (Production.mkFinalVideo "/app/v.mp4" 4096 "8:00" (Some "AI") None None false)))
    (Production.mkTimeline (Some 0) (Some 0) (Some 0) None None None None)
    publishAt 50 "8:00" 0.

(** An environment of the publishing agent: the clock, the id the store
    generates next, and the productions whose upload the video host refuses. *)
Definition host (now : Z) (nextId : string) (refused : list string) : Publishing.World :=
  Publishing.mkWorld now nextId (fun _ => None)
    (fun e => if bool_decide (Publishing.productionId e ∈ refused)
              then Throw "quotaExceeded"
              else Ok ("yt_" +:+ Publishing.productionId e))
    (fun _ _ => Ok tt) (fun _ _ => Ok tt)
    (fun _ => None) (fun _ => None).

Definition schedule (nextId id : string) (publishAt : Z) (s : Production.Status)
  : Publishing.Agent -> Publishing.Agent :=
  Publishing.after (Publishing.scheduleContent (host 0 nextId []) (item id publishAt s)).

(** Two productions queued for times 10 and 20. *)
Definition twoQueued : Publishing.Agent :=
  schedule "schedule_2" "prod_B" 20 Production.ready
    (schedule "schedule_1" "prod_A" 10 Production.ready Publishing.initial).

(** ... then the first one paused and resumed for time 30. *)
Definition rescheduled : Publishing.Agent :=
  Publishing.after (Publishing.resumeScheduledContent (host 5 "" []) "prod_A" (Some 30))
    (Publishing.after (Publishing.pauseScheduledContent (host 5 "" []) "prod_A") twoQueued).

(** The same production handed over twice. *)
Definition queuedTwice : Publishing.Agent :=
  schedule "schedule_2" "prod_A" 10 Production.ready
    (schedule "schedule_1" "prod_A" 10 Production.ready Publishing.initial).

(** Three productions queued for the next three days (times in ms). *)
Definition threeQueued : Publishing.Agent :=
  schedule "schedule_3" "prod_C" 200000000 Production.ready
    (schedule "schedule_2" "prod_B" 100000000 Production.ready
       (schedule "schedule_1" "prod_A" 50000000 Production.ready Publishing.initial)).


(** The scheduler's environment with the given [content_buffer_days]. *)
Definition morning (bufferDays : string) : Automation.World :=
  Automation.mkWorld {[ "content_buffer_days" := bufferDays ]} 1000 2 (fun _ => None)
                     (host 1000 "" []).

End Scenario.

(** ** Notions used to state further properties *)

Module Views.

(** The sections of a script that have a title. *)
Definition titledSections (script : Production.Script) : list Production.ScriptSection :=
  List.filter (fun section => bool_decide (Production.section_title section <> ""))
              (default [] (Production.sections script)).

(** Every stored row is still there, with the columns that
    [db.updateScheduleEntry] does not write as they were. *)
Definition rowsKept (st st' : Publishing.Agent) : Prop :=
  forall (id : string) (row : Publishing.ScheduleRow),
    Publishing.publish_schedule st !! id = Some row ->
    exists row' : Publishing.ScheduleRow,
      Publishing.publish_schedule st' !! id = Some row' /\
      Publishing.row_publish_time row' = Publishing.row_publish_time row /\
      Publishing.row_production_id row' = Publishing.row_production_id row /\
      Publishing.row_title row' = Publishing.row_title row /\
      Publishing.row_priority row' = Publishing.row_priority row /\
      Publishing.row_metadata row' = Publishing.row_metadata row.

(** The production an object belongs to, and its id. *)
Definition pidOf (st : Publishing.Agent) (r : nat) : option string :=
  Publishing.productionId <$> Publishing.heap st !! r.

Definition idOf (st : Publishing.Agent) (r : nat) : option (option string) :=
  Publishing.entry_id <$> Publishing.heap st !! r.

(** Content ids name queued entries unambiguously: the queued entries are
    allocated, belong to pairwise different productions, have pairwise
    different ids, and no production id doubles as the id of an entry. *)
Definition keyed (st : Publishing.Agent) : Prop :=
  Publishing.allocated st /\
  NoDup (map (pidOf st) (Publishing.publishQueue st)) /\
  NoDup (map (idOf st) (Publishing.publishQueue st)) /\
  forall (r r' : nat) (p : string),
    In r (Publishing.publishQueue st) -> In r' (Publishing.publishQueue st) ->
    pidOf st r = Some p -> idOf st r' <> Some (Some p).

(** How one turn of the drain leaves an entry [e], as [e']: published with
    the id the video host returned, or failed -- with the message of the
    upload error when the upload threw, or with some store error although
    the upload went through. *)
Definition settled (W : Publishing.World) (e e' : Publishing.PublishEntry) : Prop :=
  match Publishing.uploadToYouTube W e with
  | Throw message =>
      Publishing.status e' = Publishing.failed /\ Publishing.error e' = Some message
  | Ok videoId =>
      Publishing.youtubeId e' = Some videoId /\
      Publishing.publishedAt e' = Some (Publishing.clock W) /\
      (Publishing.status e' = Publishing.published \/
       (Publishing.status e' = Publishing.failed /\
        exists message,
          Publishing.update_rejected W
            (Publishing.set_published (Publishing.clock W) videoId e) = Some message /\
          Publishing.error e' = Some message))
  end.

(** The due entries at the time of the environment. *)
Definition dueNow (W : Publishing.World) (st : Publishing.Agent) : list nat :=
  List.filter (Publishing.due st (Publishing.clock W)) (Publishing.publishQueue st).


End Views.

(** ** More concrete environments and queues *)

Module Cases.

(** A store that rejects every insert and every update. *)
Definition storeDown (now : Z) (nextId : string) : Publishing.World :=
  Publishing.mkWorld now nextId (fun _ => None)
    (fun e => Ok ("yt_" +:+ Publishing.productionId e))
    (fun _ _ => Ok tt) (fun _ _ => Ok tt)
    (fun _ => Some "SQLITE_BUSY: database is locked")
    (fun _ => Some "SQLITE_BUSY: database is locked").

(** Two productions handed over while the store generates the same id
    twice: the second insert is rejected, its entry stays queued. *)
Definition sameId : Publishing.Agent :=
  Scenario.schedule "schedule_1" "prod_B" 20 Production.ready
    (Scenario.schedule "schedule_1" "prod_A" 10 Production.ready Publishing.initial).

End Cases.

(** More notions for the scheduler. *)

Module Gate.

(** The number of entries the gate counts. *)
Definition upcomingCount (W : Automation.World) (agent : Publishing.Agent) : Z :=
  Z.of_nat (length (Publishing.getUpcomingSchedule (Automation.publishing W) 3 agent)).

(** Milliseconds since the recorded last generation, when it parses. *)
Definition elapsed (W : Automation.World) (lastGeneration : string) : option Z :=
  (fun lastDate => Automation.today W - lastDate) <$> Automation.parseDate W lastGeneration.

(** At least [ms] milliseconds have elapsed. *)
Definition elapsedAtLeast (W : Automation.World) (lastGeneration : string) (ms : Z) : Prop :=
  exists d : Z, elapsed W lastGeneration = Some d /\ ms <= d.

(** A morning on which the last generation is on record. *)
Definition weekly (last : string) (lastDate today : Z) : Automation.World :=
  Automation.mkWorld
    {[ "content_buffer_days" := "3"; "posting_frequency" := "weekly";
       "last_content_generation" := last ]}
    today 2 (fun _ => Some lastDate) (Scenario.host today "" []).

End Gate.

Module Unfinished.

(** A production item that never got its final video, queued at time 10. *)
Definition item : Production.ProductionItem :=
  Production.with_assets
    (fun a => Production.mkAssets (Production.a_script a) (Production.a_thumbnail a)
                                  None None None None)
    (Scenario.item "prod_U" 10 Production.processing).

Definition queued : Publishing.Agent :=
  Publishing.after (Publishing.scheduleContent (Scenario.host 0 "schedule_1" []) item)
                   Publishing.initial.

End Unfinished.

(** ** Pipeline queries of the production agent *)

Module Queries.

Definition isReady (item : Production.ProductionItem) : bool :=
  if Production.Status_eq_dec (Production.status item) Production.ready then true else false.

(** [getNextReadyContent()]: the ['ready'] items in descending order of
    priority (a stable sort by the difference [b.priority - a.priority]),
    and of these the first, or [null]. *)
Definition getNextReadyContent (pipeline : list Production.ProductionItem)
  : option Production.ProductionItem :=
  head (Publishing.sort_by
          (fun item => - Production.priority item)
          (List.filter (fun item => isReady item)
                       pipeline)).

(** The ['ready'] items of a pipeline, in pipeline order. *)
Definition readyItems (pipeline : list Production.ProductionItem)
  : list Production.ProductionItem :=
  List.filter (fun item => isReady item) pipeline.

End Queries.

(** ** The settings table of the store *)

Module Settings.

Record Row : Type := mkRow {
  value : string;
  description : option string;
  updated_at : Z
}.

(** [getSetting(key)]: [row ? row.value : null] *)
Definition getSetting (table : gmap string Row) (key : string) : option string :=
  value <$> table !! key.

(** [setSetting(key, value, description)]: [INSERT OR REPLACE] with the
    description [COALESCE]d with the stored one; [description] defaults to
    [null]. *)
Definition setSetting (now : Z) (key val : string) (desc : option string)
           (table : gmap string Row) : gmap string Row :=
  <[key := mkRow val
             (match desc with
              | Some d => Some d
              | None => table !! key ≫= description
              end)
             now]> table.

(** [INSERT OR IGNORE INTO settings (key, value, description)] *)
Definition insertOrIgnore (now : Z) (table : gmap string Row)
           (setting : string * string * string) : gmap string Row :=
  let '(key, val, desc) := setting in
  match table !! key with
  | Some _ => table
  | None => <[key := mkRow val (Some desc) now]> table
  end.

Definition defaultSettings : list (string * string * string) :=
  [("daily_content_enabled", "true", "Enable daily content generation");
   ("auto_publish_enabled", "true", "Enable automatic publishing");
   ("analytics_enabled", "true", "Enable analytics collection");
   ("optimization_enabled", "true", "Enable automatic optimization");
   ("publish_time_optimization", "true", "Optimize publishing times automatically");
   ("thumbnail_ab_testing", "false", "Enable thumbnail A/B testing");
   ("content_backup_enabled", "true", "Enable content backup");
   ("notification_enabled", "true", "Enable system notifications");
   ("max_daily_posts", "1", "Maximum posts per day");
   ("content_buffer_days", "3", "Days of content to keep in buffer")].

(** [insertDefaultSettings()] *)
Definition insertDefaultSettings (now : Z) (table : gmap string Row) : gmap string Row :=
  fold_left (insertOrIgnore now) defaultSettings table.

(** [getAllSettings()]: the object mapping each key to its value. *)
Definition getAllSettings (table : gmap string Row) : gmap string string :=
  value <$> table.

(** The scheduler's environment reading its settings from a table. *)
Definition reading (table : gmap string Row) (W : Automation.World) : Automation.World :=
  Automation.mkWorld (getAllSettings table) (Automation.today W) (Automation.getDay W)
                     (Automation.parseDate W) (Automation.publishing W).

End Settings.

(** ** Optimising the publish times *)

Module Optimizer.

(** *** The local time of a [Date] *)

(** A valid [Date] is its time value, in milliseconds since the epoch. The
    host runs in a time zone at a fixed offset from UTC: local time is
    [utcOffset] milliseconds ahead. *)

Definition ms_per_hour : Z := 60 * 60 * 1000.

Definition weekdays : list string :=
  ["Sunday"; "Monday"; "Tuesday"; "Wednesday"; "Thursday"; "Friday"; "Saturday"].

Section Zone.

Variable utcOffset : Z.

(** Milliseconds since local midnight. *)
Definition timeOfDay (t : Z) : Z := (t + utcOffset) mod Js.ms_per_day.

(** [date.getHours()] *)
Definition getHours (t : Z) : Z := timeOfDay t / ms_per_hour.

(** [date.getDay()]; the epoch was a Thursday. *)
Definition getDay (t : Z) : Z := ((t + utcOffset) / Js.ms_per_day + 4) mod 7.

(** [date.toLocaleDateString('en-US', { weekday: 'long' })] *)
Definition weekday (t : Z) : string := nth (Z.to_nat (getDay t)) weekdays "".

(** [date.setHours(hour, 0, 0, 0)], as the new time value. *)
Definition setHours (t hour : Z) : Z := t - timeOfDay t + hour * ms_per_hour.

(** *** [findBetterTime] *)

Record OptimalTimes : Type := mkOptimalTimes {
  bestDays : list string;
  bestHours : list Z;
  worstDays : list string;
  worstHours : list Z
}.

(** What [findBetterTime] returns when it is not [null]: a [Date], which is
    invalid when [bestHours[0]] is [undefined]. *)
Inductive Date : Type :=
| date (t : Z)
| InvalidDate.

(** The loop over [bestHours]; [nextOptimalTime] is the object it mutates. *)
Fixpoint sameDay (optimalTimes : OptimalTimes) (currentDay : string) (currentHour : Z)
         (nextOptimalTime : Z) (hours : list Z) : option Z :=
  match hours with
  | [] => None
  | hour :: rest =>
      if currentHour <? hour then
        let nextOptimalTime := setHours nextOptimalTime hour in
        if bool_decide (currentDay ∈ bestDays optimalTimes) then Some nextOptimalTime
        else sameDay optimalTimes currentDay currentHour nextOptimalTime rest
      else sameDay optimalTimes currentDay currentHour nextOptimalTime rest
  end.

(** The loop [for (let i = 1; i <= 7; i++)]. *)
Fixpoint nextDay (optimalTimes : OptimalTimes) (currentTime : Z) (days : list Z)
  : option Date :=
  match days with
  | [] => None
  | i :: rest =>
      let testDate := currentTime + i * Js.ms_per_day in
      if bool_decide (weekday testDate ∈ bestDays optimalTimes) then
        Some (match head (bestHours optimalTimes) with
              | Some hour => date (setHours testDate hour)
              | None => InvalidDate
              end)
      else nextDay optimalTimes currentTime rest
  end.

(** [findBetterTime(currentTime, optimalTimes)]; [None] is [null]. *)
Definition findBetterTime (currentTime : Z) (optimalTimes : OptimalTimes) : option Date :=
  let currentDay := weekday currentTime in
  let currentHour := getHours currentTime in
  if bool_decide (currentDay ∈ bestDays optimalTimes)
     && bool_decide (currentHour ∈ bestHours optimalTimes)
  then None
  else
    match sameDay optimalTimes currentDay currentHour currentTime (bestHours optimalTimes) with
    | Some nextOptimalTime => Some (date nextOptimalTime)
    | None => nextDay optimalTimes currentTime [1; 2; 3; 4; 5; 6; 7]
    end.

(** The time is on a best day at a best hour. *)
Definition isOptimal (optimalTimes : OptimalTimes) (t : Z) : bool :=
  bool_decide (weekday t ∈ bestDays optimalTimes)
  && bool_decide (getHours t ∈ bestHours optimalTimes).

End Zone.

(** *** [optimizePublishTimes] *)

(** The fields of the analytics that are used. *)
Record Analytics : Type := mkAnalytics {
  optimalDays : list string;
  optimalHours : list Z
}.

(** The environment of one [optimizePublishTimes] call: that of the agent,
    the time zone of the host, and whether reading the channel statistics
    goes through. *)
Record World : Type := mkWorld {
  agentWorld : Publishing.World;
  utcOffset : Z;
  channels_list : outcome unit
}.

(** [getChannelAnalytics()] *)
Definition getChannelAnalytics (W : World) : Analytics :=
  match channels_list W with
  | Ok _ => mkAnalytics ["Tuesday"; "Wednesday"; "Thursday"] [14; 15; 16; 20]
  | Throw _ => mkAnalytics ["Tuesday"; "Wednesday"; "Thursday"] [14; 15; 16]
  end.

(** [calculateOptimalTimes(analytics)] *)
Definition calculateOptimalTimes (analytics : Analytics) : OptimalTimes :=
  mkOptimalTimes (optimalDays analytics) (optimalHours analytics)
                 ["Monday"; "Friday"]
                 [0; 1; 2; 3; 4; 5; 6; 7; 8; 9; 10; 11; 22; 23].

#[local] Existing Instance Publishing.Status_eq_dec.

(** The body of the loop of [optimizePublishTimes]. *)
Definition optimizeEntry (W : World) (optimalTimes : OptimalTimes) (r : nat)
  : M Publishing.Agent unit :=
  entry ← Publishing.deref r;
  if bool_decide (Publishing.status entry = Publishing.scheduled) then
    let currentTime := Publishing.publishTime entry in
    match findBetterTime (utcOffset W) currentTime optimalTimes with
    | Some (date betterTime) =>
        if bool_decide (betterTime <> currentTime) then
          Publishing.assign r (Publishing.set_publishTime betterTime);;
          Publishing.updateScheduleEntry (agentWorld W) r
        else mret tt
    | Some InvalidDate => throw "Invalid time value"
    | None => mret tt
    end
  else mret tt.

(** [optimizePublishTimes()] *)
Definition optimizePublishTimes (W : World) : M Publishing.Agent unit :=
  let analytics := getChannelAnalytics W in
  let optimalTimes := calculateOptimalTimes analytics in
  st ← get;
  for_of (Publishing.publishQueue st) (optimizeEntry W optimalTimes).

(** The optimal times the agent works with. *)
Definition optimalTimesOf (W : World) : OptimalTimes :=
  calculateOptimalTimes (getChannelAnalytics W).

(** Optimal times whose best days are Tuesday to Thursday. *)
Definition midweek (hours : list Z) (worstDays : list string) (worstHours : list Z)
  : OptimalTimes :=
  mkOptimalTimes ["Tuesday"; "Wednesday"; "Thursday"] hours worstDays worstHours.

(** An entry with the publish time [optimizePublishTimes] gives it. *)
Definition optimized (W : World) (e : Publishing.PublishEntry) : Publishing.PublishEntry :=
  if bool_decide (Publishing.status e = Publishing.scheduled) then
    match findBetterTime (utcOffset W) (Publishing.publishTime e) (optimalTimesOf W) with
    | Some (date betterTime) => Publishing.set_publishTime betterTime e
    | _ => e
    end
  else e.

End Optimizer.

(** A host on UTC whose channel statistics can be read, at time 0. *)

Module OptimizerCases.

Definition utc : Optimizer.World :=
  Optimizer.mkWorld (Scenario.host 0 "" []) 0 (Ok tt).

End OptimizerCases.

(** ** The scheduled tasks of the daily automation *)

Module Daily.

(** What [logAutomationEvent] is given as [data]. *)
Inductive EventData : Type :=
| ContentScheduled (contentId topic : string) (scheduledFor : Z)
| PublishedCount (publishedCount : nat)
| ErrorMessage (error : string).

(** A row of [automation_events]. *)
Record Event : Type := mkEvent {
  event_type : string;
  event_status : string;
  event_data : EventData
}.

(** The agents' state and the event table. *)
Record System : Type := mkSystem {
  pipeline : list Production.ProductionItem;
  agent : Publishing.Agent;
  automation_events : list Event
}.

(** The environment of one task: that of the gate, the brief the strategy,
    script, thumbnail and SEO agents come up with one after the other (or the
    error of the first of them that throws), the environments of
    [processContent] and of the publishing agent, and whether the store
    rejects the insert of an event. *)
Record World : Type := mkWorld {
  gate : Automation.World;
  brief : outcome Production.ContentData;
  formatScriptForTTS : Production.Script -> outcome string;
  createSRTCaptions : Production.Script -> outcome string;
  studio : Production.World;
  host : Publishing.World;
  event_rejected : Event -> option string
}.

Definition onPipeline {A} (m : M (list Production.ProductionItem) A) : M System A := fun s =>
  let '(o, pipeline') := m (pipeline s) in
  (o, mkSystem pipeline' (agent s) (automation_events s)).

Definition onAgent {A} (m : M Publishing.Agent A) : M System A := fun s =>
  let '(o, agent') := m (agent s) in
  (o, mkSystem (pipeline s) agent' (automation_events s)).

Section Tasks.

Variable W : World.

(** [logAutomationEvent(eventType, status, data)] *)
Definition logAutomationEvent (eventType status : string) (data : EventData)
  : M System unit := fun s =>
  let event := mkEvent eventType status data in
  match event_rejected W event with
  | Some message => (Throw message, s)
  | None => (Ok tt, mkSystem (pipeline s) (agent s) (automation_events s ++ [event]))
  end.

(** [runDailyContentGeneration()]; [sendFailureNotification] only logs. *)
Definition runDailyContentGeneration : M System unit :=
  try_catch
    (s ← get;
     let shouldGenerate := Automation.shouldGenerateContentToday (gate W) (agent s) in
     if negb shouldGenerate then mret tt
     else
       contentData ← lift (brief W);
       productionData ←
         onPipeline (Production.processContent (formatScriptForTTS W) (createSRTCaptions W)
                                               (studio W) contentData);
       onAgent (Publishing.scheduleContent (host W) productionData);;
       logAutomationEvent "daily_content_generation" "success"
         (ContentScheduled (Production.item_id productionData)
                           (Production.topic (Production.cd_strategy contentData))
                           (Production.scheduledPublishTime productionData)))
    (fun message =>
       logAutomationEvent "daily_content_generation" "error" (ErrorMessage message)).

(** [processPublishQueue()] of the automation. *)
Definition processPublishQueue : M System unit :=
  try_catch
    (published ← onAgent (Publishing.processPublishQueue (host W));
     if bool_decide (0 < published)%nat
     then logAutomationEvent "queue_processing" "success" (PublishedCount published)
     else mret tt)
    (fun message => logAutomationEvent "queue_processing" "error" (ErrorMessage message)).

End Tasks.

(** The events a task has added. *)
Definition recorded (s s' : System) : list Event :=
  drop (length (automation_events s)) (automation_events s').

(** A day on which every agent and the store work, the queue being as the
    gate sees it: the brief of [Scenario], produced at time 1000 and
    scheduled as [schedule_1]. *)
Definition goodDay : World :=
  mkWorld (Scenario.morning "3") (Ok Scenario.brief)
          Scenario.formatScriptForTTS Scenario.createSRTCaptions Scenario.allWell
          (Scenario.host 1000 "schedule_1" []) (fun _ => None).

(** A system with nothing in it. *)
Definition empty : System := mkSystem [] Publishing.initial [].

(** A drain at time 100 during which the video host refuses both uploads. *)
Definition hostRefuses : World :=
  mkWorld (Scenario.morning "3") (Ok Scenario.brief)
          Scenario.formatScriptForTTS Scenario.createSRTCaptions Scenario.allWell
          (Scenario.host 100 "" ["prod_A"; "prod_B"]) (fun _ => None).

End Daily.

(** ** Timelines read back from the store *)

Module Stored.

(** A timeline object as [getProductionPipeline] parses it
    ([JSON.parse(row.timeline || '{}')]): a key is absent, or holds [null]
    ([Some None]) or a time. *)
Definition Timeline : Type := gmap string (option Z).

Definition milestones : list string :=
  ["scriptReady"; "thumbnailReady"; "audioGenerated"; "videoGenerated";
   "captionsGenerated"; "readyForUpload"].

(** [productionData.timeline[milestone] !== null] *)
Definition reached (timeline : Timeline) (milestone : string) : bool :=
  bool_decide (timeline !! milestone <> Some None).

(** [calculateProgress(productionData)] on the timeline of [productionData]. *)
Definition calculateProgress (timeline : Timeline) : Z :=
  let completed := Z.of_nat (length (List.filter (reached timeline) milestones)) in
  (200 * completed + 6) / 12.

(** The object that a timeline of [processContent] is. *)
Definition timelineOf (l : Production.Timeline) : Timeline :=
  {[ "created" := Production.created l;
     "scriptReady" := Production.scriptReady l;
     "thumbnailReady" := Production.thumbnailReady l;
     "audioGenerated" := Production.audioGenerated l;
     "videoGenerated" := Production.videoGenerated l;
     "captionsGenerated" := Production.captionsGenerated l;
     "readyForUpload" := Production.readyForUpload l ]}.

End Stored.

(** * Properties *)

(** ** Priority *)

Lemma less_hours (d c : Z) :
  Js.less (Js.div_by (Js.Finite (inject_Z d)) Js.ms_per_hour) c
  = (d <? c * 3600000).
Proof.
  unfold Js.less, Js.div_by, Js.ms_per_hour, Qle_bool; simpl.
  change (Z.pos (1 * 3600000)) with 3600000.
  destruct (Z.leb_spec (c * 3600000) (d * 1 * 1)), (Z.ltb_spec d (c * 3600000));
    simpl; lia.
Qed.

Lemma views_bonus_total (v : Js.number) :
  Production.views_bonus v
    (if Js.greater v 100000 then 30
     else if Js.greater v 50000 then 20
     else if Js.greater v 10000 then 10 else 0).
Proof.
  destruct (Js.greater v 100000) eqn:H1; [by constructor|].
  destruct (Js.greater v 50000) eqn:H2; [by constructor|].
  destruct (Js.greater v 10000) eqn:H3; by constructor.
Qed.

Lemma competitor_bonus_total (c : option (list string)) :
  Production.competitor_bonus c
    (match c with
     | Some insights => if bool_decide (0 < length insights)%nat then 10 else 0
     | None => 0
     end).
Proof.
  destruct c as [[|x xs]|]; simpl; constructor.
Qed.

Lemma time_bonus_total (now : Z) (s : Production.Strategy) :
  let hours := Js.div_by (Js.date_diff (Production.bestPublishTime s) (Some now))
                         Js.ms_per_hour in
  Production.time_bonus (Production.away now s)
    (if Js.less hours 24 then 20 else if Js.less hours 48 then 10 else 0).
Proof.
  unfold Production.away, Js.date_diff.
  destruct (Production.bestPublishTime s) as [t|]; cbn [fmap option_fmap option_map].
  - rewrite !less_hours.
    destruct (Z.ltb_spec (t - now) (24 * 3600000)); [by constructor|].
    destruct (Z.ltb_spec (t - now) (48 * 3600000)); by constructor.
  - constructor.
Qed.

(** C8. [calculatePriority] is base 50 plus the views bonus (+30/+20/+10 above
    100k/50k/10k), the competitor bonus (+10 when competitor data is present)
    and the time bonus (+20/+10 when the target is less than 24h/48h away),
    capped at 100; the result lies in [0,100] whatever the inputs; and for
    200000 estimated views, a target 12 hours ahead and no competitor data it
    is 100. *)
Theorem calculatePriority_bonuses_and_range :
  (forall (now : Z) (s : Production.Strategy),
      exists vb cb tb : Z,
        Production.views_bonus (Production.estimatedViews s) vb /\
        Production.competitor_bonus (Production.competitorAnalysis s) cb /\
        Production.time_bonus (Production.away now s) tb /\
        Production.calculatePriority now s = Z.min 100 (50 + vb + cb + tb) /\
        0 <= Production.calculatePriority now s <= 100) /\
  (forall (now : Z) (topic : string),
      Production.calculatePriority now
        (Production.mkStrategy topic (Js.Finite (inject_Z 200000))
                               (Some (now + 12 * 3600000)) None) = 100 /\
      Production.calculatePriority now
        (Production.mkStrategy topic (Js.Finite (inject_Z 200000))
                               (Some (now + 12 * 3600000)) (Some [])) = 100).
Proof.
  split.
  - intros now s.
    eexists _, _, _.
    split; [apply views_bonus_total|].
    split; [apply competitor_bonus_total|].
    split; [apply (time_bonus_total now s)|].
    unfold Production.calculatePriority.
    set (v := Production.estimatedViews s).
    set (h := Js.div_by _ _).
    destruct (Js.greater v 100000), (Js.greater v 50000), (Js.greater v 10000),
      (Production.competitorAnalysis s) as [insights|];
      try destruct (bool_decide (0 < length insights)%nat);
      destruct (Js.less h 24), (Js.less h 48); simpl; lia.
  - intros now topic.
    unfold Production.calculatePriority, Js.date_diff;
      cbn [Production.bestPublishTime Production.estimatedViews
           Production.competitorAnalysis].
    rewrite !less_hours.
    replace (now + 12 * 3600000 - now) with 43200000 by lia.
    split; reflexivity.
Qed.


(** ** The stable sort of the queue *)

Section SortBy.

Context {A : Type} (key : A -> Z).

Lemma insert_by_Permutation (x : A) (l : list A) :
  Permutation (Publishing.insert_by key x l) (x :: l).
Proof.
  induction l as [|y l IH]; simpl; [reflexivity|].
  destruct (key y <? key x); [|reflexivity].
  rewrite IH. apply perm_swap.
Qed.

Lemma sort_by_Permutation (l : list A) : Permutation (Publishing.sort_by key l) l.
Proof.
  induction l as [|x l IH]; simpl; [reflexivity|].
  rewrite insert_by_Permutation. by constructor.
Qed.

Lemma insert_by_Sorted (x : A) (l : list A) :
  Sorted Z.le (map key l) -> Sorted Z.le (map key (Publishing.insert_by key x l)).
Proof.
  induction l as [|y l IH]; simpl; intros Hs.
  - repeat constructor.
  - destruct (Z.ltb_spec (key y) (key x)) as [Hlt|Hge]; simpl.
    + inversion Hs as [|? ? Hs' Hhd]; subst.
      constructor; [by apply IH|].
      destruct l as [|z l]; simpl in *.
      * constructor; lia.
      * destruct (Z.ltb_spec (key z) (key x)); simpl; constructor;
          [by inversion Hhd | lia].
    + constructor; [done|]. constructor; lia.
Qed.

Lemma sort_by_Sorted (l : list A) : Sorted Z.le (map key (Publishing.sort_by key l)).
Proof.
  induction l as [|x l IH]; simpl; [constructor|]. by apply insert_by_Sorted.
Qed.

(** Sorting an already sorted array changes nothing: ties keep their order. *)
Lemma insert_by_sorted_cons (x : A) (l : list A) :
  Sorted Z.le (map key (x :: l)) -> Publishing.insert_by key x l = x :: l.
Proof.
  destruct l as [|y l]; simpl; [done|].
  intros Hs. inversion Hs as [|? ? _ Hhd]; subst. inversion Hhd; subst.
  destruct (Z.ltb_spec (key y) (key x)); [lia|done].
Qed.

Lemma sort_by_sorted_id (l : list A) :
  Sorted Z.le (map key l) -> Publishing.sort_by key l = l.
Proof.
  induction l as [|x l IH]; simpl; [done|].
  intros Hs. rewrite IH by (by inversion Hs).
  by apply insert_by_sorted_cons.
Qed.

Lemma filter_Sorted (P : A -> bool) (l : list A) :
  Sorted Z.le (map key l) -> Sorted Z.le (map key (List.filter P l)).
Proof.
  intros Hs. apply StronglySorted_Sorted.
  apply Sorted_StronglySorted in Hs; [|intros ???; lia].
  induction l as [|x l IH]; simpl in *; [constructor|].
  inversion Hs as [|? ? Hs' Hall]; subst.
  destruct (P x); simpl; [|by apply IH].
  constructor; [by apply IH|].
  rewrite List.Forall_forall in *. intros k Hk.
  apply Hall. rewrite in_map_iff in *. destruct Hk as (y & <- & Hy).
  exists y. split; [done|]. by apply filter_In in Hy as [? _].
Qed.

End SortBy.

Lemma insert_by_ext {A} (key key' : A -> Z) (x : A) (l : list A) :
  (forall y, In y (x :: l) -> key y = key' y) ->
  Publishing.insert_by key x l = Publishing.insert_by key' x l.
Proof.
  induction l as [|y l IH]; simpl; [done|]. intros Hk.
  rewrite (Hk x), (Hk y) by auto.
  destruct (key' y <? key' x); [|done].
  f_equal. apply IH. intros z [->|Hz]; apply Hk; auto.
Qed.

Lemma sort_by_ext {A} (key key' : A -> Z) (l : list A) :
  (forall x, In x l -> key x = key' x) ->
  Publishing.sort_by key l = Publishing.sort_by key' l.
Proof.
  induction l as [|x l IH]; simpl; [done|]. intros Hk.
  rewrite IH by (intros; apply Hk; by right).
  apply insert_by_ext. intros y [->|Hy]; apply Hk; [by left|right].
  eapply Permutation_in; [apply sort_by_Permutation|done].
Qed.

(** ** Scheduling *)

Ltac run_M :=
  unfold mbind, Js.M_bind, mret, Js.M_ret, Js.get, Js.modify, Js.lift,
    Js.throw, Js.try_catch; simpl.

Lemma fresh_unallocated (st : Publishing.Agent) :
  Publishing.heap st !! fresh (dom (Publishing.heap st)) = None.
Proof. apply not_elem_of_dom, is_fresh. Qed.

(** What a call of [scheduleContent] that the store accepts does. *)
Lemma scheduleContent_run (W : Publishing.World) (item : Production.ProductionItem)
      (st : Publishing.Agent) :
  let r := fresh (dom (Publishing.heap st)) in
  let id := Publishing.generateId W in
  let e := Publishing.set_id id (Publishing.newScheduleEntry W item) in
  Publishing.insert_rejected W e = None ->
  Publishing.publish_schedule st !! id = None ->
  Publishing.scheduleContent W item st =
    (Ok r,
     Publishing.mkAgent
       (<[r := e]> (Publishing.heap st))
       (Publishing.sort_by
          (Publishing.timeOf (Publishing.with_heap <[r := e]> st))
          (Publishing.publishQueue st ++ [r]))
       (<[id := Publishing.mkRow (Publishing.productionId e) (Publishing.title e)
                  (Publishing.publishTime e) (Publishing.status e) (Publishing.priority e)
                  (Publishing.metadata e) None None None None]>
          (Publishing.publish_schedule st))
       (Publishing.log st)).
Proof.
  intros r id e Hins Hfree.
  unfold Publishing.scheduleContent, Publishing.saveScheduleEntry, Publishing.alloc,
    Publishing.assign, Publishing.deref.
  run_M.
  rewrite alter_insert_eq, lookup_insert_eq.
  fold r id e. rewrite Hins. run_M. rewrite Hfree. run_M.
  unfold Publishing.with_table, Publishing.with_heap, Publishing.with_queue; simpl.
  rewrite alter_insert_eq. fold e.
  do 2 f_equal.
  apply sort_by_ext. intros x _. unfold Publishing.timeOf; simpl.
  destruct (decide (r = x)) as [->|Hne].
  - by rewrite !lookup_insert_eq.
  - by rewrite !lookup_insert_ne.
Qed.

Lemma filter_length_Permutation {A} (P : A -> bool) (l l' : list A) :
  Permutation l l' -> length (List.filter P l) = length (List.filter P l').
Proof.
  induction 1 as [|x l l' _ IH|x y l|l l' l'' _ IH _ IH']; simpl.
  - done.
  - destruct (P x); simpl; by rewrite IH.
  - by destruct (P x), (P y).
  - by rewrite IH.
Qed.

Lemma filter_ext_in {A} (P Q : A -> bool) (l : list A) :
  (forall x, In x l -> P x = Q x) -> List.filter P l = List.filter Q l.
Proof.
  induction l as [|x l IH]; simpl; [done|]. intros H.
  rewrite (H x) by auto. rewrite IH by auto. done.
Qed.

(** C3, as stated, does not hold: an item that is still ['processing'] is
    scheduled like any other. *)
Lemma scheduleContent_accepts_unfinished_item :
  ~ (forall (W : Publishing.World) (item : Production.ProductionItem)
            (st : Publishing.Agent),
        Production.status item <> Production.ready ->
        exists message : string,
          Publishing.scheduleContent W item st = (Throw message, st)).
Proof.
  intros H.
  destruct (H (Scenario.host 0 "schedule_1" [])
              (Scenario.item "prod_A" 10 Production.processing)
              Publishing.initial) as [message Hm]; [discriminate|].
  rewrite scheduleContent_run in Hm by done.
  discriminate.
Qed.

(** C3, amended. [scheduleContent] does not look at the status of the
    production item: for every item, whatever its status, a call that the
    store accepts returns a new entry with status ['scheduled'], adds it to the
    in-memory queue and persists its row. *)
Theorem scheduleContent_ignores_status
        (W : Publishing.World) (item : Production.ProductionItem) (st : Publishing.Agent) :
  Publishing.insert_rejected W
    (Publishing.set_id (Publishing.generateId W) (Publishing.newScheduleEntry W item)) = None ->
  Publishing.publish_schedule st !! Publishing.generateId W = None ->
  exists (r : nat) (st' : Publishing.Agent) (e : Publishing.PublishEntry)
         (row : Publishing.ScheduleRow),
    Publishing.scheduleContent W item st = (Ok r, st') /\
    Publishing.heap st !! r = None /\
    Publishing.heap st' !! r = Some e /\
    Publishing.status e = Publishing.scheduled /\
    Publishing.productionId e = Production.item_id item /\
    Publishing.publishTime e = Production.scheduledPublishTime item /\
    Publishing.entry_id e = Some (Publishing.generateId W) /\
    Permutation (Publishing.publishQueue st') (r :: Publishing.publishQueue st) /\
    Publishing.publish_schedule st' !! Publishing.generateId W = Some row /\
    Publishing.row_status row = Publishing.scheduled /\
    Publishing.row_production_id row = Production.item_id item /\
    forall s : Production.Status,
      Publishing.scheduleContent W (Production.with_status s item) st
      = Publishing.scheduleContent W item st.
Proof.
  intros Hins Hfree.
  eexists _, _, _, _.
  split; [by apply scheduleContent_run|]. simpl.
  split; [apply fresh_unallocated|].
  split; [apply lookup_insert_eq|].
  do 4 (split; [reflexivity|]).
  split.
  { rewrite sort_by_Permutation. symmetry. apply Permutation_cons_append. }
  split; [apply lookup_insert_eq|].
  do 2 (split; [reflexivity|]).
  reflexivity.
Qed.

Lemma scheduleContent_ignores_status_witness :
  exists (r : nat) (st' : Publishing.Agent),
    Publishing.scheduleContent (Scenario.host 0 "schedule_1" [])
      (Scenario.item "prod_A" 10 Production.processing) Publishing.initial = (Ok r, st') /\
    Publishing.publishQueue st' = [r].
Proof.
  destruct (scheduleContent_ignores_status
              (Scenario.host 0 "schedule_1" [])
              (Scenario.item "prod_A" 10 Production.processing)
              Publishing.initial)
    as (r & st' & e & row & Hrun & _ & _ & _ & _ & _ & _ & Hperm & _);
    [reflexivity | reflexivity |].
  exists r, st'. split; [exact Hrun|].
  apply Permutation_sym, Permutation_length_1_inv in Hperm. exact Hperm.
Defined.

(** ** At most one scheduled entry per production? *)

(** C4, as stated, does not hold: handing the same production over twice
    leaves two entries with status ['scheduled'] for it in the queue. *)
Lemma two_scheduled_entries_for_one_production :
  ~ (forall (st : Publishing.Agent) (contentId : string),
        Publishing.reachable st -> (Publishing.scheduledFor st contentId <= 1)%nat).
Proof.
  intros H.
  assert (Hreach : Publishing.reachable Scenario.queuedTwice)
    by (do 2 apply Publishing.reach_schedule; apply Publishing.reach_initial).
  specialize (H _ "prod_A" Hreach).
  vm_compute in H. lia.
Qed.

(** C4, amended. [scheduleContent] rejects nothing: every call that the
    store accepts adds one more entry with status ['scheduled'] for the
    production of the item, whether or not the queue already holds one, and
    leaves the count of every other production as it was. *)
Theorem scheduleContent_adds_scheduled_entry
        (W : Publishing.World) (item : Production.ProductionItem) (st : Publishing.Agent) :
  Publishing.allocated st ->
  Publishing.insert_rejected W
    (Publishing.set_id (Publishing.generateId W) (Publishing.newScheduleEntry W item)) = None ->
  Publishing.publish_schedule st !! Publishing.generateId W = None ->
  exists (r : nat) (st' : Publishing.Agent),
    Publishing.scheduleContent W item st = (Ok r, st') /\
    Publishing.scheduledFor st' (Production.item_id item)
    = S (Publishing.scheduledFor st (Production.item_id item)) /\
    forall other : string,
      other <> Production.item_id item ->
      Publishing.scheduledFor st' other = Publishing.scheduledFor st other.
Proof.
  intros Halloc Hins Hfree.
  eexists _, _. split; [by apply scheduleContent_run|].
  set (r := fresh (dom (Publishing.heap st))).
  set (e := Publishing.set_id _ _).
  assert (Hold : forall (P : Publishing.PublishEntry -> bool),
             List.filter (fun x => from_option P false (<[r:=e]> (Publishing.heap st) !! x))
                         (Publishing.publishQueue st)
             = List.filter (fun x => from_option P false (Publishing.heap st !! x))
                           (Publishing.publishQueue st)).
  { intros P. apply filter_ext_in. intros x Hx.
    rewrite lookup_insert_ne; [done|]. intros Heq.
    unfold Publishing.allocated in Halloc. rewrite List.Forall_forall in Halloc.
    apply Halloc in Hx. rewrite <- Heq in Hx. unfold r in Hx.
    rewrite fresh_unallocated in Hx. by destruct Hx. }
  unfold Publishing.scheduledFor; simpl.
  split; [|intros other Hother].
  - erewrite filter_length_Permutation by apply sort_by_Permutation.
    rewrite List.filter_app, Hold, List.length_app. simpl.
    rewrite lookup_insert_eq. simpl.
    rewrite bool_decide_true by done. simpl. lia.
  - erewrite filter_length_Permutation by apply sort_by_Permutation.
    rewrite List.filter_app, Hold, List.length_app. simpl.
    rewrite lookup_insert_eq. simpl.
    rewrite bool_decide_false by done. simpl. lia.
Qed.

Lemma scheduleContent_adds_scheduled_entry_witness :
  exists (r : nat) (st' : Publishing.Agent),
    Publishing.scheduleContent (Scenario.host 0 "schedule_2" [])
      (Scenario.item "prod_A" 10 Production.ready)
      (Scenario.schedule "schedule_1" "prod_A" 10 Production.ready Publishing.initial)
    = (Ok r, st') /\
    Publishing.scheduledFor st' "prod_A" = 2%nat.
Proof.
  destruct (scheduleContent_adds_scheduled_entry
              (Scenario.host 0 "schedule_2" [])
              (Scenario.item "prod_A" 10 Production.ready)
              (Scenario.schedule "schedule_1" "prod_A" 10 Production.ready
                                 Publishing.initial))
    as (r & st' & Hrun & Hcount & _).
  - repeat constructor. vm_compute. eauto.
  - reflexivity.
  - vm_compute. reflexivity.
  - exists r, st'. split; [exact Hrun|].
    etransitivity; [exact Hcount|]. vm_compute. reflexivity.
Defined.

(** ** Publishing one entry *)

Lemma find_Some (st : Publishing.Agent) (contentId : string) (q : list nat) (r : nat) :
  Publishing.find st contentId q = Some r ->
  In r q /\
  exists e, Publishing.heap st !! r = Some e /\ Publishing.matches contentId e = true.
Proof.
  induction q as [|x q IH]; simpl; [done|].
  destruct (Publishing.heap st !! x) as [e|] eqn:Hx; simpl.
  - destruct (Publishing.matches contentId e) eqn:Hm.
    + intros [= <-]. split; [by left|]. eauto.
    + intros H. apply IH in H as [? ?]. split; [by right|done].
  - intros H. apply IH in H as [? ?]. split; [by right|done].
Qed.

(** What a successful [publishContent] did. *)
Lemma publishContent_Ok (W : Publishing.World) (contentId : string)
      (st st' : Publishing.Agent) (r : nat) :
  Publishing.publishContent W contentId st = (Ok r, st') ->
  Publishing.find st contentId (Publishing.publishQueue st) = Some r /\
  exists (e : Publishing.PublishEntry) (videoId : string),
    Publishing.heap st !! r = Some e /\
    Publishing.uploadToYouTube W e = Ok videoId /\
    Publishing.heap st'
    = <[r := Publishing.set_published (Publishing.clock W) videoId e]> (Publishing.heap st) /\
    Publishing.publishQueue st'
    = List.filter (Publishing.otherId st' (Publishing.entry_id e)) (Publishing.publishQueue st) /\
    Publishing.log st' = Publishing.log st.
Proof.
  unfold Publishing.publishContent. run_M.
  destruct (Publishing.find st contentId (Publishing.publishQueue st)) as [r0|] eqn:Hfind;
    [|discriminate].
  pose proof (find_Some _ _ _ _ Hfind) as (_ & e & He & _).
  unfold Publishing.deref at 1. rewrite He.
  destruct (Publishing.uploadToYouTube W e) as [videoId|] eqn:Hup; [|discriminate].
  unfold Publishing.assign, Publishing.updateScheduleEntry, Publishing.deref. run_M.
  rewrite lookup_alter_eq, He. simpl.
  destruct (Publishing.update_rejected W _); [discriminate|].
  destruct (Publishing.entry_id e) as [id|] eqn:Hid; run_M;
    intros [= <- <-]; (split; [done|]); exists e, videoId; simpl;
    rewrite (alter_alt_Some _ _ _ _ He); rewrite ?Hid; done.
Qed.

Lemma NoDup_map_inj {A B} (f : A -> B) (l : list A) (x y : A) :
  NoDup (map f l) -> In x l -> In y l -> f x = f y -> x = y.
Proof.
  induction l as [|z l IH]; simpl; [done|].
  rewrite NoDup_cons. intros [Hz Hnd] [->|Hx] [->|Hy] Heq; auto.
  - exfalso. apply Hz. rewrite Heq. apply list_elem_of_In. by apply in_map.
  - exfalso. apply Hz. rewrite <- Heq. apply list_elem_of_In. by apply in_map.
Qed.

Lemma NoDup_map_NoDup {A B} (f : A -> B) (l : list A) : NoDup (map f l) -> NoDup l.
Proof.
  induction l as [|z l IH]; simpl; [constructor|].
  rewrite !NoDup_cons. intros [Hz Hnd]. split; [|auto].
  intros Hin. apply Hz. apply list_elem_of_In, in_map. by apply list_elem_of_In.
Qed.

Lemma filter_out_Permutation (l : list nat) (r : nat) :
  NoDup l -> In r l ->
  Permutation l (r :: List.filter (fun x => bool_decide (x <> r)) l).
Proof.
  induction l as [|z l IH]; simpl; [done|].
  rewrite NoDup_cons. intros [Hz Hnd] [->|Hin].
  - rewrite bool_decide_false by (intros H; by apply H).
    constructor.
    rewrite (filter_ext_in _ (fun _ => true)).
    + clear. induction l; simpl; by constructor.
    + intros x Hx. apply bool_decide_true. intros ->.
      by apply Hz, list_elem_of_In.
  - rewrite bool_decide_true.
    + rewrite perm_swap. constructor. by apply IH.
    + intros ->. by apply Hz, list_elem_of_In.
Qed.

(** C5, as stated, does not hold for every queue state: [publishContent]
    removes the entries whose [id] equals that of the published entry. In the
    reachable queue of [Cases.sameId] two entries share the id, and publishing
    the first one also drops the second from the queue. *)
Lemma publishContent_drops_entries_sharing_the_id :
  ~ (forall (W : Publishing.World) (contentId : string) (st st' : Publishing.Agent) (r : nat),
        Publishing.reachable st ->
        Publishing.publishContent W contentId st = (Ok r, st') ->
        forall x, In x (Publishing.publishQueue st) -> x <> r ->
                  In x (Publishing.publishQueue st')).
Proof.
  intros H.
  assert (Hreach : Publishing.reachable Cases.sameId)
    by (do 2 apply Publishing.reach_schedule; apply Publishing.reach_initial).
  assert (Hrun :
    Publishing.publishContent (Scenario.host 40 "" []) "prod_A" Cases.sameId
    = (Ok 0%nat,
       Publishing.after (Publishing.publishContent (Scenario.host 40 "" []) "prod_A")
                        Cases.sameId))
    by (vm_compute; reflexivity).
  specialize (H _ _ _ _ _ Hreach Hrun 1%nat).
  assert (Hqueue : Publishing.publishQueue Cases.sameId = [0%nat; 1%nat])
    by (vm_compute; reflexivity).
  assert (Hafter :
    Publishing.publishQueue
      (Publishing.after (Publishing.publishContent (Scenario.host 40 "" []) "prod_A")
                        Cases.sameId) = [])
    by (vm_compute; reflexivity).
  rewrite Hqueue, Hafter in H. apply H; [right; by left|discriminate].
Qed.

(** C5, amended. When [publishContent] succeeds on an entry of a queue in
    which no two entries share an id, the entry gets status ['published'],
    the id that [uploadToYouTube] returned for it, the url made from that id,
    and [publishedAt]; exactly that entry leaves the in-memory queue; every
    other entry stays in the queue, in the same order, and no other object is
    modified. *)
Theorem publishContent_removes_exactly_the_published_entry
        (W : Publishing.World) (contentId : string) (st st' : Publishing.Agent) (r : nat) :
  Publishing.distinctIds st ->
  Publishing.publishContent W contentId st = (Ok r, st') ->
  exists (e e' : Publishing.PublishEntry) (videoId : string),
    In r (Publishing.publishQueue st) /\
    Publishing.heap st !! r = Some e /\
    Publishing.matches contentId e = true /\
    Publishing.uploadToYouTube W e = Ok videoId /\
    Publishing.heap st' !! r = Some e' /\
    e' = Publishing.set_published (Publishing.clock W) videoId e /\
    Publishing.status e' = Publishing.published /\
    Publishing.youtubeId e' = Some videoId /\
    Publishing.youtubeUrl e' = Some ("https://www.youtube.com/watch?v=" +:+ videoId) /\
    Publishing.publishedAt e' = Some (Publishing.clock W) /\
    Publishing.publishQueue st'
    = List.filter (fun x => bool_decide (x <> r)) (Publishing.publishQueue st) /\
    Permutation (Publishing.publishQueue st) (r :: Publishing.publishQueue st') /\
    ~ In r (Publishing.publishQueue st') /\
    (forall x, In x (Publishing.publishQueue st) -> x <> r ->
               In x (Publishing.publishQueue st')) /\
    (forall x, x <> r -> Publishing.heap st' !! x = Publishing.heap st !! x).
Proof.
  intros Hids Hrun.
  apply publishContent_Ok in Hrun
    as (Hfind & e & videoId & He & Hup & Hheap & Hqueue & Hlog).
  apply find_Some in Hfind as (Hin & e0 & He0 & Hmatch).
  assert (e0 = e) as -> by congruence.
  assert (Hfilter :
    Publishing.publishQueue st'
    = List.filter (fun x => bool_decide (x <> r)) (Publishing.publishQueue st)).
  { rewrite Hqueue. apply filter_ext_in. intros x Hx.
    unfold Publishing.otherId. rewrite Hheap.
    destruct (decide (x = r)) as [->|Hne].
    - rewrite lookup_insert_eq. simpl.
      rewrite bool_decide_false by (intros H; by apply H).
      by rewrite bool_decide_false by (intros H; by apply H).
    - rewrite lookup_insert_ne by done.
      rewrite (bool_decide_true (x <> r)) by done.
      apply bool_decide_true. intros Heq. apply Hne.
      apply (NoDup_map_inj _ _ _ _ Hids Hx Hin).
      by rewrite Heq, He. }
  exists e, (Publishing.set_published (Publishing.clock W) videoId e), videoId.
  split; [done|]. split; [done|]. split; [done|]. split; [done|].
  split; [by rewrite Hheap, lookup_insert_eq|].
  do 5 (split; [reflexivity|]).
  split; [done|].
  split.
  { rewrite Hfilter. apply filter_out_Permutation; [|done].
    by apply NoDup_map_NoDup in Hids. }
  split.
  { rewrite Hfilter. intros Hr. apply filter_In in Hr as [_ Hr].
    apply bool_decide_eq_true in Hr. by apply Hr. }
  split.
  { intros x Hx Hne. rewrite Hfilter. apply filter_In. split; [done|].
    by apply bool_decide_true. }
  intros x Hne. by rewrite Hheap, lookup_insert_ne.
Qed.

Lemma publishContent_removes_exactly_the_published_entry_witness :
  Publishing.publishContent (Scenario.host 40 "" []) "prod_A" Scenario.twoQueued
  = (Ok 0%nat,
     Publishing.after (Publishing.publishContent (Scenario.host 40 "" []) "prod_A")
                      Scenario.twoQueued) /\
  Permutation
    (Publishing.publishQueue Scenario.twoQueued)
    (0%nat :: Publishing.publishQueue
                (Publishing.after (Publishing.publishContent (Scenario.host 40 "" []) "prod_A")
                                  Scenario.twoQueued)).
Proof.
  set (W := Scenario.host 40 "" []).
  set (st' := Publishing.after _ _).
  assert (Hrun : Publishing.publishContent W "prod_A" Scenario.twoQueued = (Ok 0%nat, st'))
    by (vm_compute; reflexivity).
  assert (Hids : Publishing.distinctIds Scenario.twoQueued)
    by (apply (bool_decide_eq_true_1 _); vm_compute; reflexivity).
  split; [exact Hrun|].
  destruct (publishContent_removes_exactly_the_published_entry
              W "prod_A" Scenario.twoQueued st' 0%nat Hids Hrun)
    as (e & e' & videoId & _ & _ & _ & _ & _ & _ & _ & _ & _ & _ & _ & Hperm & _).
  exact Hperm.
Defined.

(** ** Draining the queue *)

Lemma keeps_objects_refl st : Publishing.keeps_objects st st.
Proof. by intros x. Qed.

Lemma keeps_objects_trans st1 st2 st3 :
  Publishing.keeps_objects st1 st2 -> Publishing.keeps_objects st2 st3 -> Publishing.keeps_objects st1 st3.
Proof. intros H1 H2 x Hx. by apply H2, H1. Qed.

Lemma alter_is_Some (f : Publishing.PublishEntry -> Publishing.PublishEntry)
      (h : gmap nat Publishing.PublishEntry) (r x : nat) :
  is_Some (h !! x) -> is_Some (alter f r h !! x).
Proof.
  intros [e He]. destruct (decide (r = x)) as [->|Hne].
  - rewrite lookup_alter_eq, He. by eexists.
  - rewrite lookup_alter_ne by done. by eexists.
Qed.

Lemma updateScheduleEntry_frame (W : Publishing.World) (r : nat)
      (st st' : Publishing.Agent) (o : outcome unit) :
  Publishing.updateScheduleEntry W r st = (o, st') ->
  Publishing.heap st' = Publishing.heap st /\
  Publishing.publishQueue st' = Publishing.publishQueue st /\
  Publishing.log st' = Publishing.log st.
Proof.
  unfold Publishing.updateScheduleEntry, Publishing.deref. run_M.
  destruct (Publishing.heap st !! r) as [e|]; [|by intros [= <- <-]].
  destruct (Publishing.update_rejected W e); run_M; [by intros [= <- <-]|].
  destruct (Publishing.entry_id e); run_M; by intros [= <- <-].
Qed.

Lemma publishContent_frame (W : Publishing.World) (contentId : string)
      (st st' : Publishing.Agent) (o : outcome nat) :
  Publishing.publishContent W contentId st = (o, st') ->
  Publishing.keeps_objects st st' /\
  Publishing.log st' = Publishing.log st /\
  incl (Publishing.publishQueue st') (Publishing.publishQueue st).
Proof.
  unfold Publishing.publishContent. run_M.
  destruct (Publishing.find st contentId (Publishing.publishQueue st)) as [r|];
    [|intros [= <- <-]; split; [apply keeps_objects_refl|split; [done|apply incl_refl]]].
  unfold Publishing.deref at 1.
  destruct (Publishing.heap st !! r) as [e|];
    [|intros [= <- <-]; split; [apply keeps_objects_refl|split; [done|apply incl_refl]]].
  destruct (Publishing.uploadToYouTube W e) as [videoId|];
    [|intros [= <- <-]; split; [apply keeps_objects_refl|split; [done|apply incl_refl]]].
  unfold Publishing.assign. run_M.
  destruct (Publishing.updateScheduleEntry W r _) as [[[]|m] st1] eqn:Hupd;
    apply updateScheduleEntry_frame in Hupd as (Hh & Hq & Hl); simpl in *;
    intros [= <- <-]; simpl; rewrite ?Hl, Hq; (split; [|split; [done|]]).
  - intros x Hx; unfold Publishing.with_queue; simpl; rewrite Hh;
      by apply alter_is_Some.
  - apply incl_filter.
  - intros x Hx; rewrite Hh; by apply alter_is_Some.
  - apply incl_refl.
Qed.

Lemma autoPublish_frame (W : Publishing.World) (r : nat)
      (st st' : Publishing.Agent) (o : outcome unit) :
  Publishing.autoPublish W r st = (o, st') ->
  Publishing.keeps_objects st st' /\
  Publishing.log st'
  = Publishing.log st ++ (if o is Ok _ then [Publishing.AutoPublished r] else []) /\
  incl (Publishing.publishQueue st') (Publishing.publishQueue st).
Proof.
  unfold Publishing.autoPublish, Publishing.deref. run_M.
  destruct (Publishing.heap st !! r) as [e|];
    [|intros [= <- <-]; split; [apply keeps_objects_refl|];
      split; [by rewrite app_nil_r|apply incl_refl]].
  destruct (Publishing.publishContent W (Publishing.productionId e) st)
    as [[r'|m] st1] eqn:Hpub;
    apply publishContent_frame in Hpub as (Hk & Hl & Hq);
    intros [= <- <-]; simpl; rewrite Hl, ?app_nil_r; done.
Qed.

Lemma markFailed_frame (W : Publishing.World) (r : nat) (message : string)
      (st st' : Publishing.Agent) (o : outcome unit) :
  Publishing.markFailed W r message st = (o, st') ->
  Publishing.keeps_objects st st' /\
  Publishing.publishQueue st' = Publishing.publishQueue st.
Proof.
  unfold Publishing.markFailed, Publishing.assign. run_M.
  destruct (Publishing.updateScheduleEntry W r _) as [o1 st1] eqn:Hupd.
  apply updateScheduleEntry_frame in Hupd as (Hh & Hq & _); simpl in *.
  destruct o1 as [[]|m]; intros [= <- <-]; (split; [|done]);
    intros x Hx; rewrite Hh; by do 2 apply alter_is_Some.
Qed.

(** The handler of the drain loop marks the entry and returns normally, as
    long as the store accepts the update of a failed entry. *)
Lemma markFailed_run (W : Publishing.World) (r : nat) (message : string)
      (st : Publishing.Agent) :
  (forall e, Publishing.status e = Publishing.failed ->
             Publishing.update_rejected W e = None) ->
  is_Some (Publishing.heap st !! r) ->
  exists (st' : Publishing.Agent) (e : Publishing.PublishEntry),
    Publishing.markFailed W r message st = (Ok tt, st') /\
    Publishing.heap st' !! r = Some e /\
    Publishing.status e = Publishing.failed /\
    Publishing.error e = Some message /\
    Publishing.log st' = Publishing.log st ++ [Publishing.FailedToAutoPublish r message] /\
    Publishing.keeps_objects st st'.
Proof.
  intros Hstore [e He].
  unfold Publishing.markFailed, Publishing.assign, Publishing.updateScheduleEntry,
    Publishing.deref.
  run_M. rewrite !lookup_alter_eq, He. simpl.
  rewrite Hstore by done.
  destruct (Publishing.entry_id e); run_M; eexists _, _;
    (split; [reflexivity|]); simpl; rewrite !lookup_alter_eq, He; simpl;
    repeat split; intros x Hx; by do 2 apply alter_is_Some.
Qed.

Lemma publishOne_run (W : Publishing.World) (r : nat) (st : Publishing.Agent) :
  (forall e, Publishing.status e = Publishing.failed ->
             Publishing.update_rejected W e = None) ->
  is_Some (Publishing.heap st !! r) ->
  exists (st' : Publishing.Agent) (ev : Publishing.LogEvent),
    Publishing.publishOne W r st = (Ok tt, st') /\
    Publishing.log st' = Publishing.log st ++ [ev] /\
    Publishing.entryOf ev = r /\
    Publishing.keeps_objects st st'.
Proof.
  intros Hstore Hr. unfold Publishing.publishOne, Js.try_catch.
  destruct (Publishing.autoPublish W r st) as [[[]|m] st1] eqn:Hauto;
    apply autoPublish_frame in Hauto as (Hk & Hl & _).
  - eexists _, _. split; [reflexivity|]. by rewrite Hl.
  - destruct (markFailed_run W r m st1 Hstore (Hk _ Hr))
      as (st' & e & Hrun & _ & _ & _ & Hl' & Hk').
    exists st', (Publishing.FailedToAutoPublish r m).
    split; [done|]. rewrite Hl', Hl, app_nil_r.
    repeat split. by eapply keeps_objects_trans.
Qed.

Lemma for_of_publishOne (W : Publishing.World) (l : list nat) (st : Publishing.Agent) :
  (forall e, Publishing.status e = Publishing.failed ->
             Publishing.update_rejected W e = None) ->
  Forall (fun r => is_Some (Publishing.heap st !! r)) l ->
  exists (st' : Publishing.Agent) (evs : list Publishing.LogEvent),
    Js.for_of l (Publishing.publishOne W) st = (Ok tt, st') /\
    Publishing.log st' = Publishing.log st ++ evs /\
    map Publishing.entryOf evs = l.
Proof.
  intros Hstore. revert st.
  induction l as [|r l IH]; intros st Hall; simpl.
  - exists st, []. by rewrite app_nil_r.
  - inversion Hall as [|? ? Hr Hl]; subst.
    destruct (publishOne_run W r st Hstore Hr) as (st1 & ev & Hrun & Hlog & Hev & Hk).
    destruct (IH st1) as (st' & evs & Hrun' & Hlog' & Hevs).
    { eapply Forall_impl; [exact Hl|]. intros x Hx. by apply Hk. }
    exists st', (ev :: evs). run_M. rewrite Hrun, Hrun'.
    split; [done|]. split.
    + by rewrite Hlog', Hlog, <- app_assoc.
    + simpl. by rewrite Hev, Hevs.
Qed.

Lemma due_allocated (st : Publishing.Agent) (now : Z) :
  Forall (fun r => is_Some (Publishing.heap st !! r))
         (List.filter (Publishing.due st now) (Publishing.publishQueue st)).
Proof.
  apply List.Forall_forall. intros r Hr. apply filter_In in Hr as [_ Hr].
  unfold Publishing.due in Hr. destruct (Publishing.heap st !! r); [by eexists|done].
Qed.

(** [scheduleContent] leaves the queue in ascending order of publish time,
    also when the store rejects the new row. *)
Lemma scheduleContent_sorted (W : Publishing.World) (item : Production.ProductionItem)
      (st st' : Publishing.Agent) (o : outcome nat) :
  Publishing.scheduleContent W item st = (o, st') -> Publishing.sortedByTime st'.
Proof.
  unfold Publishing.scheduleContent, Publishing.saveScheduleEntry, Publishing.alloc,
    Publishing.assign, Publishing.deref.
  run_M.
  set (r := fresh (dom (Publishing.heap st))).
  set (e := Publishing.newScheduleEntry W item).
  rewrite alter_insert_eq, lookup_insert_eq.
  set (key := Publishing.timeOf _).
  assert (Hsorted : forall tb lg,
    Publishing.sortedByTime
      (Publishing.mkAgent
         (<[r := Publishing.set_id (Publishing.generateId W) e]> (Publishing.heap st))
         (Publishing.sort_by key (Publishing.publishQueue st ++ [r])) tb lg)).
  { intros tb lg. unfold Publishing.sortedByTime; simpl.
    erewrite map_ext; [apply (sort_by_Sorted key)|].
    intros x. unfold key, Publishing.timeOf; simpl.
    destruct (decide (r = x)) as [->|Hne].
    - by rewrite !lookup_insert_eq.
    - by rewrite !lookup_insert_ne. }
  destruct (Publishing.insert_rejected W _); run_M.
  - intros [= <- <-]. unfold Publishing.with_heap, Publishing.with_queue; simpl.
    rewrite alter_insert_eq. apply Hsorted.
  - destruct (Publishing.publish_schedule st !! Publishing.generateId W); run_M;
      intros [= <- <-];
      unfold Publishing.with_table, Publishing.with_heap, Publishing.with_queue; simpl;
      rewrite alter_insert_eq; apply Hsorted.
Qed.

(** C6 at failing inputs. After prod_A, queued for time 10 before prod_B
    (time 20), has been paused and resumed for time 30, the queue holds the
    times 30, 20: resuming does not sort again as [scheduleContent] does. A
    drain at time 40, when both are due, takes prod_A first -- and when the
    store rejects the update that follows a publish attempt, the error leaves
    the [catch] block and ends the drain: prod_A has been worked on, prod_B,
    due since time 20, has not been touched. The same store error stops the
    drain of the sorted queue before its second due entry. *)
Theorem drain_is_not_in_time_order_and_stops_at_a_store_error :
  Publishing.reachable Scenario.rescheduled /\
  map (Publishing.timeOf Scenario.rescheduled) (Publishing.publishQueue Scenario.rescheduled)
  = [30; 20] /\
  Views.dueNow (Scenario.host 40 "" []) Scenario.rescheduled = [0%nat; 1%nat] /\
  Publishing.drainEvents (Scenario.host 40 "" []) Scenario.rescheduled
  = [Publishing.AutoPublished 0; Publishing.AutoPublished 1] /\
  (forall queued : Publishing.Agent,
      queued = Scenario.rescheduled \/ queued = Scenario.twoQueued ->
      Views.dueNow (Cases.storeDown 40 "") queued = [0%nat; 1%nat] /\
      fst (Publishing.processPublishQueue (Cases.storeDown 40 "") queued)
      = Throw "SQLITE_BUSY: database is locked" /\
      (fun e => (Publishing.status e, Publishing.error e))
        <$> Publishing.heap
              (Publishing.after (Publishing.processPublishQueue (Cases.storeDown 40 ""))
                                queued) !! 0%nat
      = Some (Publishing.failed, Some "SQLITE_BUSY: database is locked") /\
      Publishing.heap
        (Publishing.after (Publishing.processPublishQueue (Cases.storeDown 40 "")) queued)
        !! 1%nat
      = Publishing.heap queued !! 1%nat /\
      (fun e => (Publishing.status e, Publishing.publishTime e, Publishing.youtubeId e))
        <$> Publishing.heap queued !! 1%nat
      = Some (Publishing.scheduled, 20, None) /\
      Publishing.publishQueue
        (Publishing.after (Publishing.processPublishQueue (Cases.storeDown 40 "")) queued)
      = [0%nat; 1%nat]).
Proof.
  split.
  { apply Publishing.reach_resume, Publishing.reach_pause.
    do 2 apply Publishing.reach_schedule. apply Publishing.reach_initial. }
  split; [vm_compute; reflexivity|]. split; [vm_compute; reflexivity|].
  split; [vm_compute; reflexivity|].
  intros queued [->| ->]; vm_compute; repeat split.
Qed.

(** ** The value returned by the drain *)

(** The drain returns the number of due entries, failed attempts included. *)
Lemma processPublishQueue_returns_due_count (W : Publishing.World)
      (st st' : Publishing.Agent) (n : nat) :
  Publishing.processPublishQueue W st = (Ok n, st') ->
  n = length (List.filter (Publishing.due st (Publishing.clock W))
                          (Publishing.publishQueue st)).
Proof.
  unfold Publishing.processPublishQueue. run_M.
  destruct (Js.for_of _ _ st) as [[[]|m] st1]; [|discriminate].
  by intros [= <- <-].
Qed.

(** C7 at a failing input: two entries are due, the upload of the first is
    refused and the second is published; the drain returns 2 although one
    publish succeeded. *)
Theorem drain_counts_the_failed_attempt :
  fst (Publishing.processPublishQueue (Scenario.host 40 "" ["prod_A"]) Scenario.twoQueued)
  = Ok 2%nat /\
  Publishing.drainEvents (Scenario.host 40 "" ["prod_A"]) Scenario.twoQueued
  = [Publishing.FailedToAutoPublish 0 "quotaExceeded"; Publishing.AutoPublished 1] /\
  length (List.filter Publishing.isPublished
            (Publishing.drainEvents (Scenario.host 40 "" ["prod_A"]) Scenario.twoQueued))
  = 1%nat.
Proof. vm_compute. repeat split. Qed.

(** ** The generation gate *)

Lemma gate_closed_when_buffer_full (W : Automation.World) (agent : Publishing.Agent) :
  Automation.bufferDaysOf W
  <= Z.of_nat (length (Publishing.getUpcomingSchedule (Automation.publishing W) 3 agent)) ->
  Automation.shouldGenerateContentToday W agent = false.
Proof.
  intros H. unfold Automation.shouldGenerateContentToday.
  destruct (Z.leb_spec (Automation.bufferDaysOf W)
              (Z.of_nat (length (Publishing.getUpcomingSchedule
                                   (Automation.publishing W) 3 agent)))); [done|lia].
Qed.

(** C9, as stated, does not hold: with three upcoming entries and the buffer
    lowered to 2 the gate does not open. *)
Lemma gate_stays_closed_with_lower_buffer :
  ~ (forall (W : Automation.World) (agent : Publishing.Agent),
        length (Publishing.getUpcomingSchedule (Automation.publishing W) 3 agent) = 3%nat ->
        Automation.getSetting W "content_buffer_days" = Some "2" ->
        Automation.shouldGenerateContentToday W agent = true).
Proof.
  intros H.
  specialize (H (Scenario.morning "2") Scenario.threeQueued).
  vm_compute in H. specialize (H eq_refl eq_refl). discriminate.
Qed.

(** C9, amended. With three upcoming entries [shouldGenerateContentToday]
    returns false when [content_buffer_days] is 3, and it returns false as
    well when the buffer is lowered to 2: the gate is closed whenever the
    count is at least the buffer. *)
Theorem gate_closed_for_buffer_3_and_2 (W : Automation.World) (agent : Publishing.Agent) :
  length (Publishing.getUpcomingSchedule (Automation.publishing W) 3 agent) = 3%nat ->
  Automation.getSetting W "content_buffer_days" = Some "3" \/
  Automation.getSetting W "content_buffer_days" = Some "2" ->
  Automation.shouldGenerateContentToday W agent = false.
Proof.
  intros Hcount Hbuffer. apply gate_closed_when_buffer_full.
  rewrite Hcount. unfold Automation.bufferDaysOf.
  destruct Hbuffer as [-> | ->]; vm_compute; discriminate.
Qed.

Lemma gate_closed_for_buffer_3_and_2_witness :
  Automation.shouldGenerateContentToday (Scenario.morning "3") Scenario.threeQueued = false /\
  Automation.shouldGenerateContentToday (Scenario.morning "2") Scenario.threeQueued = false.
Proof.
  split.
  - apply (gate_closed_for_buffer_3_and_2 (Scenario.morning "3") Scenario.threeQueued).
    + vm_compute. reflexivity.
    + left. vm_compute. reflexivity.
  - apply (gate_closed_for_buffer_3_and_2 (Scenario.morning "2") Scenario.threeQueued).
    + vm_compute. reflexivity.
    + right. vm_compute. reflexivity.
Defined.

(** ** The upcoming schedule *)



(** ** The production pipeline *)

Section PipelineFacts.

Variable formatScriptForTTS : Production.Script -> outcome string.
Variable createSRTCaptions : Production.Script -> outcome string.
Variable W : Production.World.

(** The thumbnail artifact never carries the [simulated] property, whether
    the generator answered (even with a simulated image) or the fallback ran. *)
Lemma processThumbnail_never_simulated (thumbnail : Production.BriefThumbnail)
      (a : Production.ThumbnailAsset) :
  Production.processThumbnail W thumbnail = Ok a -> Production.th_simulated a = false.
Proof.
  unfold Production.processThumbnail.
  destruct (Production.generateThumbnail W _); [by intros [= <-]|].
  unfold mbind, outcome_bind.
  destruct (match Production.brief_path thumbnail with Some _ => _ | None => _ end);
    [by intros [= <-]|discriminate].
Qed.

(** The caption stage has no handler: what its steps throw, it throws. *)
Lemma generateCaptions_throws (p : Production.ProductionItem) (m : string) :
  createSRTCaptions (Production.item_script p) = Throw m \/
  (is_ok (createSRTCaptions (Production.item_script p)) = true /\
   Production.fs_mkdir W (Production.root W +:+ "/data/captions") = Throw m) ->
  Production.generateCaptions createSRTCaptions W p = (Throw m, p).
Proof.
  unfold Production.generateCaptions. run_M.
  intros [-> | [Hok ->]]; [done|].
  by destruct (createSRTCaptions _).
Qed.

(** What an item returned by [processContent] looks like. *)
Lemma processContent_Ok (contentData : Production.ContentData)
      (pipeline pipeline' : list Production.ProductionItem) (p : Production.ProductionItem) :
  Production.processContent formatScriptForTTS createSRTCaptions W contentData pipeline
  = (Ok p, pipeline') ->
  pipeline' = pipeline ++ [p] /\
  Production.status p = Production.ready /\
  is_Some (Production.scriptReady (Production.timeline p)) /\
  is_Some (Production.thumbnailReady (Production.timeline p)) /\
  is_Some (Production.captionsGenerated (Production.timeline p)) /\
  is_Some (Production.readyForUpload (Production.timeline p)) /\
  (Production.audioGenerated (Production.timeline p) = None <->
   Production.au_simulated <$> Production.a_audio (Production.assets p) = Some true) /\
  (Production.videoGenerated (Production.timeline p) = None <->
   Production.a_video (Production.assets p) = None).
Proof.
  unfold Production.processContent.
  destruct (Production.processScript _ _ _) as [sa|]; [|discriminate].
  destruct (Production.processThumbnail _ _) as [ta|]; [|discriminate].
  unfold Production.afterPush, Production.generateVideoContent,
    Production.generateAudioNarration, Production.simulateAudioGeneration,
    Production.generateCaptions, Production.assembleVideo,
    Production.simulateVideoAssembly.
  run_M.
  repeat match goal with
         | |- context [match ?x with Ok _ => _ | Throw _ => _ end] =>
             destruct x; simpl; try discriminate
         | |- context [match ?x with Some _ => _ | None => _ end] =>
             destruct x; simpl; try discriminate
         end;
    intros [= <- <-]; simpl; repeat split; try done; eauto.
Qed.

End PipelineFacts.

(** C1 at failing inputs. When only the caption stage throws,
    [processContent] throws too and leaves the item ['processing'] in the
    pipeline; when only the thumbnail generator throws, the item gets
    ['ready'] but its thumbnail artifact does not carry [simulated], and a
    thumbnail that the generator itself simulated is recorded as generated
    with AI. The audio stage does degrade to a flagged placeholder. *)
Theorem single_stage_failure_is_not_uniformly_degraded :
  (fst (Scenario.process Scenario.captionsThrow) = Throw "EACCES: permission denied, mkdir" /\
   map Production.status (snd (Scenario.process Scenario.captionsThrow))
   = [Production.processing]) /\
  (exists p : Production.ProductionItem,
      fst (Scenario.process Scenario.thumbnailThrows) = Ok p /\
      Production.status p = Production.ready /\
      Production.th_simulated (Production.a_thumbnail (Production.assets p)) = false /\
      Production.th_generatedWith (Production.a_thumbnail (Production.assets p)) = None) /\
  (exists p : Production.ProductionItem,
      fst (Scenario.process Scenario.thumbnailSimulated) = Ok p /\
      Production.status p = Production.ready /\
      Production.th_simulated (Production.a_thumbnail (Production.assets p)) = false /\
      Production.th_generatedWith (Production.a_thumbnail (Production.assets p))
      = Some "AI") /\
  (exists p : Production.ProductionItem,
      fst (Scenario.process Scenario.speechThrows) = Ok p /\
      Production.status p = Production.ready /\
      Production.au_simulated <$> Production.a_audio (Production.assets p) = Some true /\
      Production.th_generatedWith (Production.a_thumbnail (Production.assets p)) = Some "AI" /\
      Production.vi_generatedWith <$> Production.a_video (Production.assets p)
      = Some (Some "AI") /\
      Production.fv_simulated <$> Production.a_finalVideo (Production.assets p)
      = Some false).
Proof.
  split; [|split; [|split]].
  - vm_compute. split; reflexivity.
  - eexists. split; [vm_compute; reflexivity|]. simpl. repeat split.
  - eexists. split; [vm_compute; reflexivity|]. simpl. repeat split.
  - eexists. split; [vm_compute; reflexivity|]. simpl. repeat split.
Qed.

(** C2 at failing inputs. When the speech generator throws, the item gets
    ['ready'] with a simulated audio artifact and [audioGenerated] still
    null (its progress is 83); when the image generator throws, it gets
    ['ready'] with [videoGenerated] null and no video artifact. When nothing
    throws every timeline entry is set. *)
Theorem ready_item_with_null_timeline_entry :
  (exists p : Production.ProductionItem,
      fst (Scenario.process Scenario.speechThrows) = Ok p /\
      Production.status p = Production.ready /\
      Production.audioGenerated (Production.timeline p) = None /\
      Production.au_simulated <$> Production.a_audio (Production.assets p) = Some true /\
      Production.calculateProgress p = 83) /\
  (exists p : Production.ProductionItem,
      fst (Scenario.process Scenario.visualsThrow) = Ok p /\
      Production.status p = Production.ready /\
      Production.videoGenerated (Production.timeline p) = None /\
      Production.a_video (Production.assets p) = None /\
      Production.fv_simulated <$> Production.a_finalVideo (Production.assets p)
      = Some true) /\
  (exists p : Production.ProductionItem,
      fst (Scenario.process Scenario.allWell) = Ok p /\
      Production.status p = Production.ready /\
      Forall is_Some (Production.milestones (Production.timeline p)) /\
      Production.calculateProgress p = 100).
Proof.
  split; [|split].
  - eexists. split; [vm_compute; reflexivity|]. simpl. repeat split.
  - eexists. split; [vm_compute; reflexivity|]. simpl. repeat split.
  - eexists. split; [vm_compute; reflexivity|]. simpl.
    repeat split; repeat constructor; eauto.
Qed.

(** ** Invariants of the reachable states *)

Lemma allocated_step (st st' : Publishing.Agent) :
  Publishing.keeps_objects st st' ->
  incl (Publishing.publishQueue st') (Publishing.publishQueue st) ->
  Publishing.allocated st -> Publishing.allocated st'.
Proof.
  unfold Publishing.allocated. rewrite !List.Forall_forall.
  intros Hk Hq Ha x Hx. by apply Hk, Ha, Hq.
Qed.

Lemma publishOne_frame (W : Publishing.World) (r : nat)
      (st st' : Publishing.Agent) (o : outcome unit) :
  Publishing.publishOne W r st = (o, st') ->
  Publishing.keeps_objects st st' /\
  incl (Publishing.publishQueue st') (Publishing.publishQueue st).
Proof.
  unfold Publishing.publishOne, Js.try_catch.
  destruct (Publishing.autoPublish W r st) as [[[]|m] st1] eqn:Hauto;
    apply autoPublish_frame in Hauto as (Hk & _ & Hq).
  - by intros [= <- <-].
  - intros Hmark. apply markFailed_frame in Hmark as (Hk' & Hq').
    split; [by eapply keeps_objects_trans|by rewrite Hq'].
Qed.

Lemma for_of_publishOne_frame (W : Publishing.World) (l : list nat)
      (st st' : Publishing.Agent) (o : outcome unit) :
  Js.for_of l (Publishing.publishOne W) st = (o, st') ->
  Publishing.keeps_objects st st' /\
  incl (Publishing.publishQueue st') (Publishing.publishQueue st).
Proof.
  revert st. induction l as [|r l IH]; intros st; simpl.
  - intros [= <- <-]. split; [apply keeps_objects_refl|apply incl_refl].
  - run_M.
    destruct (Publishing.publishOne W r st) as [[[]|m] st1] eqn:Hone;
      apply publishOne_frame in Hone as (Hk & Hq).
    + intros Hrest. apply IH in Hrest as (Hk' & Hq').
      split; [by eapply keeps_objects_trans|by eapply incl_tran].
    + by intros [= <- <-].
Qed.

Lemma find_allocated (st : Publishing.Agent) (contentId : string) (r : nat) :
  Publishing.find st contentId (Publishing.publishQueue st) = Some r ->
  is_Some (Publishing.heap st !! r).
Proof. intros H. apply find_Some in H as (_ & e & He & _). by eexists. Qed.

(** Every reference in the queue of a reachable state is allocated. *)
Lemma reachable_allocated (st : Publishing.Agent) :
  Publishing.reachable st -> Publishing.allocated st.
Proof.
  induction 1 as [|W item st _ IH|W contentId st _ IH|W st _ IH
                  |W contentId st _ IH|W contentId t st _ IH
                  |W contentId delay st _ IH];
    unfold Publishing.after.
  - constructor.
  - assert (Hshape :
      exists e tb, snd (Publishing.scheduleContent W item st)
      = Publishing.mkAgent (<[fresh (dom (Publishing.heap st)) := e]> (Publishing.heap st))
          (Publishing.sort_by
             (Publishing.timeOf
                (Publishing.with_queue (fun q => q ++ [fresh (dom (Publishing.heap st))])
                   (Publishing.with_heap
                      <[fresh (dom (Publishing.heap st)) := Publishing.newScheduleEntry W item]>
                      st)))
             (Publishing.publishQueue st ++ [fresh (dom (Publishing.heap st))]))
          tb (Publishing.log st)).
    { unfold Publishing.scheduleContent, Publishing.saveScheduleEntry, Publishing.alloc,
        Publishing.assign, Publishing.deref.
      run_M. rewrite alter_insert_eq, lookup_insert_eq.
      destruct (Publishing.insert_rejected W _); run_M;
        [|destruct (Publishing.publish_schedule st !! Publishing.generateId W); run_M];
        unfold Publishing.with_table, Publishing.with_heap, Publishing.with_queue; simpl;
        rewrite alter_insert_eq; eauto. }
    destruct Hshape as (e & tb & ->).
    unfold Publishing.allocated in *; simpl.
    rewrite List.Forall_forall in *. intros x Hx.
    eapply Permutation_in in Hx; [|apply sort_by_Permutation].
    apply in_app_or in Hx as [Hx|[<-|[]]].
    + destruct (decide (fresh (dom (Publishing.heap st)) = x)) as [<-|Hne].
      * rewrite lookup_insert_eq. by eexists.
      * rewrite lookup_insert_ne by done. by apply IH.
    + rewrite lookup_insert_eq. by eexists.
  - destruct (Publishing.publishContent W contentId st) as [o st'] eqn:Hrun.
    apply publishContent_frame in Hrun as (Hk & _ & Hq). by eapply allocated_step.
  - unfold Publishing.processPublishQueue. run_M.
    destruct (Js.for_of _ _ st) as [o st'] eqn:Hrun.
    apply for_of_publishOne_frame in Hrun as (Hk & Hq).
    destruct o as [[]|m]; simpl; by eapply allocated_step.
  - unfold Publishing.pauseScheduledContent, Publishing.assign. run_M.
    destruct (Publishing.find st contentId (Publishing.publishQueue st)) as [r|]; [|done].
    run_M.
    destruct (Publishing.updateScheduleEntry W r _) as [o st'] eqn:Hupd.
    apply updateScheduleEntry_frame in Hupd as (Hh & Hq & _); simpl in *.
    assert (Publishing.allocated st').
    { eapply allocated_step; [| |exact IH].
      - intros x Hx. rewrite Hh. by apply alter_is_Some.
      - rewrite Hq. apply incl_refl. }
    by destruct o as [[]|m].
  - unfold Publishing.resumeScheduledContent, Publishing.assign. run_M.
    destruct (Publishing.find st contentId (Publishing.publishQueue st)) as [r|]; [|done].
    destruct t as [t|]; run_M;
      destruct (Publishing.updateScheduleEntry W r _) as [o st'] eqn:Hupd;
      apply updateScheduleEntry_frame in Hupd as (Hh & Hq & _); simpl in *;
      (assert (Publishing.allocated st');
       [eapply allocated_step; [| |exact IH];
        [intros x Hx; rewrite Hh; by repeat apply alter_is_Some
        |rewrite Hq; apply incl_refl]
       |by destruct o as [[]|m]]).
  - unfold Publishing.emergencyPublish, Publishing.assign. run_M.
    destruct (Publishing.find st contentId (Publishing.publishQueue st)) as [r|]; [|done].
    destruct (0 <? delay).
    + run_M.
      destruct (Publishing.updateScheduleEntry W r _) as [o st'] eqn:Hupd.
      apply updateScheduleEntry_frame in Hupd as (Hh & Hq & _); simpl in *.
      assert (Publishing.allocated st').
      { eapply allocated_step; [| |exact IH].
        - intros x Hx. rewrite Hh. by apply alter_is_Some.
        - rewrite Hq. apply incl_refl. }
      by destruct o as [[]|m].
    + destruct (Publishing.publishContent W contentId st) as [o st'] eqn:Hrun.
      apply publishContent_frame in Hrun as (Hk & _ & Hq). by eapply allocated_step.
Qed.

(** The queue entries keep distinct ids as long as the store generates an id
    that no queued entry has. *)
Lemma scheduleContent_distinctIds (W : Publishing.World) (item : Production.ProductionItem)
      (st st' : Publishing.Agent) (r : nat) :
  Publishing.allocated st ->
  Publishing.distinctIds st ->
  ~ In (Some (Some (Publishing.generateId W))) (Publishing.queuedIds st) ->
  Publishing.scheduleContent W item st = (Ok r, st') ->
  Publishing.distinctIds st'.
Proof.
  intros Halloc Hids Hfresh Hrun.
  destruct (Publishing.insert_rejected W
              (Publishing.set_id (Publishing.generateId W)
                                 (Publishing.newScheduleEntry W item))) eqn:Hins.
  { revert Hrun.
    unfold Publishing.scheduleContent, Publishing.saveScheduleEntry, Publishing.alloc,
      Publishing.assign, Publishing.deref.
    run_M. rewrite alter_insert_eq, lookup_insert_eq, Hins. discriminate. }
  destruct (Publishing.publish_schedule st !! Publishing.generateId W) eqn:Hrow.
  { revert Hrun.
    unfold Publishing.scheduleContent, Publishing.saveScheduleEntry, Publishing.alloc,
      Publishing.assign, Publishing.deref.
    run_M. rewrite alter_insert_eq, lookup_insert_eq, Hins. run_M.
    rewrite Hrow. discriminate. }
  rewrite scheduleContent_run in Hrun by done.
  injection Hrun as <- <-.
  unfold Publishing.distinctIds, Publishing.queuedIds in *; simpl.
  set (r := fresh (dom (Publishing.heap st))) in *.
  set (e := Publishing.set_id _ _) in *.
  rewrite sort_by_Permutation.
  rewrite map_app. simpl. rewrite lookup_insert_eq. simpl.
  assert (Hsame : map (fun x => Publishing.entry_id <$> <[r:=e]> (Publishing.heap st) !! x)
                      (Publishing.publishQueue st)
                  = map (fun x => Publishing.entry_id <$> Publishing.heap st !! x)
                        (Publishing.publishQueue st)).
  { apply map_ext_in. intros x Hx. rewrite lookup_insert_ne; [done|].
    intros Heq. unfold Publishing.allocated in Halloc.
    rewrite List.Forall_forall in Halloc. apply Halloc in Hx.
    rewrite <- Heq in Hx. unfold r in Hx. rewrite fresh_unallocated in Hx.
    by destruct Hx. }
  rewrite Hsame.
  apply NoDup_app. split; [done|]. split; [|apply NoDup_singleton].
  intros x Hx Hx'. apply list_elem_of_singleton in Hx' as ->.
  apply Hfresh. by apply list_elem_of_In.
Qed.

(** * Further properties of the code *)

(** ** Visual prompts *)

Lemma omap_titles_length (l : list Production.ScriptSection) :
  length (omap (fun section =>
                  if bool_decide (Production.section_title section <> "")
                  then Some (Production.section_title section
                             +:+ ", ethereal dreamscape, creative visualization")
                  else None) l)
  = length (List.filter (fun section => bool_decide (Production.section_title section <> "")) l).
Proof.
  induction l as [|x l IH]; simpl; [done|].
  destruct (bool_decide (Production.section_title x <> "")); simpl;
    [f_equal|]; exact IH.
Qed.

(** X1. [createVisualPromptsFromScript] yields between three and five prompts,
    the first one built from the title: one prompt per titled section is
    added, the list is padded to three and cut at five, so at most four
    sections are illustrated. *)
Theorem visual_prompts_between_three_and_five (script : Production.Script) :
  length (Production.createVisualPromptsFromScript script)
  = Nat.min 5 (Nat.max 3 (1 + length (Views.titledSections script))) /\
  (3 <= length (Production.createVisualPromptsFromScript script) <= 5)%nat /\
  head (Production.createVisualPromptsFromScript script)
  = Some (Production.script_title script +:+ ", ethereal storytelling, mystical background").
Proof.
  unfold Production.createVisualPromptsFromScript, Views.titledSections.
  rewrite <- omap_titles_length.
  set (extra := omap _ _).
  split; [|split]; [| |reflexivity];
    rewrite length_take, !length_app, length_replicate; cbn [length]; lia.
Qed.

(** ** Progress *)

Lemma filter_length_all {A} (P : A -> bool) (l : list A) :
  length (List.filter P l) = length l <-> Forall (fun x => P x = true) l.
Proof.
  induction l as [|x l IH]; simpl; [by split|].
  pose proof (List.filter_length_le P l) as Hle.
  rewrite Forall_cons. destruct (P x); simpl.
  - rewrite <- IH. split; [intros [= ->]; by split|intros [_ ->]; done].
  - split; [intros H; exfalso; lia|by intros [? _]].
Qed.

Lemma filter_length_none {A} (P : A -> bool) (l : list A) :
  length (List.filter P l) = 0%nat <-> Forall (fun x => P x = false) l.
Proof.
  induction l as [|x l IH]; simpl; [by split|].
  rewrite Forall_cons. destruct (P x); simpl.
  - split; [done|by intros [? _]].
  - rewrite <- IH. split; [by split|by intros [_ ?]].
Qed.

(** X2. [calculateProgress] is a percentage between 0 and 100. It is 100
    exactly when none of the six milestones is [null] -- a milestone that is
    missing from the timeline counts as reached, so the empty timeline that a
    row without timeline is read back with gives 100 -- and 0 exactly when
    all six are present and [null]. On the timelines that [processContent]
    builds, which have all their keys, it is the percentage of the
    milestones that have a time. *)
Theorem calculateProgress_range_and_extremes :
  (forall timeline : Stored.Timeline,
      0 <= Stored.calculateProgress timeline <= 100 /\
      (Stored.calculateProgress timeline = 100 <->
       Forall (fun milestone => timeline !! milestone <> Some None) Stored.milestones) /\
      (Stored.calculateProgress timeline = 0 <->
       Forall (fun milestone => timeline !! milestone = Some None) Stored.milestones)) /\
  Stored.calculateProgress ∅ = 100 /\
  (forall p : Production.ProductionItem,
      Production.calculateProgress p
      = Stored.calculateProgress (Stored.timelineOf (Production.timeline p))).
Proof.
  split; [|split; [vm_compute; reflexivity|]].
  - intros timeline. unfold Stored.calculateProgress.
    pose proof (List.filter_length_le (Stored.reached timeline) Stored.milestones) as Hle.
    pose proof (filter_length_all (Stored.reached timeline) Stored.milestones) as Hall.
    pose proof (filter_length_none (Stored.reached timeline) Stored.milestones) as Hnone.
    change (length Stored.milestones) with 6%nat in *.
    set (completed := length _) in *.
    split; [|split].
    + split; [apply Z.div_pos; lia|].
      assert ((200 * Z.of_nat completed + 6) / 12 < 101)
        by (apply Z.div_lt_upper_bound; lia).
      lia.
    + assert (Hequiv :
        Forall (fun milestone => timeline !! milestone <> Some None) Stored.milestones
        <-> Forall (fun x => Stored.reached timeline x = true) Stored.milestones).
      { apply Forall_iff. intros x. unfold Stored.reached. by rewrite bool_decide_eq_true. }
      rewrite Hequiv, <- Hall.
      split; [intros H|intros ->; reflexivity].
      destruct (decide (completed = 6%nat)); [done|].
      assert ((200 * Z.of_nat completed + 6) / 12 < 84)
        by (apply Z.div_lt_upper_bound; lia).
      lia.
    + assert (Hequiv :
        Forall (fun milestone => timeline !! milestone = Some None) Stored.milestones
        <-> Forall (fun x => Stored.reached timeline x = false) Stored.milestones).
      { apply Forall_iff. intros x. unfold Stored.reached. rewrite bool_decide_eq_false.
        split; [intros ->; by intros H; apply H|].
        intros H. by apply dec_stable in H. }
      rewrite Hequiv, <- Hnone.
      split; [intros H|intros ->; reflexivity].
      destruct (decide (completed = 0%nat)); [done|].
      assert (1 <= (200 * Z.of_nat completed + 6) / 12)
        by (apply Z.div_le_lower_bound; lia).
      lia.
  - intros p.
    unfold Production.calculateProgress, Production.milestones.
    destruct (Production.timeline p) as [c [s|] [t|] [a|] [v|] [k|] [u|]];
      vm_compute; reflexivity.
Qed.

(** ** What [processContent] leaves behind *)

Section PipelineEffects.

Variable formatScriptForTTS : Production.Script -> outcome string.
Variable createSRTCaptions : Production.Script -> outcome string.
Variable W : Production.World.

Ltac pipeline_cases :=
  unfold Production.processContent, Production.afterPush, Production.generateVideoContent,
    Production.generateAudioNarration, Production.simulateAudioGeneration,
    Production.generateCaptions, Production.assembleVideo,
    Production.simulateVideoAssembly;
  run_M;
  repeat match goal with
         | |- context [match ?x with Ok _ => _ | Throw _ => _ end] =>
             destruct x eqn:?; simpl
         | |- context [match ?x with Some _ => _ | None => _ end] =>
             destruct x eqn:?; simpl
         end.

(** X3. [processContent] never touches the items already in the pipeline and
    adds at most one. When script or thumbnail processing throws, the
    pipeline is unchanged. Otherwise one item with the generated id is
    appended: the returned one, with status ['ready'], when the call
    succeeds; when the call throws, an item that is still ['processing'] --
    or, if what threw was the final store update, an item that is already
    ['ready'] although the caller got the error. *)
Theorem processContent_pipeline_effect
        (contentData : Production.ContentData)
        (pipeline pipeline' : list Production.ProductionItem)
        (o : outcome Production.ProductionItem) :
  Production.processContent formatScriptForTTS createSRTCaptions W contentData pipeline
  = (o, pipeline') ->
  (pipeline' = pipeline /\
   exists m, o = Throw m /\
     (Production.processScript formatScriptForTTS W (Production.cd_script contentData)
      = Throw m \/
      Production.processThumbnail W (Production.cd_thumbnail contentData) = Throw m)) \/
  (exists p : Production.ProductionItem,
      pipeline' = pipeline ++ [p] /\
      Production.item_id p = Production.generateProductionId W /\
      ((o = Ok p /\ Production.status p = Production.ready) \/
       (exists m, o = Throw m /\
          (Production.status p = Production.processing \/
           (Production.status p = Production.ready /\
            Production.updateProductionData W p = Throw m))))).
Proof.
  pipeline_cases;
    intros [= <- <-];
    first [ left; split; [reflexivity|]; eexists; split; [reflexivity|]; by auto
          | right; eexists; split; [reflexivity|]; split; [reflexivity|];
            first [ left; split; reflexivity
                  | right; eexists; split; [reflexivity|]; left; reflexivity
                  | right; eexists; split; [reflexivity|]; right; split;
                    [reflexivity|eassumption] ] ].
Qed.

(** X4. Every item that [processContent] returns has an audio, a captions
    and a final-video artifact; only the video artifact can be missing. Its
    progress is 67, 83 or 100, and it is 100 exactly when the audio was
    really generated and the video artifact exists. *)
Theorem returned_item_artifacts_and_progress
        (contentData : Production.ContentData)
        (pipeline pipeline' : list Production.ProductionItem)
        (p : Production.ProductionItem) :
  Production.processContent formatScriptForTTS createSRTCaptions W contentData pipeline
  = (Ok p, pipeline') ->
  is_Some (Production.a_audio (Production.assets p)) /\
  is_Some (Production.a_captions (Production.assets p)) /\
  is_Some (Production.a_finalVideo (Production.assets p)) /\
  (Production.a_video (Production.assets p) = None ->
   Production.fv_simulated <$> Production.a_finalVideo (Production.assets p) = Some true) /\
  Production.calculateProgress p ∈ [67; 83; 100] /\
  (Production.calculateProgress p = 100 <->
   Production.au_simulated <$> Production.a_audio (Production.assets p) = Some false /\
   is_Some (Production.a_video (Production.assets p))).
Proof.
  pipeline_cases; try discriminate;
    intros [= <- <-]; simpl;
    (split; [by eexists|]); (split; [by eexists|]); (split; [by eexists|]);
    (split; [done|]);
    (split; [vm_compute; set_solver|]);
    match goal with
    | |- ?x = 100 <-> _ => let v := eval vm_compute in x in change x with v
    end;
    (split; [intros H|intros [H1 [x H2]]]);
    first [ discriminate | reflexivity | split; [reflexivity|by eexists] ].
Qed.

End PipelineEffects.

Lemma processContent_pipeline_effect_witness :
  exists p : Production.ProductionItem,
    Scenario.process Scenario.allWell = (Ok p, [p]) /\
    Production.item_id p = Production.generateProductionId Scenario.allWell /\
    Production.status p = Production.ready.
Proof.
  destruct (processContent_pipeline_effect
              Scenario.formatScriptForTTS Scenario.createSRTCaptions Scenario.allWell
              Scenario.brief [] (snd (Scenario.process Scenario.allWell))
              (fst (Scenario.process Scenario.allWell)))
    as [[Hsame _]|(p & Hpush & Hid & [[Hok Hready]|(m & Hthrow & _)])];
    [vm_compute; reflexivity|vm_compute in Hsame; discriminate Hsame| |
     vm_compute in Hthrow; discriminate Hthrow].
  exists p. split; [|split; [exact Hid|exact Hready]].
  rewrite (surjective_pairing (Scenario.process Scenario.allWell)), Hok, Hpush.
  reflexivity.
Defined.

Lemma returned_item_artifacts_and_progress_witness :
  exists p : Production.ProductionItem,
    Scenario.process Scenario.visualsThrow = (Ok p, [p]) /\
    Production.a_video (Production.assets p) = None /\
    Production.fv_simulated <$> Production.a_finalVideo (Production.assets p) = Some true.
Proof.
  eexists. split; [vm_compute; reflexivity|]. split; [vm_compute; reflexivity|].
  eapply (returned_item_artifacts_and_progress
            Scenario.formatScriptForTTS Scenario.createSRTCaptions Scenario.visualsThrow
            Scenario.brief [] _ _);
    vm_compute; reflexivity.
Defined.

(** ** The upcoming schedule is sorted *)



(** ** Where a new entry lands in the queue *)

Lemma filter_all_above {A} (key : A -> Z) (c : Z) (l : list A) :
  Forall (fun y => c < key y) l ->
  List.filter (fun y => key y <=? c) l = [] /\ List.filter (fun y => c <? key y) l = l.
Proof.
  induction 1 as [|y l Hy _ [IH1 IH2]]; simpl; [done|].
  destruct (Z.leb_spec (key y) c); [lia|].
  destruct (Z.ltb_spec c (key y)); [|lia].
  by rewrite IH1, IH2.
Qed.

Lemma sorted_head_least {A} (key : A -> Z) (x : A) (l : list A) :
  Sorted Z.le (map key (x :: l)) -> Forall (fun y => key x <= key y) l.
Proof.
  intros Hs. apply Sorted_StronglySorted in Hs; [|intros ???; lia].
  inversion Hs as [|? ? _ Hall]; subst.
  rewrite List.Forall_forall in *. intros y Hy. apply Hall. by apply in_map.
Qed.

Lemma sorted_split_at {A} (key : A -> Z) (c : Z) (l : list A) :
  Sorted Z.le (map key l) ->
  l = List.filter (fun y => key y <=? c) l ++ List.filter (fun y => c <? key y) l.
Proof.
  induction l as [|x l IH]; simpl; [done|]. intros Hs.
  pose proof (sorted_head_least key x l Hs) as Hleast.
  assert (Hs' : Sorted Z.le (map key l)) by (by inversion Hs).
  destruct (Z.leb_spec (key x) c), (Z.ltb_spec c (key x)); try lia; simpl.
  - f_equal. by apply IH.
  - destruct (filter_all_above key c l) as [-> ->]; [|done].
    eapply Forall_impl; [exact Hleast|]. simpl. intros; lia.
Qed.

(** Sorting a sorted array with one element pushed at its end puts that
    element after all elements whose key is not greater. *)
Lemma sort_by_push_sorted {A} (key : A -> Z) (l : list A) (r : A) :
  Sorted Z.le (map key l) ->
  Publishing.sort_by key (l ++ [r])
  = List.filter (fun y => key y <=? key r) l ++ r :: List.filter (fun y => key r <? key y) l.
Proof.
  induction l as [|x l IH]; simpl; [done|]. intros Hs.
  pose proof (sorted_head_least key x l Hs) as Hleast.
  assert (Hs' : Sorted Z.le (map key l)) by (by inversion Hs).
  rewrite (IH Hs').
  destruct (Z.leb_spec (key x) (key r)), (Z.ltb_spec (key r) (key x)); try lia; simpl.
  - destruct (List.filter (fun y => key y <=? key r) l) as [|y l1] eqn:Hl1; simpl.
    + destruct (Z.ltb_spec (key r) (key x)); [lia|done].
    + assert (Hy : In y l).
      { eapply (proj1 (filter_In _ _ _)). rewrite Hl1. by left. }
      rewrite List.Forall_forall in Hleast. apply Hleast in Hy.
      destruct (Z.ltb_spec (key y) (key x)); [lia|done].
  - destruct (filter_all_above key (key r) l) as [-> ->].
    { eapply Forall_impl; [exact Hleast|]. simpl. intros; lia. }
    simpl. destruct (Z.ltb_spec (key r) (key x)); [|lia].
    f_equal. by apply insert_by_sorted_cons.
Qed.

(** X6. In a queue that is sorted by publish time, [scheduleContent] puts the
    new entry behind every entry whose time is not later than its own -- ties
    keep their insertion order -- and before the entries with a later time;
    the entries already queued keep their relative order. *)
Theorem scheduleContent_inserts_behind_ties
        (W : Publishing.World) (item : Production.ProductionItem) (st : Publishing.Agent) :
  Publishing.allocated st ->
  Publishing.sortedByTime st ->
  Publishing.insert_rejected W
    (Publishing.set_id (Publishing.generateId W) (Publishing.newScheduleEntry W item)) = None ->
  Publishing.publish_schedule st !! Publishing.generateId W = None ->
  exists (r : nat) (st' : Publishing.Agent),
    Publishing.scheduleContent W item st = (Ok r, st') /\
    Publishing.publishQueue st
    = List.filter (fun x => Publishing.timeOf st x <=? Production.scheduledPublishTime item)
                  (Publishing.publishQueue st)
      ++ List.filter (fun x => Production.scheduledPublishTime item <? Publishing.timeOf st x)
                     (Publishing.publishQueue st) /\
    Publishing.publishQueue st'
    = List.filter (fun x => Publishing.timeOf st x <=? Production.scheduledPublishTime item)
                  (Publishing.publishQueue st)
      ++ r :: List.filter (fun x => Production.scheduledPublishTime item <? Publishing.timeOf st x)
                          (Publishing.publishQueue st).
Proof.
  intros Halloc Hsorted Hins Hfree.
  eexists _, _. split; [by apply scheduleContent_run|]. simpl.
  split; [by apply sorted_split_at|].
  set (r := fresh (dom (Publishing.heap st))).
  set (e := Publishing.set_id _ _).
  set (key := Publishing.timeOf _).
  assert (Hkey : forall x, In x (Publishing.publishQueue st) -> key x = Publishing.timeOf st x).
  { intros x Hx. unfold key, Publishing.timeOf; simpl.
    rewrite lookup_insert_ne; [done|]. intros Heq.
    unfold Publishing.allocated in Halloc. rewrite List.Forall_forall in Halloc.
    apply Halloc in Hx. rewrite <- Heq in Hx. unfold r in Hx.
    rewrite fresh_unallocated in Hx. by destruct Hx. }
  assert (Hr : key r = Production.scheduledPublishTime item).
  { unfold key, Publishing.timeOf; simpl. by rewrite lookup_insert_eq. }
  rewrite sort_by_push_sorted.
  - rewrite Hr. f_equal; [|f_equal]; apply filter_ext_in; intros x Hx; by rewrite Hkey.
  - unfold Publishing.sortedByTime in Hsorted.
    erewrite map_ext_in; [exact Hsorted|]. intros x Hx. by apply Hkey.
Qed.

Lemma scheduleContent_inserts_behind_ties_witness :
  exists (r : nat) (st' : Publishing.Agent),
    Publishing.scheduleContent (Scenario.host 0 "schedule_3" [])
      (Scenario.item "prod_C" 10 Production.ready) Scenario.twoQueued = (Ok r, st') /\
    Publishing.publishQueue st' = [0%nat; r; 1%nat].
Proof.
  destruct (scheduleContent_inserts_behind_ties
              (Scenario.host 0 "schedule_3" [])
              (Scenario.item "prod_C" 10 Production.ready) Scenario.twoQueued)
    as (r & st' & Hrun & _ & Hqueue).
  - repeat constructor; vm_compute; eauto.
  - unfold Publishing.sortedByTime.
    replace (map _ _) with [10; 20] by (vm_compute; reflexivity).
    repeat constructor. lia.
  - reflexivity.
  - vm_compute. reflexivity.
  - exists r, st'. split; [exact Hrun|]. exact Hqueue.
Defined.

(** ** When the store rejects *)

(** X7. When the store rejects the insert, [scheduleContent] throws the
    store's error, yet the new entry -- with its id already assigned --
    stays in the in-memory queue while nothing is persisted: the queue and
    the store disagree from then on. *)
Theorem scheduleContent_rejected_insert_leaves_entry_queued
        (W : Publishing.World) (item : Production.ProductionItem) (st : Publishing.Agent)
        (message : string) :
  Publishing.insert_rejected W
    (Publishing.set_id (Publishing.generateId W) (Publishing.newScheduleEntry W item))
  = Some message ->
  exists st' : Publishing.Agent,
    Publishing.scheduleContent W item st = (Throw message, st') /\
    In (fresh (dom (Publishing.heap st))) (Publishing.publishQueue st') /\
    length (Publishing.publishQueue st') = S (length (Publishing.publishQueue st)) /\
    Publishing.heap st' !! fresh (dom (Publishing.heap st))
    = Some (Publishing.set_id (Publishing.generateId W) (Publishing.newScheduleEntry W item)) /\
    Publishing.publish_schedule st' = Publishing.publish_schedule st.
Proof.
  intros Hins.
  unfold Publishing.scheduleContent, Publishing.saveScheduleEntry, Publishing.alloc,
    Publishing.assign, Publishing.deref.
  run_M. rewrite alter_insert_eq, lookup_insert_eq, Hins.
  eexists. split; [reflexivity|].
  unfold Publishing.with_heap, Publishing.with_queue; simpl.
  split; [|split; [|split]].
  - eapply Permutation_in; [symmetry; apply sort_by_Permutation|].
    apply in_or_app. right. by left.
  - rewrite (Permutation_length (sort_by_Permutation _ _)), List.length_app. simpl. lia.
  - by rewrite alter_insert_eq, lookup_insert_eq.
  - reflexivity.
Qed.

Lemma scheduleContent_rejected_insert_leaves_entry_queued_witness :
  exists st' : Publishing.Agent,
    Publishing.scheduleContent (Cases.storeDown 0 "schedule_9")
      (Scenario.item "prod_Z" 10 Production.ready) Publishing.initial
    = (Throw "SQLITE_BUSY: database is locked", st') /\
    length (Publishing.publishQueue st') = 1%nat /\
    Publishing.publish_schedule st' = ∅.
Proof.
  destruct (scheduleContent_rejected_insert_leaves_entry_queued
              (Cases.storeDown 0 "schedule_9")
              (Scenario.item "prod_Z" 10 Production.ready) Publishing.initial
              "SQLITE_BUSY: database is locked")
    as (st' & Hrun & _ & Hlen & _ & Htable); [reflexivity|].
  exists st'. split; [exact Hrun|]. split; [exact Hlen|exact Htable].
Defined.

(** X8. When [publishContent] throws, the queue, the store and the log are
    as before. Either the content id matches no queued entry (the message
    says so) or the upload threw -- and then nothing at all has changed -- or
    the upload succeeded and the store rejected the update: then the entry is
    left ['published'] in memory, with its YouTube id, but still queued and
    with its stored row unchanged. *)
Theorem publishContent_failure_modes
        (W : Publishing.World) (contentId message : string) (st st' : Publishing.Agent) :
  Publishing.publishContent W contentId st = (Throw message, st') ->
  Publishing.publishQueue st' = Publishing.publishQueue st /\
  Publishing.publish_schedule st' = Publishing.publish_schedule st /\
  Publishing.log st' = Publishing.log st /\
  ((Publishing.find st contentId (Publishing.publishQueue st) = None /\
    message = "Content not found in queue: " +:+ contentId /\ st' = st) \/
   (exists (r : nat) (e : Publishing.PublishEntry),
       Publishing.find st contentId (Publishing.publishQueue st) = Some r /\
       Publishing.heap st !! r = Some e /\
       Publishing.uploadToYouTube W e = Throw message /\ st' = st) \/
   (exists (r : nat) (e : Publishing.PublishEntry) (videoId : string),
       Publishing.find st contentId (Publishing.publishQueue st) = Some r /\
       Publishing.heap st !! r = Some e /\
       Publishing.uploadToYouTube W e = Ok videoId /\
       Publishing.update_rejected W (Publishing.set_published (Publishing.clock W) videoId e)
       = Some message /\
       Publishing.heap st'
       = <[r := Publishing.set_published (Publishing.clock W) videoId e]> (Publishing.heap st))).
Proof.
  unfold Publishing.publishContent. run_M.
  destruct (Publishing.find st contentId (Publishing.publishQueue st)) as [r|] eqn:Hfind.
  - pose proof (find_Some _ _ _ _ Hfind) as (_ & e & He & _).
    unfold Publishing.deref at 1. rewrite He.
    destruct (Publishing.uploadToYouTube W e) as [videoId|m] eqn:Hup.
    + unfold Publishing.assign, Publishing.updateScheduleEntry, Publishing.deref. run_M.
      rewrite lookup_alter_eq, He. simpl.
      destruct (Publishing.update_rejected W _) as [m|] eqn:Hrej.
      * intros [= <- <-]. simpl. do 3 (split; [reflexivity|]).
        right. right. exists r, e, videoId.
        rewrite (alter_alt_Some _ _ _ _ He). done.
      * destruct (Publishing.entry_id e); run_M; discriminate.
    + intros [= <- <-]. do 3 (split; [reflexivity|]).
      right. left. by exists r, e.
  - intros [= <- <-]. do 3 (split; [reflexivity|]). by left.
Qed.

Lemma publishContent_failure_modes_witness :
  Publishing.publishQueue
    (Publishing.after (Publishing.publishContent (Scenario.host 40 "" []) "prod_X")
                      Scenario.twoQueued)
  = Publishing.publishQueue Scenario.twoQueued.
Proof.
  apply (publishContent_failure_modes (Scenario.host 40 "" []) "prod_X"
           "Content not found in queue: prod_X" Scenario.twoQueued).
  vm_compute. reflexivity.
Defined.

(** ** What reaches the store *)

Lemma rowsKept_refl (st : Publishing.Agent) : Views.rowsKept st st.
Proof. intros id row Hrow. exists row. by rewrite Hrow. Qed.

Lemma rowsKept_trans (st1 st2 st3 : Publishing.Agent) :
  Views.rowsKept st1 st2 -> Views.rowsKept st2 st3 -> Views.rowsKept st1 st3.
Proof.
  intros H12 H23 id row Hrow.
  destruct (H12 _ _ Hrow) as (row2 & Hrow2 & Ht & Hp & Hti & Hpr & Hm).
  destruct (H23 _ _ Hrow2) as (row3 & Hrow3 & Ht' & Hp' & Hti' & Hpr' & Hm').
  exists row3. split; [done|]. repeat split; congruence.
Qed.

Lemma rowsKept_same_table (st st' : Publishing.Agent) :
  Publishing.publish_schedule st' = Publishing.publish_schedule st -> Views.rowsKept st st'.
Proof. intros Heq id row Hrow. exists row. by rewrite Heq, Hrow. Qed.

Lemma updateScheduleEntry_rowsKept (W : Publishing.World) (r : nat)
      (st st' : Publishing.Agent) (o : outcome unit) :
  Publishing.updateScheduleEntry W r st = (o, st') -> Views.rowsKept st st'.
Proof.
  unfold Publishing.updateScheduleEntry, Publishing.deref. run_M.
  destruct (Publishing.heap st !! r) as [e|]; [|intros [= <- <-]; apply rowsKept_refl].
  destruct (Publishing.update_rejected W e); run_M;
    [intros [= <- <-]; apply rowsKept_refl|].
  destruct (Publishing.entry_id e) as [id|]; run_M;
    intros [= <- <-]; [|apply rowsKept_refl].
  intros id' row Hrow. unfold Publishing.with_table; simpl.
  destruct (decide (id = id')) as [->|Hne].
  - rewrite lookup_alter_eq, Hrow. simpl. eexists. split; [reflexivity|]. done.
  - rewrite lookup_alter_ne by done. exists row. by rewrite Hrow.
Qed.

Lemma publishContent_rowsKept (W : Publishing.World) (contentId : string)
      (st st' : Publishing.Agent) (o : outcome nat) :
  Publishing.publishContent W contentId st = (o, st') -> Views.rowsKept st st'.
Proof.
  unfold Publishing.publishContent. run_M.
  destruct (Publishing.find st contentId (Publishing.publishQueue st)) as [r|];
    [|intros [= <- <-]; apply rowsKept_refl].
  unfold Publishing.deref at 1.
  destruct (Publishing.heap st !! r) as [e|]; [|intros [= <- <-]; apply rowsKept_refl].
  destruct (Publishing.uploadToYouTube W e) as [videoId|];
    [|intros [= <- <-]; apply rowsKept_refl].
  unfold Publishing.assign. run_M.
  destruct (Publishing.updateScheduleEntry W r _) as [[[]|m] st1] eqn:Hupd;
    apply updateScheduleEntry_rowsKept in Hupd; intros [= <- <-]; exact Hupd.
Qed.

Lemma publishOne_rowsKept (W : Publishing.World) (r : nat)
      (st st' : Publishing.Agent) (o : outcome unit) :
  Publishing.publishOne W r st = (o, st') -> Views.rowsKept st st'.
Proof.
  unfold Publishing.publishOne, Js.try_catch, Publishing.autoPublish, Publishing.markFailed,
    Publishing.deref, Publishing.assign.
  run_M.
  assert (Hhandler : forall s s' m o',
    Publishing.updateScheduleEntry W r
      (Publishing.with_heap (alter (Publishing.set_error m) r)
         (Publishing.with_heap (alter (Publishing.set_status Publishing.failed) r)
            (Publishing.with_log
               (fun l => l ++ [Publishing.FailedToAutoPublish r m]) s))) = (o', s') ->
    Views.rowsKept s s').
  { intros s s' m o' Hupd. by apply updateScheduleEntry_rowsKept in Hupd. }
  destruct (Publishing.heap st !! r) as [e|].
  - destruct (Publishing.publishContent W (Publishing.productionId e) st)
      as [[r'|m] st1] eqn:Hpub; apply publishContent_rowsKept in Hpub.
    + by intros [= <- <-].
    + destruct (Publishing.updateScheduleEntry W r _) as [[[]|m'] st2] eqn:Hupd;
        apply Hhandler in Hupd; intros [= <- <-]; by eapply rowsKept_trans.
  - destruct (Publishing.updateScheduleEntry W r _) as [[[]|m'] st2] eqn:Hupd;
      apply Hhandler in Hupd; by intros [= <- <-].
Qed.

Lemma for_of_publishOne_rowsKept (W : Publishing.World) (l : list nat)
      (st st' : Publishing.Agent) (o : outcome unit) :
  Js.for_of l (Publishing.publishOne W) st = (o, st') -> Views.rowsKept st st'.
Proof.
  revert st. induction l as [|r l IH]; intros st; simpl.
  - intros [= <- <-]. apply rowsKept_refl.
  - run_M.
    destruct (Publishing.publishOne W r st) as [[[]|m] st1] eqn:Hone;
      apply publishOne_rowsKept in Hone.
    + intros Hrest. apply IH in Hrest. by eapply rowsKept_trans.
    + by intros [= <- <-].
Qed.

(** X9. The agent never rewrites what it has stored about the schedule of an
    entry: pausing, resuming (with or without a new time), emergency
    publishing (with or without a delay), publishing and draining all keep
    every stored row, with its [publish_time], [production_id], [title],
    [priority] and [metadata] as inserted. *)
Theorem stored_schedule_is_never_rewritten (W : Publishing.World) (st : Publishing.Agent) :
  (forall contentId,
      Views.rowsKept st (Publishing.after (Publishing.pauseScheduledContent W contentId) st)) /\
  (forall contentId newPublishTime,
      Views.rowsKept st
        (Publishing.after (Publishing.resumeScheduledContent W contentId newPublishTime) st)) /\
  (forall contentId delayMinutes,
      Views.rowsKept st
        (Publishing.after (Publishing.emergencyPublish W contentId delayMinutes) st)) /\
  (forall contentId,
      Views.rowsKept st (Publishing.after (Publishing.publishContent W contentId) st)) /\
  Views.rowsKept st (Publishing.after (Publishing.processPublishQueue W) st).
Proof.
  unfold Publishing.after.
  split; [|split; [|split; [|split]]].
  - intros contentId.
    unfold Publishing.pauseScheduledContent, Publishing.assign. run_M.
    destruct (Publishing.find st contentId (Publishing.publishQueue st)) as [r|];
      [|apply rowsKept_refl].
    run_M.
    destruct (Publishing.updateScheduleEntry W r _) as [[[]|m] st1] eqn:Hupd;
      by apply updateScheduleEntry_rowsKept in Hupd.
  - intros contentId newPublishTime.
    unfold Publishing.resumeScheduledContent, Publishing.assign. run_M.
    destruct (Publishing.find st contentId (Publishing.publishQueue st)) as [r|];
      [|apply rowsKept_refl].
    destruct newPublishTime as [t|]; run_M;
      destruct (Publishing.updateScheduleEntry W r _) as [[[]|m] st1] eqn:Hupd;
      by apply updateScheduleEntry_rowsKept in Hupd.
  - intros contentId delayMinutes.
    unfold Publishing.emergencyPublish, Publishing.assign. run_M.
    destruct (Publishing.find st contentId (Publishing.publishQueue st)) as [r|];
      [|apply rowsKept_refl].
    destruct (0 <? delayMinutes).
    + run_M.
      destruct (Publishing.updateScheduleEntry W r _) as [[[]|m] st1] eqn:Hupd;
        by apply updateScheduleEntry_rowsKept in Hupd.
    + destruct (Publishing.publishContent W contentId st) as [o st1] eqn:Hpub.
      by apply publishContent_rowsKept in Hpub.
  - intros contentId.
    destruct (Publishing.publishContent W contentId st) as [o st1] eqn:Hpub.
    by apply publishContent_rowsKept in Hpub.
  - unfold Publishing.processPublishQueue. run_M.
    destruct (Js.for_of _ _ st) as [[[]|m] st1] eqn:Hrun;
      by apply for_of_publishOne_rowsKept in Hrun.
Qed.

(** X10. Rescheduling happens in memory only. After a successful
    [resumeScheduledContent(id, newTime)] the entry is ['scheduled'] for the
    new time in the queue, and its stored row is ['scheduled'] too but still
    carries the publish time it was inserted with. *)
Theorem resumed_time_is_not_persisted
        (W : Publishing.World) (contentId id : string) (t : Z)
        (st st' : Publishing.Agent) (r : nat)
        (e : Publishing.PublishEntry) (row : Publishing.ScheduleRow) :
  Publishing.resumeScheduledContent W contentId (Some t) st = (Ok r, st') ->
  Publishing.heap st !! r = Some e ->
  Publishing.entry_id e = Some id ->
  Publishing.publish_schedule st !! id = Some row ->
  exists (e' : Publishing.PublishEntry) (row' : Publishing.ScheduleRow),
    Publishing.heap st' !! r = Some e' /\
    Publishing.publishTime e' = t /\
    Publishing.status e' = Publishing.scheduled /\
    Publishing.publish_schedule st' !! id = Some row' /\
    Publishing.row_status row' = Publishing.scheduled /\
    Publishing.row_publish_time row' = Publishing.row_publish_time row.
Proof.
  unfold Publishing.resumeScheduledContent, Publishing.assign,
    Publishing.updateScheduleEntry, Publishing.deref.
  run_M.
  destruct (Publishing.find st contentId (Publishing.publishQueue st)) as [r0|];
    [|discriminate].
  run_M. rewrite !lookup_alter_eq.
  destruct (Publishing.heap st !! r0) as [e0|] eqn:He0; simpl; [|discriminate].
  destruct (Publishing.update_rejected W _); [discriminate|].
  destruct (Publishing.entry_id e0) as [id0|] eqn:Hid0; run_M;
    intros [= <- <-] He Hid Hrow; rewrite He0 in He; injection He as <-;
    [|congruence].
  assert (id0 = id) as -> by congruence.
  unfold Publishing.with_table, Publishing.with_heap; simpl.
  rewrite !lookup_alter_eq, He0, Hrow. simpl.
  eexists _, _. repeat split; reflexivity.
Qed.

Lemma resumed_time_is_not_persisted_witness :
  Publishing.timeOf Scenario.rescheduled 0%nat = 30 /\
  Publishing.row_publish_time
    <$> Publishing.publish_schedule Scenario.rescheduled !! "schedule_1" = Some 10.
Proof.
  destruct (resumed_time_is_not_persisted
              (Scenario.host 5 "" []) "prod_A" "schedule_1" 30
              (Publishing.after (Publishing.pauseScheduledContent (Scenario.host 5 "" [])
                                                                  "prod_A")
                                Scenario.twoQueued)
              Scenario.rescheduled 0%nat
              (Publishing.set_status Publishing.paused
                 (Publishing.set_id "schedule_1"
                    (Publishing.newScheduleEntry (Scenario.host 0 "schedule_1" [])
                       (Scenario.item "prod_A" 10 Production.ready))))
              (Publishing.mkRow "prod_A" "Ten tips" 10 Publishing.paused 50
                 (Publishing.metadata
                    (Publishing.newScheduleEntry (Scenario.host 0 "schedule_1" [])
                       (Scenario.item "prod_A" 10 Production.ready)))
                 None None None None))
    as (e' & row' & He' & Ht & _ & Hrow' & _ & Hrt);
    [vm_compute; reflexivity..|].
  split.
  - unfold Publishing.timeOf. rewrite He'. exact Ht.
  - rewrite Hrow'. simpl. f_equal. exact Hrt.
Defined.

(** ** The generation gate, continued *)

Lemma div_at_least (a b c : Z) : 0 < b -> (c <=? a / b) = (c * b <=? a).
Proof.
  intros Hb.
  destruct (Z.leb_spec c (a / b)), (Z.leb_spec (c * b) a); try done.
  - pose proof (Z.mul_div_le a b Hb). nia.
  - assert (c <= a / b) by (apply Z.div_le_lower_bound; lia). lia.
Qed.

(** X11. As long as no last generation is on record, the gate is exactly
    "fewer upcoming entries than buffer days". The buffer is 3 when the
    setting is missing, does not start with a number, or is zero; and a
    negative buffer closes the gate for every queue. *)
Theorem gate_without_history (W : Automation.World) (agent : Publishing.Agent) :
  (Automation.getSetting W "last_content_generation" = None ->
   Automation.shouldGenerateContentToday W agent
   = (Gate.upcomingCount W agent <? Automation.bufferDaysOf W)) /\
  (Automation.getSetting W "content_buffer_days" ≫= Automation.parseInt = None \/
   Automation.getSetting W "content_buffer_days" ≫= Automation.parseInt = Some 0 ->
   Automation.bufferDaysOf W = 3) /\
  (forall n : Z,
      Automation.getSetting W "content_buffer_days" ≫= Automation.parseInt = Some n ->
      n < 0 ->
      Automation.shouldGenerateContentToday W agent = false).
Proof.
  split; [|split].
  - intros Hlast. unfold Automation.shouldGenerateContentToday, Gate.upcomingCount.
    rewrite Hlast.
    destruct (Z.leb_spec (Automation.bufferDaysOf W)
                (Z.of_nat (length (Publishing.getUpcomingSchedule
                                     (Automation.publishing W) 3 agent))));
      symmetry; [apply Z.ltb_ge|apply Z.ltb_lt]; lia.
  - unfold Automation.bufferDaysOf. by intros [-> | ->].
  - intros n Hn Hneg. apply gate_closed_when_buffer_full.
    unfold Automation.bufferDaysOf. rewrite Hn.
    destruct n; lia.
Qed.

Lemma gate_without_history_witness :
  Automation.shouldGenerateContentToday (Scenario.morning "-1") Publishing.initial = false.
Proof.
  apply (gate_without_history (Scenario.morning "-1") Publishing.initial) with (n := -1).
  - vm_compute. reflexivity.
  - lia.
Defined.

(** X12. With room in the buffer and a last generation on record, the
    posting frequency decides by elapsed time: ['daily'] (also the default)
    needs one full day (86 400 000 ms), ['every-2-days'] two, ['weekly']
    seven; ['3-per-week'] needs two full days or a Monday, Wednesday or
    Friday; any other frequency always generates. A recorded date that does
    not parse counts as no time elapsed. *)
Theorem posting_frequency_thresholds
        (W : Automation.World) (agent : Publishing.Agent) (last : string) :
  Gate.upcomingCount W agent < Automation.bufferDaysOf W ->
  Automation.getSetting W "last_content_generation" = Some last ->
  last <> "" ->
  (Automation.getSetting W "posting_frequency" ∈ [None; Some ""; Some "daily"] ->
   (Automation.shouldGenerateContentToday W agent = true <->
    Gate.elapsedAtLeast W last 86400000)) /\
  (Automation.getSetting W "posting_frequency" = Some "every-2-days" ->
   (Automation.shouldGenerateContentToday W agent = true <->
    Gate.elapsedAtLeast W last 172800000)) /\
  (Automation.getSetting W "posting_frequency" = Some "weekly" ->
   (Automation.shouldGenerateContentToday W agent = true <->
    Gate.elapsedAtLeast W last 604800000)) /\
  (Automation.getSetting W "posting_frequency" = Some "3-per-week" ->
   (Automation.shouldGenerateContentToday W agent = true <->
    Gate.elapsedAtLeast W last 172800000 \/ Automation.getDay W ∈ [1; 3; 5])) /\
  (Automation.getSetting W "posting_frequency"
     ∉ [None; Some ""; Some "daily"; Some "every-2-days"; Some "3-per-week"; Some "weekly"] ->
   Automation.shouldGenerateContentToday W agent = true).
Proof.
  intros Hroom Hlast Hne.
  assert (Hat : forall c, 0 <= c ->
    Automation.at_least
      ((fun lastDate => (Automation.today W - lastDate) / (1000 * 60 * 60 * 24))
         <$> Automation.parseDate W last) c = true
    <-> Gate.elapsedAtLeast W last (c * 86400000)).
  { intros c Hc. unfold Automation.at_least, Gate.elapsedAtLeast, Gate.elapsed.
    destruct (Automation.parseDate W last) as [d|]; simpl.
    - change (1000 * 60 * 60 * 24) with 86400000.
      rewrite div_at_least by lia. rewrite Z.leb_le.
      split; [intros H; eexists; split; [reflexivity|lia]|].
      intros (x & [= <-] & Hx). lia.
    - split; [discriminate|]. by intros (x & [=] & _). }
  unfold Automation.shouldGenerateContentToday.
  unfold Gate.upcomingCount in Hroom.
  destruct (Z.leb_spec (Automation.bufferDaysOf W)
              (Z.of_nat (length (Publishing.getUpcomingSchedule
                                   (Automation.publishing W) 3 agent)))); [lia|].
  rewrite Hlast.
  destruct last as [|c0 last0]; [done|].
  split; [|split; [|split; [|split]]].
  - rewrite !elem_of_cons, elem_of_nil.
    intros [->|[->|[->|[]]]]; exact (Hat 1 ltac:(lia)).
  - intros ->. exact (Hat 2 ltac:(lia)).
  - intros ->. exact (Hat 7 ltac:(lia)).
  - intros ->.
    change (Automation.at_least
              ((fun lastDate => (Automation.today W - lastDate) / (1000 * 60 * 60 * 24))
                 <$> Automation.parseDate W (String c0 last0)) 2
            || bool_decide (Automation.getDay W ∈ [1; 3; 5]) = true
            <-> Gate.elapsedAtLeast W (String c0 last0) 172800000
                \/ Automation.getDay W ∈ [1; 3; 5]).
    rewrite orb_true_iff, bool_decide_eq_true. by rewrite (Hat 2) by lia.
  - intros Hf.
    rewrite !elem_of_cons, elem_of_nil in Hf.
    destruct (Automation.getSetting W "posting_frequency") as [f|];
      [|exfalso; apply Hf; auto].
    destruct (decide (f = "")) as [->|]; [exfalso; apply Hf; auto|].
    assert (match f with "" => "daily" | _ => f end = f) as -> by (by destruct f).
    rewrite !bool_decide_false; [done|..]; intros ->; apply Hf; auto 10.
Qed.

Lemma posting_frequency_thresholds_witness :
  Automation.shouldGenerateContentToday
    (Gate.weekly "2024-01-01" 0 (7 * 86400000)) Publishing.initial = true.
Proof.
  destruct (posting_frequency_thresholds
              (Gate.weekly "2024-01-01" 0 (7 * 86400000)) Publishing.initial "2024-01-01")
    as (_ & _ & Hweekly & _).
  - vm_compute. reflexivity.
  - vm_compute. reflexivity.
  - discriminate.
  - apply Hweekly; [vm_compute; reflexivity|].
    exists (7 * 86400000). split; [vm_compute; reflexivity|lia].
Defined.

(** ** What one drain does to the queue *)

Lemma publishContent_found (W : Publishing.World) (contentId : string)
      (st : Publishing.Agent) (r : nat) (e : Publishing.PublishEntry) :
  Publishing.find st contentId (Publishing.publishQueue st) = Some r ->
  Publishing.heap st !! r = Some e ->
  Publishing.publishContent W contentId st
  = match Publishing.uploadToYouTube W e with
    | Throw m => (Throw m, st)
    | Ok videoId =>
        match Publishing.updateScheduleEntry W r
                (Publishing.with_heap
                   (alter (Publishing.set_published (Publishing.clock W) videoId) r) st) with
        | (Ok _, st2) =>
            (Ok r, Publishing.with_queue
                     (List.filter (Publishing.otherId st2 (Publishing.entry_id e))) st2)
        | (Throw m, st2) => (Throw m, st2)
        end
    end.
Proof.
  intros Hfind He. unfold Publishing.publishContent. run_M. rewrite Hfind.
  unfold Publishing.deref at 1. rewrite He.
  destruct (Publishing.uploadToYouTube W e); [|done].
  unfold Publishing.assign. run_M.
  by destruct (Publishing.updateScheduleEntry W r _) as [[[]|m] st2].
Qed.

Lemma find_first (st : Publishing.Agent) (p : string) (l : list nat) (r : nat) :
  NoDup (map (Views.pidOf st) l) ->
  (forall x, In x l -> Views.idOf st x <> Some (Some p)) ->
  In r l ->
  Views.pidOf st r = Some p ->
  Publishing.find st p l = Some r.
Proof.
  induction l as [|x l IH]; simpl; [done|].
  rewrite NoDup_cons. intros [Hx Hnd] Hids [->|Hin] Hp.
  - unfold Views.pidOf in Hp.
    destruct (Publishing.heap st !! r) as [e|]; [|done]. simpl in *.
    injection Hp as Hp. unfold Publishing.matches.
    by rewrite (bool_decide_true _ Hp).
  - assert (Hmiss : from_option (Publishing.matches p) false (Publishing.heap st !! x) = false).
    { pose proof (Hids x (or_introl eq_refl)) as Hid.
      unfold Views.idOf in Hid.
      destruct (Publishing.heap st !! x) as [ex|] eqn:Hex; [|done]. simpl in *.
      unfold Publishing.matches.
      rewrite (bool_decide_false (Publishing.entry_id ex = Some p)) by congruence.
      rewrite bool_decide_false; [done|].
      intros Hpx. apply Hx. unfold Views.pidOf at 1. rewrite Hex. simpl. rewrite Hpx, <- Hp.
      apply list_elem_of_In, in_map. done. }
    rewrite Hmiss. apply IH; auto.
Qed.

Lemma find_self (st : Publishing.Agent) (r : nat) (e : Publishing.PublishEntry) :
  Views.keyed st ->
  In r (Publishing.publishQueue st) ->
  Publishing.heap st !! r = Some e ->
  Publishing.find st (Publishing.productionId e) (Publishing.publishQueue st) = Some r.
Proof.
  intros (_ & Hpids & _ & Hcross) Hin He.
  assert (Hp : Views.pidOf st r = Some (Publishing.productionId e))
    by (unfold Views.pidOf; by rewrite He).
  apply find_first; auto.
  intros x Hx. by apply (Hcross r x).
Qed.

Lemma filter_true {A} (l : list A) : List.filter (fun _ => true) l = l.
Proof. induction l; simpl; congruence. Qed.

Lemma NoDup_map_filter {A B} (f : A -> B) (P : A -> bool) (l : list A) :
  NoDup (map f l) -> NoDup (map f (List.filter P l)).
Proof.
  induction l as [|x l IH]; simpl; [done|].
  rewrite NoDup_cons. intros [Hx Hnd].
  destruct (P x); simpl; [|auto].
  apply NoDup_cons. split; [|auto].
  intros Hin. apply Hx. apply list_elem_of_In in Hin. apply list_elem_of_In.
  apply in_map_iff in Hin as (y & Hy & Hin). apply in_map_iff.
  exists y. split; [done|]. by apply filter_In in Hin as [? _].
Qed.

(** Changing fields other than production id and id, and dropping entries
    from the queue, keeps content ids unambiguous. *)
Lemma keyed_step (st st' : Publishing.Agent) (P : nat -> bool) :
  Views.keyed st ->
  (forall x, Views.pidOf st' x = Views.pidOf st x) ->
  (forall x, Views.idOf st' x = Views.idOf st x) ->
  Publishing.publishQueue st' = List.filter P (Publishing.publishQueue st) ->
  Views.keyed st'.
Proof.
  intros (Halloc & Hpids & Hids & Hcross) Hp Hi Hq.
  unfold Views.keyed. rewrite Hq.
  split; [|split; [|split]].
  - unfold Publishing.allocated in *. rewrite Hq.
    rewrite List.Forall_forall in *. intros x Hx.
    apply filter_In in Hx as [Hx _]. apply Halloc in Hx.
    specialize (Hp x). unfold Views.pidOf in Hp.
    destruct (Publishing.heap st' !! x); [by eexists|].
    destruct Hx as [e He]. by rewrite He in Hp.
  - erewrite map_ext; [|exact Hp]. by apply NoDup_map_filter.
  - erewrite map_ext; [|exact Hi]. by apply NoDup_map_filter.
  - intros r r' p Hr Hr'. rewrite Hp, Hi.
    apply filter_In in Hr as [Hr _]. apply filter_In in Hr' as [Hr' _].
    by apply Hcross.
Qed.

Lemma otherId_filter (st st2 : Publishing.Agent) (r : nat) (e e' : Publishing.PublishEntry) :
  NoDup (map (Views.idOf st) (Publishing.publishQueue st)) ->
  In r (Publishing.publishQueue st) ->
  Publishing.heap st !! r = Some e ->
  Publishing.entry_id e' = Publishing.entry_id e ->
  Publishing.heap st2 = <[r := e']> (Publishing.heap st) ->
  List.filter (Publishing.otherId st2 (Publishing.entry_id e)) (Publishing.publishQueue st)
  = List.filter (fun x => bool_decide (x <> r)) (Publishing.publishQueue st).
Proof.
  intros Hids Hin He Hid Hheap. apply filter_ext_in. intros x Hx.
  unfold Publishing.otherId. rewrite Hheap.
  destruct (decide (x = r)) as [->|Hne].
  - rewrite lookup_insert_eq. simpl. rewrite Hid.
    rewrite bool_decide_false by (intros H; by apply H).
    by rewrite bool_decide_false by (intros H; by apply H).
  - rewrite lookup_insert_ne by done.
    rewrite (bool_decide_true (x <> r)) by done.
    apply bool_decide_true. intros Heq. apply Hne.
    apply (NoDup_map_inj _ _ _ _ Hids Hx Hin).
    unfold Views.idOf. by rewrite Heq, He.
Qed.

(** One turn of the drain loop on a queued entry. *)
Lemma publishOne_step (W : Publishing.World) (st : Publishing.Agent) (r : nat)
      (e : Publishing.PublishEntry) :
  (forall x, Publishing.status x = Publishing.failed ->
             Publishing.update_rejected W x = None) ->
  Views.keyed st ->
  In r (Publishing.publishQueue st) ->
  Publishing.heap st !! r = Some e ->
  exists (st' : Publishing.Agent) (e' : Publishing.PublishEntry),
    Publishing.publishOne W r st = (Ok tt, st') /\
    Publishing.heap st' = <[r := e']> (Publishing.heap st) /\
    Publishing.productionId e' = Publishing.productionId e /\
    Publishing.entry_id e' = Publishing.entry_id e /\
    Publishing.publishTime e' = Publishing.publishTime e /\
    ((Publishing.status e' = Publishing.published /\
      Publishing.publishQueue st'
      = List.filter (fun x => bool_decide (x <> r)) (Publishing.publishQueue st)) \/
     (Publishing.status e' = Publishing.failed /\
      Publishing.publishQueue st' = Publishing.publishQueue st)) /\
    Views.settled W e e'.
Proof.
  intros Hstore Hkeyed Hin He.
  pose proof (find_self st r e Hkeyed Hin He) as Hfind.
  destruct Hkeyed as (_ & _ & Hids & _).
  unfold Publishing.publishOne, Js.try_catch, Publishing.autoPublish.
  run_M. unfold Publishing.deref at 1. rewrite He.
  rewrite (publishContent_found W _ st r e Hfind He).
  assert (Hfail : forall (s : Publishing.Agent) (m : string) (e1 : Publishing.PublishEntry),
    Publishing.heap s = <[r := e1]> (Publishing.heap st) ->
    Publishing.publishQueue s = Publishing.publishQueue st ->
    exists s',
      Publishing.markFailed W r m s = (Ok tt, s') /\
      Publishing.heap s'
      = <[r := Publishing.set_error m (Publishing.set_status Publishing.failed e1)]>
          (Publishing.heap st) /\
      Publishing.publishQueue s' = Publishing.publishQueue st).
  { intros s m e1 Hs Hq.
    unfold Publishing.markFailed, Publishing.assign. run_M.
    destruct (Publishing.updateScheduleEntry W r _) as [o s'] eqn:Hupd.
    pose proof (updateScheduleEntry_frame _ _ _ _ _ Hupd) as (Hh & Hq' & _).
    simpl in Hh, Hq'.
    assert (Hheap : Publishing.heap s'
                    = <[r := Publishing.set_error m
                               (Publishing.set_status Publishing.failed e1)]>
                        (Publishing.heap st)).
    { rewrite Hh, Hs, !alter_insert_eq. done. }
    revert Hupd. unfold Publishing.updateScheduleEntry, Publishing.deref. run_M.
    rewrite Hs, !alter_insert_eq, lookup_insert_eq.
    rewrite Hstore by done.
    destruct (Publishing.entry_id _); run_M; intros [= <- <-];
      eexists; (split; [reflexivity|]); simpl; by rewrite ?Hs, ?alter_insert_eq, ?Hq. }
  destruct (Publishing.uploadToYouTube W e) as [videoId|m] eqn:Hup.
  - destruct (Publishing.updateScheduleEntry W r _) as [[[]|m] st2] eqn:Hupd;
      pose proof (updateScheduleEntry_frame _ _ _ _ _ Hupd) as (Hh & Hq & _);
      simpl in Hh, Hq; rewrite (alter_alt_Some _ _ _ _ He) in Hh.
    + run_M. eexists _, _. split; [reflexivity|]. simpl.
      split; [exact Hh|]. do 3 (split; [reflexivity|]).
      split.
      * left. split; [reflexivity|]. rewrite Hq.
        by apply (otherId_filter st st2 r e
                    (Publishing.set_published (Publishing.clock W) videoId e)
                    Hids Hin He eq_refl Hh).
      * unfold Views.settled. rewrite Hup. repeat split. by left.
    + destruct (Hfail st2 m _ Hh Hq) as (s' & Hrun & Hheap & Hqueue).
      exists s'. eexists. split; [exact Hrun|]. split; [exact Hheap|].
      do 3 (split; [reflexivity|]). split; [right; by split|].
      unfold Views.settled. rewrite Hup. repeat split. right. split; [done|].
      exists m. split; [|done].
      revert Hupd. unfold Publishing.updateScheduleEntry, Publishing.deref. run_M.
      rewrite lookup_alter_eq, He. simpl.
      destruct (Publishing.update_rejected W _); [by intros [= <- <-]|].
      destruct (Publishing.entry_id e); run_M; discriminate.
  - destruct (Hfail st m e) as (s' & Hrun & Hheap & Hqueue);
      [by rewrite insert_id|done|].
    exists s'. eexists. split; [exact Hrun|]. split; [exact Hheap|].
    do 3 (split; [reflexivity|]). split; [right; by split|].
    unfold Views.settled. by rewrite Hup.
Qed.

Lemma keyed_allocated (st : Publishing.Agent) (r : nat) :
  Views.keyed st -> In r (Publishing.publishQueue st) ->
  exists e, Publishing.heap st !! r = Some e.
Proof.
  intros (Halloc & _) Hin. unfold Publishing.allocated in Halloc.
  rewrite List.Forall_forall in Halloc. by apply Halloc in Hin as [e He]; eauto.
Qed.

(** The drain loop over a duplicate-free list of queued entries. *)
Lemma drain_loop (W : Publishing.World) (l : list nat) :
  (forall x, Publishing.status x = Publishing.failed ->
             Publishing.update_rejected W x = None) ->
  forall st : Publishing.Agent,
    Views.keyed st ->
    NoDup l ->
    (forall x, In x l -> In x (Publishing.publishQueue st)) ->
    exists st' : Publishing.Agent,
      Js.for_of l (Publishing.publishOne W) st = (Ok tt, st') /\
      Views.keyed st' /\
      (forall x, ~ In x l -> Publishing.heap st' !! x = Publishing.heap st !! x) /\
      (forall x, In x l ->
         exists e e' : Publishing.PublishEntry,
           Publishing.heap st !! x = Some e /\
           Publishing.heap st' !! x = Some e' /\
           Publishing.productionId e' = Publishing.productionId e /\
           Publishing.publishTime e' = Publishing.publishTime e /\
           ((Publishing.status e' = Publishing.published /\
             ~ In x (Publishing.publishQueue st')) \/
            (Publishing.status e' = Publishing.failed /\
             In x (Publishing.publishQueue st'))) /\
           Views.settled W e e') /\
      (forall x, In x (Publishing.publishQueue st) -> ~ In x l ->
                 In x (Publishing.publishQueue st')) /\
      (exists P, Publishing.publishQueue st' = List.filter P (Publishing.publishQueue st)).
Proof.
  intros Hstore. induction l as [|r l IH]; intros st Hkeyed Hnd Hl.
  - exists st. simpl. split; [done|]. split; [done|]. split; [done|].
    split; [done|]. split; [done|]. exists (fun _ => true). by rewrite filter_true.
  - apply NoDup_cons in Hnd as [Hr Hnd].
    assert (Hin : In r (Publishing.publishQueue st)) by (apply Hl; by left).
    destruct (keyed_allocated st r Hkeyed Hin) as [e He].
    destruct (publishOne_step W st r e Hstore Hkeyed Hin He)
      as (st1 & e1 & Hrun & Hheap & Hpid & Hid & Htime & Hcase & Hsettled).
    assert (Hq1 : exists P1,
               Publishing.publishQueue st1 = List.filter P1 (Publishing.publishQueue st) /\
               forall x, x <> r -> P1 x = true).
    { destruct Hcase as [[_ Hq]|[_ Hq]].
      - exists (fun x => bool_decide (x <> r)). split; [done|].
        intros x Hx. by apply bool_decide_true.
      - exists (fun _ => true). by rewrite filter_true. }
    destruct Hq1 as (P1 & Hq1 & HP1).
    assert (Hkeyed1 : Views.keyed st1).
    { apply (keyed_step st st1 P1 Hkeyed); [| |done].
      - intros x. unfold Views.pidOf. rewrite Hheap.
        destruct (decide (r = x)) as [<-|Hne].
        + by rewrite lookup_insert_eq, He; simpl; rewrite Hpid.
        + by rewrite lookup_insert_ne.
      - intros x. unfold Views.idOf. rewrite Hheap.
        destruct (decide (r = x)) as [<-|Hne].
        + by rewrite lookup_insert_eq, He; simpl; rewrite Hid.
        + by rewrite lookup_insert_ne. }
    assert (Hkeep : forall x, In x (Publishing.publishQueue st) -> x <> r ->
                              In x (Publishing.publishQueue st1)).
    { intros x Hx Hne. rewrite Hq1. apply filter_In. split; [done|]. by apply HP1. }
    destruct (IH st1 Hkeyed1 Hnd) as (st' & Hrun' & Hkeyed' & Hsame & Hdone & Hstay & P2 & Hq2).
    { intros x Hx. apply Hkeep; [apply Hl; by right|].
      intros ->. by apply Hr, list_elem_of_In. }
    exists st'. split; [simpl; run_M; by rewrite Hrun|].
    split; [done|].
    assert (Hr' : ~ In r l) by (intros H; by apply Hr, list_elem_of_In).
    split; [|split; [|split]].
    + intros x Hx. rewrite Hsame by (intros H; apply Hx; by right).
      rewrite Hheap, lookup_insert_ne; [done|]. intros ->. apply Hx. by left.
    + intros x [<-|Hx].
      * exists e, e1. split; [done|].
        split; [by rewrite Hsame, Hheap, lookup_insert_eq|].
        split; [done|]. split; [done|]. split; [|done].
        destruct Hcase as [[Hst Hq]|[Hst Hq]].
        -- left. split; [done|]. intros Hr2.
           rewrite Hq2 in Hr2. apply filter_In in Hr2 as [Hr2 _].
           rewrite Hq in Hr2. apply filter_In in Hr2 as [_ Hr2].
           apply bool_decide_eq_true in Hr2. by apply Hr2.
        -- right. split; [done|]. apply Hstay; [|done]. by rewrite Hq.
      * destruct (Hdone x Hx) as (e0 & e' & He0 & He' & Hp' & Ht' & Hc' & Hs').
        exists e0, e'. split; [|done].
        rewrite Hheap, lookup_insert_ne in He0; [done|].
        intros ->. by apply Hr'.
    + intros x Hx Hnot. apply Hstay.
      * apply Hkeep; [done|]. intros ->. apply Hnot. by left.
      * intros H. apply Hnot. by right.
    + exists (fun x => P1 x && P2 x). rewrite Hq2, Hq1.
      clear. induction (Publishing.publishQueue st) as [|x q IHq]; simpl; [done|].
      destruct (P1 x); simpl; [|done]. destruct (P2 x); simpl; by rewrite IHq.
Qed.

Lemma keyed_NoDup_queue (st : Publishing.Agent) :
  Views.keyed st -> NoDup (Publishing.publishQueue st).
Proof. intros (_ & Hp & _). by apply NoDup_map_NoDup in Hp. Qed.

Lemma NoDup_filter_list {A} (P : A -> bool) (l : list A) : NoDup l -> NoDup (List.filter P l).
Proof.
  intros H. rewrite <- (map_id (List.filter P l)). apply NoDup_map_filter.
  by rewrite map_id.
Qed.

(** What a drain of a keyed queue does, for a store that accepts the update
    of failed entries. *)
Lemma drain_keyed (W : Publishing.World) (st : Publishing.Agent) :
  (forall x, Publishing.status x = Publishing.failed ->
             Publishing.update_rejected W x = None) ->
  Views.keyed st ->
  exists st' : Publishing.Agent,
    Publishing.processPublishQueue W st = (Ok (length (Views.dueNow W st)), st') /\
    Views.keyed st' /\
    (forall x, ~ In x (Views.dueNow W st) ->
               Publishing.heap st' !! x = Publishing.heap st !! x) /\
    (forall x, In x (Views.dueNow W st) ->
       exists e e' : Publishing.PublishEntry,
         Publishing.heap st !! x = Some e /\
         Publishing.heap st' !! x = Some e' /\
         Publishing.productionId e' = Publishing.productionId e /\
         Publishing.publishTime e' = Publishing.publishTime e /\
         ((Publishing.status e' = Publishing.published /\
           ~ In x (Publishing.publishQueue st')) \/
          (Publishing.status e' = Publishing.failed /\
           In x (Publishing.publishQueue st'))) /\
         Views.settled W e e') /\
    (forall x, In x (Publishing.publishQueue st) -> ~ In x (Views.dueNow W st) ->
               In x (Publishing.publishQueue st')) /\
    (exists P, Publishing.publishQueue st' = List.filter P (Publishing.publishQueue st)).
Proof.
  intros Hstore Hkeyed.
  destruct (drain_loop W (Views.dueNow W st) Hstore st Hkeyed)
    as (st' & Hrun & Hrest).
  - apply NoDup_filter_list. by apply keyed_NoDup_queue.
  - intros x Hx. by apply filter_In in Hx as [? _].
  - exists st'. split; [|exact Hrest].
    unfold Publishing.processPublishQueue. run_M.
    unfold Views.dueNow in Hrun. by rewrite Hrun.
Qed.

Lemma keyed_twoQueued : Views.keyed Scenario.twoQueued.
Proof.
  split; [repeat constructor; vm_compute; eauto|].
  split; [apply (bool_decide_eq_true_1 _); vm_compute; reflexivity|].
  split; [apply (bool_decide_eq_true_1 _); vm_compute; reflexivity|].
  intros r r' p Hr Hr' Hp Hid.
  assert (Hq : Publishing.publishQueue Scenario.twoQueued = [0%nat; 1%nat])
    by (vm_compute; reflexivity).
  rewrite Hq in Hr, Hr'.
  destruct Hr as [<-|[<-|[]]]; destruct Hr' as [<-|[<-|[]]];
    vm_compute in Hp; vm_compute in Hid; congruence.
Qed.

(** X13. In a queue whose content ids are unambiguous, and with a store that
    accepts the update of failed entries, one drain touches the due entries
    only: every object that is not due is left as it was and every queued
    entry that is not due stays queued, in the same order. Each due entry
    keeps its production and publish time and ends either ['published'] and
    out of the queue, or ['failed'] and still queued; it is ['failed'] with
    the upload's message whenever the upload threw. *)
Theorem drain_touches_only_due_entries (W : Publishing.World) (st : Publishing.Agent) :
  (forall x, Publishing.status x = Publishing.failed ->
             Publishing.update_rejected W x = None) ->
  Views.keyed st ->
  exists st' : Publishing.Agent,
    Publishing.processPublishQueue W st = (Ok (length (Views.dueNow W st)), st') /\
    (forall x, ~ In x (Views.dueNow W st) ->
               Publishing.heap st' !! x = Publishing.heap st !! x) /\
    (forall x, In x (Views.dueNow W st) ->
       exists e e' : Publishing.PublishEntry,
         Publishing.heap st !! x = Some e /\
         Publishing.heap st' !! x = Some e' /\
         Publishing.productionId e' = Publishing.productionId e /\
         Publishing.publishTime e' = Publishing.publishTime e /\
         ((Publishing.status e' = Publishing.published /\
           ~ In x (Publishing.publishQueue st')) \/
          (Publishing.status e' = Publishing.failed /\
           In x (Publishing.publishQueue st'))) /\
         Views.settled W e e') /\
    (forall x, In x (Publishing.publishQueue st) -> ~ In x (Views.dueNow W st) ->
               In x (Publishing.publishQueue st')) /\
    (exists P, Publishing.publishQueue st' = List.filter P (Publishing.publishQueue st)).
Proof.
  intros Hstore Hkeyed.
  destruct (drain_keyed W st Hstore Hkeyed) as (st' & Hrun & _ & Hrest).
  by exists st'.
Qed.

Lemma drain_touches_only_due_entries_witness :
  exists st' : Publishing.Agent,
    Publishing.processPublishQueue (Scenario.host 15 "" []) Scenario.twoQueued
    = (Ok 1%nat, st') /\
    Publishing.heap st' !! 1%nat = Publishing.heap Scenario.twoQueued !! 1%nat /\
    In 1%nat (Publishing.publishQueue st').
Proof.
  destruct (drain_touches_only_due_entries (Scenario.host 15 "" []) Scenario.twoQueued)
    as (st' & Hrun & Hsame & _ & Hstay & _).
  - intros x _. reflexivity.
  - exact keyed_twoQueued.
  - exists st'. split; [exact Hrun|]. split.
    + apply Hsame. vm_compute. intros [H|[]]. discriminate.
    + apply Hstay; [vm_compute; auto|]. vm_compute. intros [H|[]]. discriminate.
Defined.

Lemma filter_none {A} (P : A -> bool) (l : list A) :
  (forall x, In x l -> P x = false) -> List.filter P l = [].
Proof.
  induction l as [|x l IH]; simpl; [done|]. intros H.
  rewrite (H x) by auto. apply IH. auto.
Qed.

(** X14. Under the same conditions a drain leaves nothing due: a second
    drain at the same time finds no entry to process, returns 0 and changes
    nothing -- an entry that failed is not retried until it is resumed. *)
Theorem second_drain_is_a_no_op (W : Publishing.World) (st : Publishing.Agent) :
  (forall x, Publishing.status x = Publishing.failed ->
             Publishing.update_rejected W x = None) ->
  Views.keyed st ->
  exists st' : Publishing.Agent,
    Publishing.processPublishQueue W st = (Ok (length (Views.dueNow W st)), st') /\
    Views.dueNow W st' = [] /\
    Publishing.processPublishQueue W st' = (Ok 0%nat, st').
Proof.
  intros Hstore Hkeyed.
  destruct (drain_keyed W st Hstore Hkeyed)
    as (st' & Hrun & _ & Hsame & Hdone & _ & P & Hq).
  exists st'. split; [exact Hrun|].
  assert (Hnone : Views.dueNow W st' = []).
  { unfold Views.dueNow. apply filter_none. intros x Hx.
    destruct (in_dec Nat.eq_dec x (Views.dueNow W st)) as [Hdue|Hnot].
    - destruct (Hdone x Hdue) as (e & e' & _ & He' & _ & _ & Hcase & _).
      unfold Publishing.due. rewrite He'. simpl.
      destruct Hcase as [[_ Hout]|[Hst _]]; [done|].
      rewrite Hst. by rewrite andb_false_r.
    - unfold Publishing.due. rewrite (Hsame x Hnot).
      destruct (Publishing.due st (Publishing.clock W) x) eqn:Hd; [|exact Hd].
      exfalso. apply Hnot. apply filter_In. split; [|done].
      rewrite Hq in Hx. by apply filter_In in Hx as [? _]. }
  split; [exact Hnone|].
  unfold Publishing.processPublishQueue. run_M.
  unfold Views.dueNow in Hnone. by rewrite Hnone.
Qed.

Lemma second_drain_is_a_no_op_witness :
  exists st' : Publishing.Agent,
    Publishing.processPublishQueue (Scenario.host 40 "" ["prod_A"]) Scenario.twoQueued
    = (Ok 2%nat, st') /\
    Publishing.processPublishQueue (Scenario.host 40 "" ["prod_A"]) st' = (Ok 0%nat, st').
Proof.
  destruct (second_drain_is_a_no_op (Scenario.host 40 "" ["prod_A"]) Scenario.twoQueued)
    as (st' & Hrun & _ & Hagain).
  - intros x _. reflexivity.
  - exact keyed_twoQueued.
  - exists st'. split; [exact Hrun|exact Hagain].
Defined.

(** X15. An entry scheduled from an item that has no final video can never be
    published: [scheduleContent] copies [assets.finalVideo] into the entry as
    it is, and when such an entry is due the drain marks it ['failed'] and
    keeps it queued, whatever the video host would answer. The recorded error
    is the type error of the missing [path] -- or that of the SEO object when
    reading it throws, because [uploadToYouTube] reads the SEO object
    first. *)
Theorem entry_without_final_video_always_fails
        (W : Publishing.World) (st : Publishing.Agent) (r : nat) (e : Publishing.PublishEntry) :
  (forall x, Publishing.status x = Publishing.failed ->
             Publishing.update_rejected W x = None) ->
  Views.keyed st ->
  In r (Views.dueNow W st) ->
  Publishing.heap st !! r = Some e ->
  Publishing.video (Publishing.metadata e) = None ->
  (forall (W0 : Publishing.World) (item : Production.ProductionItem),
      Publishing.video (Publishing.metadata (Publishing.newScheduleEntry W0 item))
      = Production.a_finalVideo (Production.assets item)) /\
  exists (st' : Publishing.Agent) (e' : Publishing.PublishEntry),
    Publishing.processPublishQueue W st = (Ok (length (Views.dueNow W st)), st') /\
    Publishing.heap st' !! r = Some e' /\
    Publishing.status e' = Publishing.failed /\
    Publishing.error e'
    = Some (match Publishing.seo_error W (Publishing.seo (Publishing.metadata e)) with
            | Some message => message
            | None => "Cannot read properties of undefined (reading 'path')"
            end) /\
    In r (Publishing.publishQueue st').
Proof.
  intros Hstore Hkeyed Hdue He Hvideo.
  split; [reflexivity|].
  destruct (drain_keyed W st Hstore Hkeyed) as (st' & Hrun & _ & _ & Hdone & _).
  destruct (Hdone r Hdue) as (e0 & e' & He0 & He' & _ & _ & Hcase & Hsettled).
  assert (e0 = e) as -> by congruence.
  unfold Views.settled, Publishing.uploadToYouTube in Hsettled.
  rewrite Hvideo in Hsettled.
  assert (Hst : Publishing.status e' = Publishing.failed /\
                Publishing.error e'
                = Some (match Publishing.seo_error W (Publishing.seo (Publishing.metadata e))
                        with
                        | Some message => message
                        | None => "Cannot read properties of undefined (reading 'path')"
                        end))
    by (by destruct (Publishing.seo_error W _)).
  clear Hsettled. destruct Hst as [Hst Herr].
  exists st', e'. split; [exact Hrun|]. split; [exact He'|].
  split; [exact Hst|]. split; [exact Herr|].
  destruct Hcase as [[Hpub _]|[_ Hin]]; [congruence|exact Hin].
Qed.

Lemma entry_without_final_video_always_fails_witness :
  exists (st' : Publishing.Agent) (e' : Publishing.PublishEntry),
    Publishing.processPublishQueue (Scenario.host 40 "" []) Unfinished.queued
    = (Ok 1%nat, st') /\
    Publishing.heap st' !! 0%nat = Some e' /\
    Publishing.status e' = Publishing.failed.
Proof.
  destruct (entry_without_final_video_always_fails
              (Scenario.host 40 "" []) Unfinished.queued 0%nat
              (Publishing.set_id "schedule_1"
                 (Publishing.newScheduleEntry (Scenario.host 0 "schedule_1" [])
                                              Unfinished.item)))
    as (_ & st' & e' & Hrun & He' & Hst & _).
  - intros x _. reflexivity.
  - split; [repeat constructor; vm_compute; eauto|].
    split; [apply (bool_decide_eq_true_1 _); vm_compute; reflexivity|].
    split; [apply (bool_decide_eq_true_1 _); vm_compute; reflexivity|].
    intros r r' p Hr Hr' Hp Hid.
    assert (Hq : Publishing.publishQueue Unfinished.queued = [0%nat])
      by (vm_compute; reflexivity).
    rewrite Hq in Hr, Hr'.
    destruct Hr as [<-|[]]; destruct Hr' as [<-|[]].
    vm_compute in Hp; vm_compute in Hid; congruence.
  - vm_compute. auto.
  - vm_compute. reflexivity.
  - reflexivity.
  - exists st', e'. split; [exact Hrun|]. split; [exact He'|exact Hst].
Defined.

(** ** The next ready item *)

Lemma head_sort_by {A} (key : A -> Z) (l : list A) (p : A) :
  head (Publishing.sort_by key l) = Some p ->
  exists l1 l2,
    l = l1 ++ p :: l2 /\
    Forall (fun q => key p < key q) l1 /\
    Forall (fun q => key p <= key q) l2.
Proof.
  revert p. induction l as [|x l IH]; intros p; simpl; [done|].
  destruct (Publishing.sort_by key l) as [|y s] eqn:Hsort; simpl.
  - intros [= <-].
    assert (l = []) as ->.
    { apply Permutation_nil. rewrite <- Hsort. apply sort_by_Permutation. }
    exists [], []. by repeat constructor.
  - destruct (IH y eq_refl) as (l1 & l2 & -> & H1 & H2).
    destruct (Z.ltb_spec (key y) (key x)); simpl; intros [= <-].
    + exists (x :: l1), l2. split; [done|]. split; [by constructor|done].
    + exists [], (l1 ++ y :: l2). split; [done|]. split; [constructor|].
      apply Forall_app. split; [|constructor].
      * eapply Forall_impl; [exact H1|]. simpl. intros; lia.
      * lia.
      * eapply Forall_impl; [exact H2|]. simpl. intros; lia.
Qed.

(** X16. [getNextReadyContent] returns [null] exactly when the pipeline has
    no ['ready'] item. Otherwise it returns a ['ready'] item of the pipeline
    whose priority no ready item exceeds, and among ready items of that
    priority the one that comes first in the pipeline. *)
Theorem getNextReadyContent_highest_priority (pipeline : list Production.ProductionItem) :
  (Queries.getNextReadyContent pipeline = None <-> Queries.readyItems pipeline = []) /\
  (forall p : Production.ProductionItem,
      Queries.getNextReadyContent pipeline = Some p ->
      In p pipeline /\
      Production.status p = Production.ready /\
      exists before after,
        Queries.readyItems pipeline = before ++ p :: after /\
        Forall (fun q => Production.priority q < Production.priority p) before /\
        Forall (fun q => Production.priority q <= Production.priority p) after).
Proof.
  unfold Queries.getNextReadyContent, Queries.readyItems.
  set (ready := List.filter _ pipeline).
  split.
  - split.
    + intros Hnone. destruct (Publishing.sort_by _ ready) as [|x s] eqn:Hs; [|done].
      apply Permutation_nil. rewrite <- Hs. apply sort_by_Permutation.
    + by intros ->.
  - intros p Hp.
    destruct (head_sort_by _ _ _ Hp) as (l1 & l2 & Hready & H1 & H2).
    assert (Hin : In p ready) by (rewrite Hready; apply in_or_app; right; by left).
    apply filter_In in Hin as [Hin Hst]. unfold Queries.isReady in Hst.
    destruct (Production.Status_eq_dec _ _) as [Hst'|]; [|done].
    split; [done|]. split; [exact Hst'|].
    exists l1, l2. split; [done|]. split.
    + eapply Forall_impl; [exact H1|]. simpl. intros; lia.
    + eapply Forall_impl; [exact H2|]. simpl. intros; lia.
Qed.

(** ** Settings *)

(** X17. What [setSetting] stores is what [getSetting] reads; the other keys
    are untouched; and a call without description keeps the description the
    key had. *)
Theorem setSetting_getSetting_round_trip
        (now : Z) (key val : string) (desc : option string)
        (table : gmap string Settings.Row) :
  Settings.getSetting (Settings.setSetting now key val desc table) key = Some val /\
  (forall other, other <> key ->
     Settings.setSetting now key val desc table !! other = table !! other) /\
  (Settings.setSetting now key val None table !! key ≫= Settings.description
   = table !! key ≫= Settings.description) /\
  (forall d, Settings.setSetting now key val (Some d) table !! key ≫= Settings.description
             = Some d).
Proof.
  unfold Settings.getSetting, Settings.setSetting.
  split; [by rewrite lookup_insert_eq|].
  split; [by intros other Hne; rewrite lookup_insert_ne|].
  split; [by rewrite lookup_insert_eq|].
  intros d. by rewrite lookup_insert_eq.
Qed.

Lemma insertOrIgnore_keeps (now : Z) (table : gmap string Settings.Row)
      (setting : string * string * string) (key : string) (row : Settings.Row) :
  table !! key = Some row -> Settings.insertOrIgnore now table setting !! key = Some row.
Proof.
  destruct setting as [[k v] d]. simpl. intros Hrow.
  destruct (table !! k) eqn:Hk; [done|].
  rewrite lookup_insert_ne; [done|]. intros ->. congruence.
Qed.

Lemma insertOrIgnore_other (now : Z) (table : gmap string Settings.Row)
      (k v d key : string) :
  k <> key -> Settings.insertOrIgnore now table (k, v, d) !! key = table !! key.
Proof.
  intros Hne. simpl. destruct (table !! k); [done|]. by rewrite lookup_insert_ne.
Qed.

Lemma insertOrIgnore_fresh (now : Z) (table : gmap string Settings.Row) (k v d : string) :
  table !! k = None ->
  Settings.insertOrIgnore now table (k, v, d) !! k = Some (Settings.mkRow v (Some d) now).
Proof. intros Hnone. simpl. rewrite Hnone. by rewrite lookup_insert_eq. Qed.

Lemma fold_insertOrIgnore_keeps (now : Z) (l : list (string * string * string))
      (table : gmap string Settings.Row) (key : string) (row : Settings.Row) :
  table !! key = Some row ->
  fold_left (Settings.insertOrIgnore now) l table !! key = Some row.
Proof.
  revert table. induction l as [|s l IH]; intros table Hrow; simpl; [done|].
  apply IH. by apply insertOrIgnore_keeps.
Qed.

Lemma fold_insertOrIgnore_present (now : Z) (l : list (string * string * string))
      (table : gmap string Settings.Row) (k v d : string) :
  In (k, v, d) l -> is_Some (fold_left (Settings.insertOrIgnore now) l table !! k).
Proof.
  revert table. induction l as [|s l IH]; intros table; simpl; [done|].
  intros [->|Hin]; [|by apply IH].
  simpl. destruct (table !! k) as [row|] eqn:Hk.
  - exists row. by apply fold_insertOrIgnore_keeps.
  - eexists. apply fold_insertOrIgnore_keeps. by rewrite lookup_insert_eq.
Qed.

Lemma fold_insertOrIgnore_id (now : Z) (l : list (string * string * string))
      (table : gmap string Settings.Row) :
  (forall k v d, In (k, v, d) l -> is_Some (table !! k)) ->
  fold_left (Settings.insertOrIgnore now) l table = table.
Proof.
  induction l as [|[[k v] d] l IH]; simpl; [done|]. intros Hall.
  destruct (Hall k v d (or_introl eq_refl)) as [row ->].
  apply IH. intros k' v' d' Hin. apply (Hall k' v' d'). by right.
Qed.

(** X18. [insertDefaultSettings] never overrides a stored setting, makes all
    ten default keys present, and running it again -- at any later time --
    changes nothing. On a table without [content_buffer_days] it stores "3". *)
Theorem insertDefaultSettings_keeps_stored_values
        (now : Z) (table : gmap string Settings.Row) :
  (forall key row, table !! key = Some row ->
     Settings.insertDefaultSettings now table !! key = Some row) /\
  (forall k v d, In (k, v, d) Settings.defaultSettings ->
     is_Some (Settings.insertDefaultSettings now table !! k)) /\
  (forall later,
     Settings.insertDefaultSettings later (Settings.insertDefaultSettings now table)
     = Settings.insertDefaultSettings now table) /\
  (table !! "content_buffer_days" = None ->
   Settings.getSetting (Settings.insertDefaultSettings now table) "content_buffer_days"
   = Some "3").
Proof.
  unfold Settings.insertDefaultSettings.
  split; [intros key row; apply fold_insertOrIgnore_keeps|].
  split; [intros k v d; apply fold_insertOrIgnore_present|].
  split.
  - intros later. apply fold_insertOrIgnore_id.
    intros k v d. apply fold_insertOrIgnore_present.
  - intros Hnone. unfold Settings.getSetting, Settings.defaultSettings.
    cbn [fold_left].
    rewrite insertOrIgnore_fresh; [done|].
    by rewrite !insertOrIgnore_other.
Qed.

(** ** Reading back a stored number *)

Lemma pretty_N_go_small (x : N) (s : string) :
  (0 < x < 10)%N -> pretty_N_go x s = String (pretty_N_char x) s.
Proof.
  intros Hx. rewrite pretty_N_go_step by lia.
  rewrite N.div_small, N.mod_small by lia. apply pretty_N_go_0.
Qed.

Lemma pretty_N_go_leading (x : N) :
  (0 < x)%N ->
  forall s, exists d rest,
    (1 <= d <= 9)%N /\ pretty_N_go x s = String (pretty_N_char d) rest.
Proof.
  induction (N.lt_wf_0 x) as [x _ IH]. intros Hx s.
  destruct (decide (x < 10)%N) as [Hsmall|Hbig].
  - exists x, s. split; [lia|]. apply pretty_N_go_small. lia.
  - rewrite pretty_N_go_step by done.
    apply IH; [apply N.div_lt; lia|]. apply N.div_str_pos. lia.
Qed.

Lemma digit_value_pretty_N_char (d : N) :
  (d < 10)%N -> Automation.digit_value (pretty_N_char d) = Some (Z.of_N d).
Proof.
  intros Hd.
  assert (d = 0 \/ d = 1 \/ d = 2 \/ d = 3 \/ d = 4 \/ d = 5 \/ d = 6 \/ d = 7
          \/ d = 8 \/ d = 9)%N as Hcases by lia.
  repeat destruct Hcases as [->|Hcases]; try reflexivity. by subst.
Qed.

Lemma digits_step (c : ascii) (d : Z) (s : string) (acc : option Z) :
  Automation.digit_value c = Some d -> d < 10 ->
  Automation.digits 10 (String c s) acc
  = Automation.digits 10 s (Some (default 0 acc * 10 + d)).
Proof.
  intros Hc Hd. cbn [Automation.digits]. rewrite Hc.
  by destruct (Z.ltb_spec d 10); [|lia].
Qed.

Lemma digits_pretty_N_go (x : N) :
  (0 < x)%N ->
  forall s acc, exists k : nat,
    Automation.digits 10 (pretty_N_go x s) acc
    = Automation.digits 10 s (Some (default 0 acc * 10 ^ Z.of_nat k + Z.of_N x)).
Proof.
  induction (N.lt_wf_0 x) as [x _ IH]. intros Hx s acc.
  destruct (decide (x < 10)%N) as [Hsmall|Hbig].
  - exists 1%nat. rewrite pretty_N_go_small by lia.
    rewrite (digits_step _ (Z.of_N x)); [|by apply digit_value_pretty_N_char|lia].
    do 3 f_equal.
  - rewrite pretty_N_go_step by done.
    destruct (IH (x `div` 10)%N) with (s := String (pretty_N_char (x `mod` 10)) s)
                                      (acc := acc) as [k Hk].
    { apply N.div_lt; lia. }
    { apply N.div_str_pos. lia. }
    exists (S k). rewrite Hk.
    assert (Hmod : (x `mod` 10 < 10)%N) by (apply N.mod_lt; lia).
    rewrite (digits_step _ (Z.of_N (x `mod` 10)));
      [|by apply digit_value_pretty_N_char|lia].
    do 2 f_equal. cbn [default].
    rewrite Nat2Z.inj_succ, Z.pow_succ_r by lia.
    rewrite (N.div_mod x 10) at 3 by lia.
    generalize (default 0 acc) (10 ^ Z.of_nat k) (x `div` 10)%N (x `mod` 10)%N.
    intros a P q r. unfold id. lia.
Qed.

Lemma parseInt_leading_digit (d : N) (rest : string) :
  (1 <= d <= 9)%N ->
  Automation.parseInt (String (pretty_N_char d) rest)
  = (fun mathInt => 1 * Automation.nearest_double mathInt)
      <$> Automation.digits 10 (String (pretty_N_char d) rest) None.
Proof.
  intros Hd.
  assert (d = 1 \/ d = 2 \/ d = 3 \/ d = 4 \/ d = 5 \/ d = 6 \/ d = 7
          \/ d = 8 \/ d = 9)%N as Hcases by lia.
  repeat destruct Hcases as [->|Hcases]; try reflexivity. by subst.
Qed.

Lemma parseInt_minus_leading_digit (d : N) (rest : string) :
  (1 <= d <= 9)%N ->
  Automation.parseInt (String "-" (String (pretty_N_char d) rest))
  = (fun mathInt => -1 * Automation.nearest_double mathInt)
      <$> Automation.digits 10 (String (pretty_N_char d) rest) None.
Proof.
  intros Hd.
  assert (d = 1 \/ d = 2 \/ d = 3 \/ d = 4 \/ d = 5 \/ d = 6 \/ d = 7
          \/ d = 8 \/ d = 9)%N as Hcases by lia.
  repeat destruct Hcases as [->|Hcases]; try reflexivity. by subst.
Qed.

(** Reading a decimal numeral gives the Number nearest to the integer. *)
Lemma parseInt_pretty (n : Z) :
  Automation.parseInt (pretty n) = Some (Z.sgn n * Automation.nearest_double (Z.abs n)).
Proof.
  destruct n as [|p|p].
  - vm_compute. reflexivity.
  - change (pretty (Z.pos p)) with (pretty_N_go (N.pos p) "").
    destruct (pretty_N_go_leading (N.pos p) ltac:(lia) "") as (d & rest & Hd & Heq).
    rewrite Heq. rewrite parseInt_leading_digit by done. rewrite <- Heq.
    destruct (digits_pretty_N_go (N.pos p) ltac:(lia) "" None) as [k ->].
    cbn [Automation.digits default fmap option_fmap option_map Z.sgn Z.abs].
    replace (0 * 10 ^ Z.of_nat k + Z.of_N (N.pos p)) with (Z.pos p) by lia.
    reflexivity.
  - change (pretty (Z.neg p)) with (String "-" (pretty_N_go (N.pos p) "")).
    destruct (pretty_N_go_leading (N.pos p) ltac:(lia) "") as (d & rest & Hd & Heq).
    rewrite Heq. rewrite parseInt_minus_leading_digit by done. rewrite <- Heq.
    destruct (digits_pretty_N_go (N.pos p) ltac:(lia) "" None) as [k ->].
    cbn [Automation.digits default fmap option_fmap option_map Z.sgn Z.abs].
    replace (0 * 10 ^ Z.of_nat k + Z.of_N (N.pos p)) with (Z.pos p) by lia.
    reflexivity.
Qed.

Lemma nearest_double_exact (x : Z) :
  0 <= x <= 2 ^ 53 -> Automation.nearest_double x = x.
Proof.
  intros Hx. unfold Automation.nearest_double.
  destruct (Z.ltb_spec x (2 ^ 53)); [done|].
  assert (x = 2 ^ 53) as -> by lia.
  vm_compute. reflexivity.
Qed.

Lemma nearest_double_pos (x : Z) : 0 < x -> 0 < Automation.nearest_double x.
Proof.
  intros Hx. unfold Automation.nearest_double.
  destruct (Z.ltb_spec x (2 ^ 53)); [lia|].
  assert (Hlog : 53 <= Z.log2 x) by (apply Z.log2_le_pow2; lia).
  set (e := Z.log2 x - 52).
  assert (He : 0 < 2 ^ e) by (apply Z.pow_pos_nonneg; lia).
  assert (Hq : 1 <= x / 2 ^ e).
  { apply Z.div_le_lower_bound; [done|]. rewrite Z.mul_1_r.
    etransitivity; [|apply Z.log2_spec; lia].
    apply Z.pow_le_mono_r; lia. }
  match goal with
  | |- 0 < (if 2 ^ 1024 <=? ?y then _ else _) =>
      assert (0 < y); [|destruct (2 ^ 1024 <=? y); lia]
  end.
  destruct (_ || _); nia.
Qed.

(** X19. A buffer size stored with [setSetting] as the decimal numeral of an
    integer [n] is read back by the generation gate as the Number nearest to
    [n], and 0 as 3, whatever the table held before. So up to [2 ^ 53] in
    magnitude the buffer is read back exactly, while [2 ^ 53 + 1] is read
    back as [2 ^ 53]. *)
Theorem stored_buffer_days_is_read_back
        (n now : Z) (desc : option string) (table : gmap string Settings.Row)
        (W : Automation.World) :
  Automation.bufferDaysOf
    (Settings.reading (Settings.setSetting now "content_buffer_days" (pretty n) desc table) W)
  = (if n =? 0 then 3 else Z.sgn n * Automation.nearest_double (Z.abs n)) /\
  (- 2 ^ 53 <= n <= 2 ^ 53 -> n <> 0 ->
   Automation.bufferDaysOf
     (Settings.reading (Settings.setSetting now "content_buffer_days" (pretty n) desc table) W)
   = n) /\
  Automation.bufferDaysOf
    (Settings.reading
       (Settings.setSetting now "content_buffer_days" (pretty (2 ^ 53 + 1)) desc table) W)
  = 2 ^ 53.
Proof.
  assert (Hread : forall m,
    Automation.bufferDaysOf
      (Settings.reading (Settings.setSetting now "content_buffer_days" (pretty m) desc table) W)
    = if m =? 0 then 3 else Z.sgn m * Automation.nearest_double (Z.abs m)).
  { intros m.
    unfold Automation.bufferDaysOf, Automation.getSetting, Settings.reading,
      Settings.getAllSettings, Settings.setSetting.
    cbn [Automation.settings].
    rewrite lookup_fmap, lookup_insert_eq.
    cbn [fmap option_fmap option_map Settings.value mbind option_bind].
    rewrite parseInt_pretty.
    destruct m as [|p|p]; [reflexivity| |].
    - cbn [Z.eqb]. change (Z.sgn (Z.pos p)) with 1.
      pose proof (nearest_double_pos (Z.abs (Z.pos p)) ltac:(lia)) as Hpos.
      generalize dependent (Automation.nearest_double (Z.abs (Z.pos p))). intros v Hpos.
      destruct (1 * v) eqn:Hv; lia.
    - cbn [Z.eqb]. change (Z.sgn (Z.neg p)) with (-1).
      pose proof (nearest_double_pos (Z.abs (Z.neg p)) ltac:(lia)) as Hpos.
      generalize dependent (Automation.nearest_double (Z.abs (Z.neg p))). intros v Hpos.
      destruct (-1 * v) eqn:Hv; lia. }
  split; [apply Hread|]. split.
  - intros Hn Hne. rewrite Hread.
    destruct (Z.eqb_spec n 0); [done|].
    rewrite nearest_double_exact by lia. lia.
  - rewrite Hread. vm_compute. reflexivity.
Qed.

(** ** Local time *)

Section LocalTime.

Variable utcOffset : Z.

Lemma timeOfDay_range (t : Z) :
  0 <= Optimizer.timeOfDay utcOffset t < Js.ms_per_day.
Proof. unfold Optimizer.timeOfDay. by apply Z.mod_pos_bound. Qed.

Lemma getDay_range (t : Z) : 0 <= Optimizer.getDay utcOffset t < 7.
Proof. unfold Optimizer.getDay. by apply Z.mod_pos_bound. Qed.

Lemma getHours_range (t : Z) : 0 <= Optimizer.getHours utcOffset t < 24.
Proof.
  unfold Optimizer.getHours. pose proof (timeOfDay_range t) as Hm.
  unfold Js.ms_per_day, Optimizer.ms_per_hour in *.
  split; [apply Z.div_pos; lia|apply Z.div_lt_upper_bound; lia].
Qed.

(** The hour of a time is the full hours since local midnight. *)
Lemma getHours_bounds (t : Z) :
  Optimizer.getHours utcOffset t * Optimizer.ms_per_hour <= Optimizer.timeOfDay utcOffset t
  < (Optimizer.getHours utcOffset t + 1) * Optimizer.ms_per_hour.
Proof.
  unfold Optimizer.getHours, Optimizer.ms_per_hour.
  generalize (Optimizer.timeOfDay utcOffset t). intros m.
  pose proof (Z.div_mod m (60 * 60 * 1000) ltac:(lia)) as Hdm.
  pose proof (Z.mod_pos_bound m (60 * 60 * 1000) ltac:(lia)) as Hb.
  lia.
Qed.

Lemma timeOfDay_add_days (t i : Z) :
  Optimizer.timeOfDay utcOffset (t + i * Js.ms_per_day) = Optimizer.timeOfDay utcOffset t.
Proof.
  unfold Optimizer.timeOfDay.
  replace (t + i * Js.ms_per_day + utcOffset) with (t + utcOffset + i * Js.ms_per_day) by lia.
  apply Z_mod_plus_full.
Qed.

Lemma getDay_add_days (t i : Z) :
  Optimizer.getDay utcOffset (t + i * Js.ms_per_day)
  = (Optimizer.getDay utcOffset t + i) mod 7.
Proof.
  unfold Optimizer.getDay.
  replace (t + i * Js.ms_per_day + utcOffset) with (t + utcOffset + i * Js.ms_per_day) by lia.
  rewrite Z_div_plus_full by done.
  rewrite Zplus_mod_idemp_l. f_equal. lia.
Qed.

Lemma setHours_local (t hour : Z) :
  0 <= hour < 24 ->
  Optimizer.timeOfDay utcOffset (Optimizer.setHours utcOffset t hour)
  = hour * Optimizer.ms_per_hour /\
  Optimizer.getDay utcOffset (Optimizer.setHours utcOffset t hour)
  = Optimizer.getDay utcOffset t.
Proof.
  intros Hh. unfold Optimizer.getDay, Optimizer.setHours, Optimizer.timeOfDay.
  pose proof (Z.div_mod (t + utcOffset) Js.ms_per_day ltac:(done)) as Hdm.
  set (D := (t + utcOffset) / Js.ms_per_day) in *.
  set (m := (t + utcOffset) mod Js.ms_per_day) in *.
  replace (t - m + hour * Optimizer.ms_per_hour + utcOffset)
    with (hour * Optimizer.ms_per_hour + D * Js.ms_per_day) by lia.
  assert (Hsmall : 0 <= hour * Optimizer.ms_per_hour < Js.ms_per_day)
    by (unfold Optimizer.ms_per_hour, Js.ms_per_day; lia).
  split.
  - rewrite Z_mod_plus_full. by apply Z.mod_small.
  - rewrite Z_div_plus_full by done. rewrite Z.div_small by done. done.
Qed.

Lemma getHours_setHours (t hour : Z) :
  0 <= hour < 24 ->
  Optimizer.getHours utcOffset (Optimizer.setHours utcOffset t hour) = hour.
Proof.
  intros Hh. unfold Optimizer.getHours.
  rewrite (proj1 (setHours_local t hour Hh)).
  by apply Z_div_mult_full.
Qed.

End LocalTime.

(** ** The next best slot *)

Section BestSlot.

Variable utcOffset : Z.
Variable hours : list Z.
Variable worstDays : list string.
Variable worstHours : list Z.

Local Abbreviation OT := (Optimizer.midweek hours worstDays worstHours).

Lemma best_day_test (t : Z) :
  bool_decide (Optimizer.weekday utcOffset t ∈ Optimizer.bestDays OT)
  = (2 <=? Optimizer.getDay utcOffset t) && (Optimizer.getDay utcOffset t <=? 4).
Proof.
  unfold Optimizer.weekday. pose proof (getDay_range utcOffset t) as Hd.
  generalize dependent (Optimizer.getDay utcOffset t). intros d Hd.
  assert (d = 0 \/ d = 1 \/ d = 2 \/ d = 3 \/ d = 4 \/ d = 5 \/ d = 6) as Hcases by lia.
  repeat destruct Hcases as [->|Hcases]; try (vm_compute; reflexivity).
  subst. vm_compute; reflexivity.
Qed.

Lemma sameDay_best (currentDay : string) (currentHour next : Z) (hs : list Z) :
  bool_decide (currentDay ∈ Optimizer.bestDays OT) = true ->
  Optimizer.sameDay utcOffset OT currentDay currentHour next hs
  = Optimizer.setHours utcOffset next <$> List.find (fun h => currentHour <? h) hs.
Proof.
  intros Hbest. induction hs as [|h hs IH]; [done|].
  cbn [Optimizer.sameDay List.find]. rewrite Hbest.
  destruct (currentHour <? h); [done|exact IH].
Qed.

Lemma sameDay_not_best (currentDay : string) (currentHour next : Z) (hs : list Z) :
  bool_decide (currentDay ∈ Optimizer.bestDays OT) = false ->
  Optimizer.sameDay utcOffset OT currentDay currentHour next hs = None.
Proof.
  intros Hbest. revert next. induction hs as [|h hs IH]; intros next; [done|].
  cbn [Optimizer.sameDay]. rewrite Hbest.
  destruct (currentHour <? h); apply IH.
Qed.

Lemma nextDay_finds_a_best_day (t h0 : Z) (rest : list Z) :
  hours = h0 :: rest ->
  exists i : Z,
    Optimizer.nextDay utcOffset OT t [1; 2; 3; 4; 5; 6; 7]
    = Some (Optimizer.date (Optimizer.setHours utcOffset (t + i * Js.ms_per_day) h0)) /\
    1 <= i <= 5 /\
    (~ 2 <= Optimizer.getDay utcOffset t <= 4 -> i <= 4) /\
    2 <= Optimizer.getDay utcOffset (t + i * Js.ms_per_day) <= 4.
Proof.
  intros Hhours. cbn [Optimizer.nextDay].
  rewrite !best_day_test.
  assert (Hhead : head (Optimizer.bestHours OT) = Some h0) by (simpl; by rewrite Hhours).
  rewrite Hhead.
  assert (Hadd : forall i, Optimizer.getDay utcOffset (t + i * Js.ms_per_day)
                           = (Optimizer.getDay utcOffset t + i) mod 7)
    by (intros i; apply getDay_add_days).
  pose proof (getDay_range utcOffset t) as Hd.
  set (next := fun i => Optimizer.setHours utcOffset (t + i * Js.ms_per_day) h0).
  change (exists i : Z,
    (if (2 <=? Optimizer.getDay utcOffset (t + 1 * Js.ms_per_day))
        && (Optimizer.getDay utcOffset (t + 1 * Js.ms_per_day) <=? 4)
     then Some (Optimizer.date (next 1))
     else if (2 <=? Optimizer.getDay utcOffset (t + 2 * Js.ms_per_day))
             && (Optimizer.getDay utcOffset (t + 2 * Js.ms_per_day) <=? 4)
     then Some (Optimizer.date (next 2))
     else if (2 <=? Optimizer.getDay utcOffset (t + 3 * Js.ms_per_day))
             && (Optimizer.getDay utcOffset (t + 3 * Js.ms_per_day) <=? 4)
     then Some (Optimizer.date (next 3))
     else if (2 <=? Optimizer.getDay utcOffset (t + 4 * Js.ms_per_day))
             && (Optimizer.getDay utcOffset (t + 4 * Js.ms_per_day) <=? 4)
     then Some (Optimizer.date (next 4))
     else if (2 <=? Optimizer.getDay utcOffset (t + 5 * Js.ms_per_day))
             && (Optimizer.getDay utcOffset (t + 5 * Js.ms_per_day) <=? 4)
     then Some (Optimizer.date (next 5))
     else if (2 <=? Optimizer.getDay utcOffset (t + 6 * Js.ms_per_day))
             && (Optimizer.getDay utcOffset (t + 6 * Js.ms_per_day) <=? 4)
     then Some (Optimizer.date (next 6))
     else if (2 <=? Optimizer.getDay utcOffset (t + 7 * Js.ms_per_day))
             && (Optimizer.getDay utcOffset (t + 7 * Js.ms_per_day) <=? 4)
     then Some (Optimizer.date (next 7))
     else None) = Some (Optimizer.date (next i)) /\
    1 <= i <= 5 /\
    (~ 2 <= Optimizer.getDay utcOffset t <= 4 -> i <= 4) /\
    2 <= Optimizer.getDay utcOffset (t + i * Js.ms_per_day) <= 4).
  clearbody next. rewrite !Hadd.
  generalize dependent (Optimizer.getDay utcOffset t). intros d Hadd Hd.
  assert (d = 0 \/ d = 1 \/ d = 2 \/ d = 3 \/ d = 4 \/ d = 5 \/ d = 6) as Hcases by lia.
  destruct Hcases as [->|[->|[->|[->|[->|[->| ->]]]]]].
  - exists 2. split; [reflexivity|]. rewrite Hadd. Z.div_mod_to_equations. lia.
  - exists 1. split; [reflexivity|]. rewrite Hadd. Z.div_mod_to_equations. lia.
  - exists 1. split; [reflexivity|]. rewrite Hadd. Z.div_mod_to_equations. lia.
  - exists 1. split; [reflexivity|]. rewrite Hadd. Z.div_mod_to_equations. lia.
  - exists 5. split; [reflexivity|]. rewrite Hadd. Z.div_mod_to_equations. lia.
  - exists 4. split; [reflexivity|]. rewrite Hadd. Z.div_mod_to_equations. lia.
  - exists 3. split; [reflexivity|]. rewrite Hadd. Z.div_mod_to_equations. lia.
Qed.

Hypothesis hours_in_range : Forall (fun h => 0 <= h < 24) hours.
Hypothesis hours_not_empty : hours <> [].

Lemma findBetterTime_spec (t : Z) :
  (Optimizer.findBetterTime utcOffset t OT = None
   <-> Optimizer.isOptimal utcOffset OT t = true) /\
  (forall d, Optimizer.findBetterTime utcOffset t OT = Some d ->
     exists t' : Z,
       d = Optimizer.date t' /\
       t < t' < t + 5 * Js.ms_per_day /\
       Optimizer.isOptimal utcOffset OT t' = true /\
       Optimizer.timeOfDay utcOffset t'
       = Optimizer.getHours utcOffset t' * Optimizer.ms_per_hour).
Proof.
  assert (exists h0 rest, hours = h0 :: rest) as (h0 & rest & Hhours).
  { destruct hours as [|h0 rest]; [done|]. by exists h0, rest. }
  assert (Hh0 : 0 <= h0 < 24).
  { rewrite Forall_forall in hours_in_range. apply hours_in_range.
    rewrite Hhours. by left. }
  assert (Hin0 : h0 ∈ Optimizer.bestHours OT) by (simpl; rewrite Hhours; by left).
  pose proof (timeOfDay_range utcOffset t) as Hm.
  pose proof (getHours_bounds utcOffset t) as Hhour.
  pose proof (getHours_range utcOffset t) as Hhr.
  assert (Hslot : forall base h,
             0 <= h < 24 -> h ∈ Optimizer.bestHours OT ->
             2 <= Optimizer.getDay utcOffset base <= 4 ->
             Optimizer.isOptimal utcOffset OT (Optimizer.setHours utcOffset base h) = true /\
             Optimizer.timeOfDay utcOffset (Optimizer.setHours utcOffset base h)
             = Optimizer.getHours utcOffset (Optimizer.setHours utcOffset base h)
               * Optimizer.ms_per_hour).
  { intros base h Hh Hin Hday.
    destruct (setHours_local utcOffset base h Hh) as [Htod Hgd].
    unfold Optimizer.isOptimal.
    rewrite best_day_test, Hgd, getHours_setHours, Htod by done.
    split; [|done].
    apply andb_true_intro. split; [|by apply bool_decide_eq_true].
    apply andb_true_intro. split; lia. }
  unfold Optimizer.findBetterTime, Optimizer.isOptimal.
  destruct (bool_decide (Optimizer.weekday utcOffset t ∈ Optimizer.bestDays OT))
    eqn:Hbest.
  - destruct (bool_decide (Optimizer.getHours utcOffset t ∈ Optimizer.bestHours OT))
      eqn:Hinh; cbn [andb].
    { split; [done|]. by intros d. }
    rewrite sameDay_best by done.
    rewrite best_day_test in Hbest. apply andb_prop in Hbest as [Hlo Hhi].
    apply bool_decide_eq_false in Hinh.
    destruct (List.find _ _) as [h|] eqn:Hfind; cbn [fmap option_fmap option_map].
    + apply find_some in Hfind as [Hin Hlt].
      assert (Hh : 0 <= h < 24).
      { rewrite Forall_forall in hours_in_range. apply hours_in_range.
        by apply list_elem_of_In. }
      split; [split; discriminate|]. intros d [= <-].
      eexists. split; [reflexivity|].
      split.
      * unfold Optimizer.setHours, Optimizer.ms_per_hour, Js.ms_per_day in *. lia.
      * apply Hslot; [done| |lia]. by apply list_elem_of_In.
    + assert (Hlt0 : h0 < Optimizer.getHours utcOffset t).
      { pose proof (find_none _ _ Hfind h0) as Hnone. simpl in Hnone.
        rewrite Hhours in Hnone. specialize (Hnone (or_introl eq_refl)).
        assert (h0 <> Optimizer.getHours utcOffset t)
          by (intros Heq; apply Hinh; by rewrite <- Heq).
        lia. }
      destruct (nextDay_finds_a_best_day t h0 rest Hhours)
        as (i & -> & Hi & _ & Hday).
      split; [split; discriminate|]. intros d [= <-].
      eexists. split; [reflexivity|].
      split; [|by apply Hslot].
      unfold Optimizer.setHours. rewrite timeOfDay_add_days.
      unfold Optimizer.ms_per_hour, Js.ms_per_day in *. lia.
  - cbn [andb]. rewrite sameDay_not_best by done.
    rewrite best_day_test in Hbest.
    assert (Hnot : ~ 2 <= Optimizer.getDay utcOffset t <= 4).
    { intros [??]. apply andb_false_iff in Hbest as [?|?]; lia. }
    destruct (nextDay_finds_a_best_day t h0 rest Hhours)
      as (i & -> & Hi & Hi4 & Hday).
    specialize (Hi4 Hnot).
    split; [split; discriminate|]. intros d [= <-].
    eexists. split; [reflexivity|].
    split; [|by apply Hslot].
    unfold Optimizer.setHours. rewrite timeOfDay_add_days.
    unfold Optimizer.ms_per_hour, Js.ms_per_day in *. lia.
Qed.

End BestSlot.

Lemma findBetterTime_agent (W : Optimizer.World) (t : Z) :
  (Optimizer.findBetterTime (Optimizer.utcOffset W) t (Optimizer.optimalTimesOf W) = None
   <-> Optimizer.isOptimal (Optimizer.utcOffset W) (Optimizer.optimalTimesOf W) t = true) /\
  (forall d,
     Optimizer.findBetterTime (Optimizer.utcOffset W) t (Optimizer.optimalTimesOf W) = Some d ->
     exists t' : Z,
       d = Optimizer.date t' /\
       t < t' < t + 5 * Js.ms_per_day /\
       Optimizer.isOptimal (Optimizer.utcOffset W) (Optimizer.optimalTimesOf W) t' = true /\
       Optimizer.timeOfDay (Optimizer.utcOffset W) t'
       = Optimizer.getHours (Optimizer.utcOffset W) t' * Optimizer.ms_per_hour).
Proof.
  unfold Optimizer.optimalTimesOf, Optimizer.getChannelAnalytics,
    Optimizer.calculateOptimalTimes.
  destruct (Optimizer.channels_list W); cbn [Optimizer.optimalDays Optimizer.optimalHours];
    apply findBetterTime_spec; try done; repeat constructor; lia.
Qed.

(** X20. On a host whose local time is at a fixed offset from UTC, and with
    the optimal times the agent works with (Tuesday to Thursday, at 14, 15,
    16 and -- when the channel statistics can be read -- 20 hours),
    [findBetterTime] returns [null] exactly for a time that is on a
    best day at a best hour. For any other time it returns a valid date that
    is strictly later, less than five days away, on a best day at a best
    hour sharp, and for which it would itself return [null]. *)
Theorem findBetterTime_moves_to_a_later_best_slot (W : Optimizer.World) (t : Z) :
  (Optimizer.findBetterTime (Optimizer.utcOffset W) t (Optimizer.optimalTimesOf W) = None
   <-> Optimizer.isOptimal (Optimizer.utcOffset W) (Optimizer.optimalTimesOf W) t = true) /\
  (forall d,
     Optimizer.findBetterTime (Optimizer.utcOffset W) t (Optimizer.optimalTimesOf W) = Some d ->
     exists t' : Z,
       d = Optimizer.date t' /\
       t < t' < t + 5 * Js.ms_per_day /\
       Optimizer.isOptimal (Optimizer.utcOffset W) (Optimizer.optimalTimesOf W) t' = true /\
       Optimizer.timeOfDay (Optimizer.utcOffset W) t'
       = Optimizer.getHours (Optimizer.utcOffset W) t' * Optimizer.ms_per_hour /\
       Optimizer.findBetterTime (Optimizer.utcOffset W) t' (Optimizer.optimalTimesOf W)
       = None).
Proof.
  destruct (findBetterTime_agent W t) as [Hnone Hsome].
  split; [exact Hnone|].
  intros d Hd. destruct (Hsome d Hd) as (t' & -> & Hlt & Hopt & Hsharp).
  exists t'. repeat split; try done; try lia.
  by apply (findBetterTime_agent W t').
Qed.

(** ** Optimising the queue *)

Lemma set_publishTime_same (e : Publishing.PublishEntry) :
  Publishing.set_publishTime (Publishing.publishTime e) e = e.
Proof. by destruct e. Qed.

Lemma optimized_spec (W : Optimizer.World) (e : Publishing.PublishEntry) :
  exists t' : Z,
    Optimizer.optimized W e = Publishing.set_publishTime t' e /\
    (Publishing.status e <> Publishing.scheduled -> t' = Publishing.publishTime e) /\
    (Publishing.status e = Publishing.scheduled ->
     Publishing.publishTime e <= t' < Publishing.publishTime e + 5 * Js.ms_per_day /\
     Optimizer.isOptimal (Optimizer.utcOffset W) (Optimizer.optimalTimesOf W) t' = true).
Proof.
  unfold Optimizer.optimized.
  destruct (findBetterTime_agent W (Publishing.publishTime e)) as [Hnone Hsome].
  destruct (bool_decide (Publishing.status e = Publishing.scheduled)) eqn:Hst.
  - destruct (Optimizer.findBetterTime _ _ _) as [d|] eqn:Hfind.
    + destruct (Hsome d eq_refl) as (t' & -> & Hlt & Hopt & _).
      exists t'. split; [done|]. split; [|intros _; split; [lia|done]].
      apply bool_decide_eq_true in Hst. intros Hne. by destruct (Hne Hst).
    + exists (Publishing.publishTime e). split; [by rewrite set_publishTime_same|].
      split; [done|]. intros _. unfold Js.ms_per_day. split; [lia|]. by apply Hnone.
  - exists (Publishing.publishTime e). split; [by rewrite set_publishTime_same|].
    split; [done|]. apply bool_decide_eq_false in Hst. by intros ?.
Qed.

Lemma optimized_idem (W : Optimizer.World) (e : Publishing.PublishEntry) :
  Optimizer.optimized W (Optimizer.optimized W e) = Optimizer.optimized W e.
Proof.
  destruct (findBetterTime_agent W (Publishing.publishTime e)) as [_ Hsome].
  unfold Optimizer.optimized.
  destruct (bool_decide (Publishing.status e = Publishing.scheduled)) eqn:Hst;
    [|by rewrite Hst].
  destruct (Optimizer.findBetterTime _ (Publishing.publishTime e) _) as [d|] eqn:Hfind;
    [|by rewrite Hst, Hfind].
  destruct (Hsome d eq_refl) as (t' & -> & Hlt & Hopt & _).
  cbn [Publishing.status Publishing.set_publishTime Publishing.publishTime].
  rewrite Hst.
  by rewrite (proj2 (proj1 (findBetterTime_agent W t')) Hopt).
Qed.

Lemma optimizeEntry_Ok (W : Optimizer.World) (r : nat) (st st' : Publishing.Agent) :
  Optimizer.optimizeEntry W (Optimizer.optimalTimesOf W) r st = (Ok tt, st') ->
  exists e : Publishing.PublishEntry,
    Publishing.heap st !! r = Some e /\
    Publishing.heap st' = <[r := Optimizer.optimized W e]> (Publishing.heap st) /\
    Publishing.publishQueue st' = Publishing.publishQueue st /\
    Publishing.log st' = Publishing.log st /\
    Views.rowsKept st st'.
Proof.
  unfold Optimizer.optimizeEntry, Publishing.deref. run_M.
  destruct (Publishing.heap st !! r) as [e|] eqn:He; [|discriminate].
  assert (Hsame : Optimizer.optimized W e = e ->
                  (Ok tt, st) = (Ok tt, st') ->
                  exists e0 : Publishing.PublishEntry,
                    Some e = Some e0 /\
                    Publishing.heap st' = <[r := Optimizer.optimized W e0]> (Publishing.heap st) /\
                    Publishing.publishQueue st' = Publishing.publishQueue st /\
                    Publishing.log st' = Publishing.log st /\
                    Views.rowsKept st st').
  { intros Hfix [= <-]. exists e. split; [done|]. rewrite Hfix, insert_id by done.
    repeat split; try done. apply rowsKept_refl. }
  pose proof (eq_refl (Optimizer.optimized W e)) as Hopt.
  unfold Optimizer.optimized at 2 in Hopt.
  destruct (bool_decide (Publishing.status e = Publishing.scheduled)) eqn:Hst;
    [|run_M; by apply Hsame].
  destruct (Optimizer.findBetterTime _ _ _) as [[t'|]|] eqn:Hfind;
    [|run_M; discriminate|run_M; by apply Hsame].
  destruct (bool_decide (t' <> Publishing.publishTime e)) eqn:Hne.
  - unfold Publishing.assign. run_M.
    destruct (Publishing.updateScheduleEntry _ r _) as [[[]|m] st2] eqn:Hupd;
      [|discriminate].
    intros [= <-]. exists e. split; [done|].
    destruct (updateScheduleEntry_frame _ _ _ _ _ Hupd) as (Hh & Hq & Hl).
    apply updateScheduleEntry_rowsKept in Hupd.
    split; [|split; [done|split; [done|]]].
    + rewrite Hh, Hopt. unfold Publishing.with_heap; simpl.
      apply map_eq. intros x. destruct (decide (r = x)) as [<-|Hx].
      * by rewrite lookup_alter_eq, lookup_insert_eq, He.
      * by rewrite lookup_alter_ne, lookup_insert_ne.
    + eapply rowsKept_trans; [|exact Hupd]. by apply rowsKept_same_table.
  - apply bool_decide_eq_false in Hne. apply dec_stable in Hne. subst t'.
    run_M. apply Hsame. by rewrite Hopt, set_publishTime_same.
Qed.

Lemma for_of_optimizeEntry (W : Optimizer.World) (l : list nat) (st st' : Publishing.Agent) :
  Js.for_of l (Optimizer.optimizeEntry W (Optimizer.optimalTimesOf W)) st = (Ok tt, st') ->
  Publishing.publishQueue st' = Publishing.publishQueue st /\
  Publishing.log st' = Publishing.log st /\
  Views.rowsKept st st' /\
  (forall r, r ∈ l ->
     is_Some (Publishing.heap st !! r) /\
     Publishing.heap st' !! r = Optimizer.optimized W <$> Publishing.heap st !! r) /\
  (forall r, r ∉ l -> Publishing.heap st' !! r = Publishing.heap st !! r).
Proof.
  revert st. induction l as [|r l IH]; intros st; simpl.
  - intros [= <-]. split; [done|]. split; [done|]. split; [apply rowsKept_refl|].
    split; [|done]. intros r Hr. by apply elem_of_nil in Hr.
  - run_M.
    destruct (Optimizer.optimizeEntry _ _ r st) as [[[]|m] st1] eqn:Hone; [|discriminate].
    destruct (optimizeEntry_Ok _ _ _ _ Hone) as (e & He & Hh1 & Hq1 & Hl1 & Hrows1).
    intros Hrest. destruct (IH _ Hrest) as (Hq & Hl & Hrows & Hin & Hout).
    split; [congruence|]. split; [congruence|].
    split; [by eapply rowsKept_trans|].
    split.
    + intros x Hx. destruct (decide (x = r)) as [->|Hne].
      * split; [by rewrite He|]. rewrite He. simpl.
        destruct (decide (r ∈ l)) as [Hrl|Hrl].
        -- destruct (Hin r Hrl) as [_ ->]. rewrite Hh1, lookup_insert_eq. simpl.
           by rewrite optimized_idem.
        -- by rewrite (Hout r Hrl), Hh1, lookup_insert_eq.
      * apply elem_of_cons in Hx as [?|Hx]; [done|].
        destruct (Hin x Hx) as [Hsome ->].
        rewrite Hh1, lookup_insert_ne in * by done. done.
    + intros x Hx. apply not_elem_of_cons in Hx as [Hne Hx].
      rewrite (Hout x Hx), Hh1. by rewrite lookup_insert_ne.
Qed.

Lemma optimizeEntry_fixed (W : Optimizer.World) (r : nat) (st : Publishing.Agent)
      (e : Publishing.PublishEntry) :
  Publishing.heap st !! r = Some e ->
  Optimizer.optimized W e = e ->
  Optimizer.optimizeEntry W (Optimizer.optimalTimesOf W) r st = (Ok tt, st).
Proof.
  intros He Hfix. unfold Optimizer.optimizeEntry, Publishing.deref. run_M. rewrite He.
  unfold Optimizer.optimized in Hfix.
  destruct (bool_decide (Publishing.status e = Publishing.scheduled)); [|done].
  destruct (findBetterTime_agent W (Publishing.publishTime e)) as [_ Hsome].
  destruct (Optimizer.findBetterTime _ _ _) as [d|] eqn:Hfind; [|done].
  destruct (Hsome d eq_refl) as (t' & -> & _).
  assert (t' = Publishing.publishTime e) as -> by (by rewrite <- Hfix).
  by rewrite bool_decide_eq_false_2 by (by intros ?).
Qed.

Lemma for_of_optimizeEntry_fixed (W : Optimizer.World) (l : list nat)
      (st : Publishing.Agent) :
  (forall r, r ∈ l ->
     exists e, Publishing.heap st !! r = Some e /\ Optimizer.optimized W e = e) ->
  Js.for_of l (Optimizer.optimizeEntry W (Optimizer.optimalTimesOf W)) st = (Ok tt, st).
Proof.
  induction l as [|r l IH]; intros Hall; simpl; [done|].
  run_M. destruct (Hall r) as (e & He & Hfix); [by left|].
  rewrite (optimizeEntry_fixed _ _ _ _ He Hfix).
  apply IH. intros x Hx. apply Hall. by right.
Qed.

(** X21. On such a host, when [optimizePublishTimes] goes through, it moves
    every queued entry that is ['scheduled'] and not at a best time to a
    strictly later time, less than five days on, that is on a best day at a
    best hour; it
    leaves alone the entries that are not ['scheduled'] or already at a best
    time, every object outside the queue, the order of the queue and the
    stored rows -- the new publish times exist in memory only. Running it
    again changes nothing. *)
Theorem optimizePublishTimes_only_delays_scheduled_entries
        (W : Optimizer.World) (st st' : Publishing.Agent) :
  Optimizer.optimizePublishTimes W st = (Ok tt, st') ->
  Publishing.publishQueue st' = Publishing.publishQueue st /\
  Views.rowsKept st st' /\
  (forall r, r ∈ Publishing.publishQueue st ->
     exists (e : Publishing.PublishEntry) (t' : Z),
       Publishing.heap st !! r = Some e /\
       Publishing.heap st' !! r = Some (Publishing.set_publishTime t' e) /\
       (Publishing.status e <> Publishing.scheduled -> t' = Publishing.publishTime e) /\
       (Publishing.status e = Publishing.scheduled ->
        Publishing.publishTime e <= t' < Publishing.publishTime e + 5 * Js.ms_per_day /\
        Optimizer.isOptimal (Optimizer.utcOffset W) (Optimizer.optimalTimesOf W) t' = true /\
        (Optimizer.isOptimal (Optimizer.utcOffset W) (Optimizer.optimalTimesOf W)
                             (Publishing.publishTime e) = true ->
         t' = Publishing.publishTime e))) /\
  (forall r, r ∉ Publishing.publishQueue st ->
     Publishing.heap st' !! r = Publishing.heap st !! r) /\
  Optimizer.optimizePublishTimes W st' = (Ok tt, st').
Proof.
  unfold Optimizer.optimizePublishTimes. fold (Optimizer.optimalTimesOf W). run_M.
  intros Hrun. destruct (for_of_optimizeEntry _ _ _ _ Hrun) as (Hq & _ & Hrows & Hin & Hout).
  split; [done|]. split; [done|]. split; [|split; [done|]].
  - intros r Hr. destruct (Hin r Hr) as [[e He] Hr'].
    destruct (optimized_spec W e) as (t' & Ht' & Hother & Hsched).
    exists e, t'. split; [done|]. split; [by rewrite Hr', He, <- Ht'|].
    split; [done|]. intros Hst. destruct (Hsched Hst) as [Hlt Hopt].
    split; [done|]. split; [done|]. intros Hwas.
    apply (proj1 (findBetterTime_agent W (Publishing.publishTime e))) in Hwas.
    unfold Optimizer.optimized in Ht'. rewrite Hwas in Ht'.
    rewrite bool_decide_eq_true_2 in Ht' by done.
    apply (f_equal Publishing.publishTime) in Ht'. simpl in Ht'. done.
  - rewrite Hq. apply for_of_optimizeEntry_fixed.
    intros r Hr. destruct (Hin r Hr) as [[e He] Hr'].
    exists (Optimizer.optimized W e). split; [by rewrite Hr', He|].
    apply optimized_idem.
Qed.

Lemma optimizePublishTimes_only_delays_scheduled_entries_witness :
  Optimizer.optimizePublishTimes OptimizerCases.utc
    (Publishing.after (Optimizer.optimizePublishTimes OptimizerCases.utc) Scenario.twoQueued)
  = (Ok tt,
     Publishing.after (Optimizer.optimizePublishTimes OptimizerCases.utc) Scenario.twoQueued).
Proof.
  apply (optimizePublishTimes_only_delays_scheduled_entries
           OptimizerCases.utc Scenario.twoQueued).
  vm_compute; reflexivity.
Defined.

(** ** The daily tasks *)

Lemma scheduleContent_Ok (W : Publishing.World) (item : Production.ProductionItem)
      (st st' : Publishing.Agent) (r : nat) :
  Publishing.scheduleContent W item st = (Ok r, st') ->
  let e := Publishing.set_id (Publishing.generateId W) (Publishing.newScheduleEntry W item) in
  Publishing.heap st !! r = None /\
  Publishing.heap st' = <[r := e]> (Publishing.heap st) /\
  Permutation (Publishing.publishQueue st') (r :: Publishing.publishQueue st) /\
  Publishing.row_production_id <$> Publishing.publish_schedule st' !! Publishing.generateId W
  = Some (Production.item_id item).
Proof.
  intros Hrun e.
  destruct (Publishing.insert_rejected W e) as [m|] eqn:Hins.
  { exfalso. revert Hrun.
    unfold Publishing.scheduleContent, Publishing.saveScheduleEntry, Publishing.alloc,
      Publishing.assign, Publishing.deref.
    run_M. rewrite alter_insert_eq, lookup_insert_eq. fold e. by rewrite Hins. }
  destruct (Publishing.publish_schedule st !! Publishing.generateId W) as [row|] eqn:Hfree.
  { exfalso. revert Hrun.
    unfold Publishing.scheduleContent, Publishing.saveScheduleEntry, Publishing.alloc,
      Publishing.assign, Publishing.deref.
    run_M. rewrite alter_insert_eq, lookup_insert_eq. fold e. rewrite Hins. run_M.
    by rewrite Hfree. }
  rewrite (scheduleContent_run W item st Hins Hfree) in Hrun.
  injection Hrun as <- <-. simpl.
  split; [apply fresh_unallocated|]. split; [done|]. split.
  - rewrite sort_by_Permutation. symmetry. apply Permutation_cons_append.
  - by rewrite lookup_insert_eq.
Qed.

(** X22. [runDailyContentGeneration] does nothing at all when the gate is
    closed. When the gate is open it records exactly one event -- unless the
    store rejects the error event, the only way for the task to reject. The
    event says ['success'] only if a ['ready'] item was appended to the
    pipeline and an entry for it, ['scheduled'] for the item's publish time,
    was queued and stored; every failure on the way, a rejected success
    event included, is recorded as ['error']. *)
Theorem daily_generation_records_one_event
        (W : Daily.World) (s s' : Daily.System) (o : outcome unit) :
  Daily.runDailyContentGeneration W s = (o, s') ->
  (Automation.shouldGenerateContentToday (Daily.gate W) (Daily.agent s) = false ->
   o = Ok tt /\ s' = s) /\
  (Automation.shouldGenerateContentToday (Daily.gate W) (Daily.agent s) = true ->
   (exists cause m,
       o = Throw m /\
       Daily.automation_events s' = Daily.automation_events s /\
       Daily.event_rejected W
         (Daily.mkEvent "daily_content_generation" "error" (Daily.ErrorMessage cause))
       = Some m) \/
   (exists ev,
       o = Ok tt /\
       Daily.automation_events s' = Daily.automation_events s ++ [ev] /\
       Daily.event_type ev = "daily_content_generation" /\
       ((exists cause, Daily.event_status ev = "error" /\
                       Daily.event_data ev = Daily.ErrorMessage cause) \/
        (Daily.event_status ev = "success" /\
         exists (p : Production.ProductionItem) (r : nat) (e : Publishing.PublishEntry),
           Daily.pipeline s' = Daily.pipeline s ++ [p] /\
           Production.status p = Production.ready /\
           (exists topic,
               Daily.event_data ev
               = Daily.ContentScheduled (Production.item_id p) topic
                                        (Production.scheduledPublishTime p)) /\
           Permutation (Publishing.publishQueue (Daily.agent s'))
                       (r :: Publishing.publishQueue (Daily.agent s)) /\
           Publishing.heap (Daily.agent s) !! r = None /\
           Publishing.heap (Daily.agent s') !! r = Some e /\
           Publishing.productionId e = Production.item_id p /\
           Publishing.status e = Publishing.scheduled /\
           Publishing.publishTime e = Production.scheduledPublishTime p /\
           Publishing.row_production_id
             <$> Publishing.publish_schedule (Daily.agent s')
                   !! Publishing.generateId (Daily.host W)
           = Some (Production.item_id p))))).
Proof.
  unfold Daily.runDailyContentGeneration, Daily.logAutomationEvent, Daily.onPipeline,
    Daily.onAgent.
  run_M. destruct s as [pipeline0 agent0 events0]. cbn [Daily.pipeline Daily.agent
                                                          Daily.automation_events].
  destruct (Automation.shouldGenerateContentToday _ _) eqn:Hgate; simpl.
  2:{ intros [= <- <-]. split; [done|done]. }
  intros Hrun. split; [done|]. intros _. revert Hrun.
  match goal with
  | |- _ -> ?concl =>
      assert (Hfail : forall cause pl ag,
                 match Daily.event_rejected W
                         (Daily.mkEvent "daily_content_generation" "error"
                                        (Daily.ErrorMessage cause)) with
                 | Some message => (Throw message, Daily.mkSystem pl ag events0)
                 | None =>
                     (Ok tt,
                      Daily.mkSystem pl ag
                        (events0 ++ [Daily.mkEvent "daily_content_generation" "error"
                                                   (Daily.ErrorMessage cause)]))
                 end = (o, s') -> concl)
  end.
  { intros cause pl ag Hlog.
    destruct (Daily.event_rejected W _) as [m|] eqn:Hrej; injection Hlog as <- <-.
    - left. by exists cause, m.
    - right. eexists. split; [done|]. simpl. split; [done|].
      split; [done|]. left. by eexists. }
  destruct (Daily.brief W) as [contentData|m0]; simpl; [|by apply Hfail].
  destruct (Production.processContent _ _ _ _ _) as [[p|m1] pipeline'] eqn:Hproc; simpl;
    [|by apply Hfail].
  destruct (Publishing.scheduleContent _ _ _) as [[r|m2] agent'] eqn:Hsched; simpl;
    [|by apply Hfail].
  destruct (Daily.event_rejected W
              (Daily.mkEvent "daily_content_generation" "success" _)) as [m3|] eqn:Hrej;
    simpl; [by apply Hfail|].
  intros [= <- <-]. right. eexists. split; [done|]. simpl. split; [done|].
  split; [done|]. right. split; [done|].
  destruct (processContent_Ok _ _ _ _ _ _ _ Hproc) as (-> & Hready & _).
  destruct (scheduleContent_Ok _ _ _ _ _ Hsched) as (Hnew & Hheap & Hperm & Hrow).
  exists p, r. eexists. split; [done|]. split; [done|]. split; [by eexists|].
  split; [done|]. split; [done|]. split; [by rewrite Hheap, lookup_insert_eq|].
  done.
Qed.

Lemma daily_generation_records_one_event_witness :
  exists ev : Daily.Event,
    Daily.automation_events (snd (Daily.runDailyContentGeneration Daily.goodDay Daily.empty))
    = [ev] /\
    Daily.event_type ev = "daily_content_generation".
Proof.
  destruct (daily_generation_records_one_event
              Daily.goodDay Daily.empty
              (snd (Daily.runDailyContentGeneration Daily.goodDay Daily.empty))
              (fst (Daily.runDailyContentGeneration Daily.goodDay Daily.empty)))
    as [_ Hopen]; [vm_compute; reflexivity|].
  destruct Hopen as [(cause & m & Ho & _)|(ev & _ & Hev & Hty & _)];
    [vm_compute; reflexivity|vm_compute in Ho; discriminate Ho|].
  exists ev. split; [exact Hev|exact Hty].
Defined.

(** X23. The automation's [processPublishQueue] records nothing and changes
    nothing when no entry is due. When entries are due it records one
    ['queue_processing'] event, unless the store rejects the error event --
    the only way for the task to reject. If the drain returns, the event is a
    ['success'] whose [publishedCount] is the number of entries that were
    due, however many of them were published; it is an ['error'] only if the
    drain itself threw or the success event was rejected. The pipeline is
    never touched. *)
Theorem queue_task_reports_the_due_entries
        (W : Daily.World) (s s' : Daily.System) (o : outcome unit) :
  Daily.processPublishQueue W s = (o, s') ->
  Daily.pipeline s' = Daily.pipeline s /\
  Daily.agent s' = snd (Publishing.processPublishQueue (Daily.host W) (Daily.agent s)) /\
  (Views.dueNow (Daily.host W) (Daily.agent s) = [] -> o = Ok tt /\ s' = s) /\
  (Views.dueNow (Daily.host W) (Daily.agent s) <> [] ->
   (exists cause m,
       o = Throw m /\
       Daily.automation_events s' = Daily.automation_events s /\
       Daily.event_rejected W
         (Daily.mkEvent "queue_processing" "error" (Daily.ErrorMessage cause))
       = Some m) \/
   (exists ev,
       o = Ok tt /\
       Daily.automation_events s' = Daily.automation_events s ++ [ev] /\
       Daily.event_type ev = "queue_processing" /\
       ((Daily.event_status ev = "success" /\
         Daily.event_data ev
         = Daily.PublishedCount (length (Views.dueNow (Daily.host W) (Daily.agent s)))) \/
        (Daily.event_status ev = "error" /\
         exists cause,
           Daily.event_data ev = Daily.ErrorMessage cause /\
           (fst (Publishing.processPublishQueue (Daily.host W) (Daily.agent s))
            = Throw cause \/
            Daily.event_rejected W
              (Daily.mkEvent "queue_processing" "success"
                 (Daily.PublishedCount
                    (length (Views.dueNow (Daily.host W) (Daily.agent s)))))
            = Some cause))))).
Proof.
  unfold Daily.processPublishQueue, Daily.logAutomationEvent, Daily.onAgent,
    Publishing.processPublishQueue, Views.dueNow.
  run_M. destruct s as [pipeline0 agent0 events0].
  cbn [Daily.pipeline Daily.agent Daily.automation_events].
  set (D := List.filter _ _).
  destruct (Js.for_of D (Publishing.publishOne (Daily.host W)) agent0)
    as [[[]|cause] agent1] eqn:Hloop; simpl.
  - destruct D as [|r D'] eqn:HD.
    + simpl in Hloop. injection Hloop as <-. simpl.
      intros [= <- <-]. by repeat split.
    + rewrite bool_decide_eq_true_2 by (simpl; lia).
      destruct (Daily.event_rejected W (Daily.mkEvent "queue_processing" "success" _))
        as [m|] eqn:Hrej; simpl.
      * destruct (Daily.event_rejected W (Daily.mkEvent "queue_processing" "error" _))
          as [m'|] eqn:Hrej'; intros [= <- <-]; simpl.
        { split; [done|]. split; [done|]. split; [done|]. intros _.
          left. by exists m, m'. }
        { split; [done|]. split; [done|]. split; [done|]. intros _.
          right. eexists. split; [done|]. split; [done|]. split; [done|].
          right. split; [done|]. exists m. split; [done|]. by right. }
      * intros [= <- <-]; simpl.
        split; [done|]. split; [done|]. split; [done|]. intros _.
        right. eexists. split; [done|]. split; [done|]. split; [done|].
        by left.
  - destruct D as [|r D'] eqn:HD; [simpl in Hloop; discriminate|].
    destruct (Daily.event_rejected W (Daily.mkEvent "queue_processing" "error" _))
      as [m'|] eqn:Hrej'; intros [= <- <-]; simpl.
    + split; [done|]. split; [done|]. split; [done|]. intros _.
      left. by exists cause, m'.
    + split; [done|]. split; [done|]. split; [done|]. intros _.
      right. eexists. split; [done|]. split; [done|]. split; [done|].
      right. split; [done|]. exists cause. split; [done|]. by left.
Qed.

Lemma queue_task_reports_the_due_entries_witness :
  exists ev : Daily.Event,
    Daily.automation_events
      (snd (Daily.processPublishQueue Daily.hostRefuses
              (Daily.mkSystem [] Scenario.twoQueued [])))
    = [ev] /\
    Daily.event_type ev = "queue_processing".
Proof.
  destruct (queue_task_reports_the_due_entries
              Daily.hostRefuses (Daily.mkSystem [] Scenario.twoQueued [])
              (snd (Daily.processPublishQueue Daily.hostRefuses
                      (Daily.mkSystem [] Scenario.twoQueued [])))
              (fst (Daily.processPublishQueue Daily.hostRefuses
                      (Daily.mkSystem [] Scenario.twoQueued []))))
    as (_ & _ & _ & Hdue); [vm_compute; reflexivity|].
  destruct Hdue as [(cause & m & Ho & _)|(ev & _ & Hev & Hty & _)];
    [vm_compute; discriminate|vm_compute in Ho; discriminate Ho|].
  exists ev. split; [exact Hev|exact Hty].
Defined.

(** ** Pausing, resuming and emergency publishing *)

Lemma updateScheduleEntry_outcome (W : Publishing.World) (r : nat) (st : Publishing.Agent)
      (e : Publishing.PublishEntry) :
  Publishing.heap st !! r = Some e ->
  fst (Publishing.updateScheduleEntry W r st)
  = match Publishing.update_rejected W e with
    | Some message => Throw message
    | None => Ok tt
    end.
Proof.
  intros He. unfold Publishing.updateScheduleEntry, Publishing.deref. run_M. rewrite He.
  destruct (Publishing.update_rejected W e); run_M; [done|].
  by destruct (Publishing.entry_id e).
Qed.

(** An assignment to the entry followed by the update of its stored row. *)
Lemma assign_then_update (W : Publishing.World) (r : nat)
      (f : Publishing.PublishEntry -> Publishing.PublishEntry)
      (st : Publishing.Agent) (e : Publishing.PublishEntry) :
  Publishing.heap st !! r = Some e ->
  exists st' : Publishing.Agent,
    Publishing.updateScheduleEntry W r (Publishing.with_heap (alter f r) st)
    = (match Publishing.update_rejected W (f e) with
       | Some message => Throw message
       | None => Ok tt
       end, st') /\
    Publishing.heap st' = <[r := f e]> (Publishing.heap st) /\
    Publishing.publishQueue st' = Publishing.publishQueue st /\
    Publishing.log st' = Publishing.log st /\
    Views.rowsKept st st'.
Proof.
  intros He.
  destruct (Publishing.updateScheduleEntry W r (Publishing.with_heap (alter f r) st))
    as [o st'] eqn:Hupd.
  assert (He' : Publishing.heap (Publishing.with_heap (alter f r) st) !! r = Some (f e))
    by (unfold Publishing.with_heap; simpl; by rewrite lookup_alter_eq, He).
  pose proof (updateScheduleEntry_outcome W r _ _ He') as Ho. rewrite Hupd in Ho.
  simpl in Ho. subst o.
  destruct (updateScheduleEntry_frame _ _ _ _ _ Hupd) as (Hh & Hq & Hl).
  apply updateScheduleEntry_rowsKept in Hupd.
  exists st'. split; [done|]. split; [|split; [done|split; [done|]]].
  - rewrite Hh. unfold Publishing.with_heap; simpl.
    apply map_eq. intros x. destruct (decide (r = x)) as [<-|Hx].
    + by rewrite lookup_alter_eq, lookup_insert_eq, He.
    + by rewrite lookup_alter_ne, lookup_insert_ne.
  - eapply rowsKept_trans; [|exact Hupd]. by apply rowsKept_same_table.
Qed.

Lemma find_ext (st st' : Publishing.Agent) (contentId : string) (q : list nat) :
  (forall x, In x q ->
     from_option (Publishing.matches contentId) false (Publishing.heap st' !! x)
     = from_option (Publishing.matches contentId) false (Publishing.heap st !! x)) ->
  Publishing.find st' contentId q = Publishing.find st contentId q.
Proof.
  induction q as [|x q IH]; intros Hall; simpl; [done|].
  rewrite (Hall x) by (by left).
  destruct (from_option _ _ _); [done|]. apply IH. intros y Hy. apply Hall. by right.
Qed.



(** X25. Pausing an entry and resuming it without a new time leaves the
    queue, the other objects and the stored schedule as they were, and the
    entry itself unchanged except that its status is ['scheduled'] -- so the
    round trip restores a ['scheduled'] entry exactly, and makes a ['failed']
    (or a still queued ['published']) entry due again. The resume can only
    fail by the store rejecting the update, and then the entry has been
    changed all the same. *)
Theorem pause_then_resume_reschedules_the_entry
        (W1 W2 : Publishing.World) (contentId : string)
        (st st1 st2 : Publishing.Agent) (r : nat) (o : outcome nat) :
  Publishing.pauseScheduledContent W1 contentId st = (Ok r, st1) ->
  Publishing.resumeScheduledContent W2 contentId None st1 = (o, st2) ->
  exists e : Publishing.PublishEntry,
    Publishing.heap st !! r = Some e /\
    Publishing.heap st2
    = <[r := Publishing.set_status Publishing.scheduled e]> (Publishing.heap st) /\
    (Publishing.status e = Publishing.scheduled -> Publishing.heap st2 = Publishing.heap st) /\
    Publishing.publishQueue st2 = Publishing.publishQueue st /\
    Views.rowsKept st st2 /\
    (o = Ok r \/
     exists message,
       o = Throw message /\
       Publishing.update_rejected W2 (Publishing.set_status Publishing.scheduled e)
       = Some message).
Proof.
  unfold Publishing.pauseScheduledContent, Publishing.resumeScheduledContent. run_M.
  destruct (Publishing.find st contentId (Publishing.publishQueue st)) as [r0|] eqn:Hfind;
    [|discriminate].
  destruct (find_Some _ _ _ _ Hfind) as (_ & e & He & Hm).
  unfold Publishing.assign. run_M.
  destruct (assign_then_update W1 r0 (Publishing.set_status Publishing.paused) st e He)
    as (st1' & -> & Hh1 & Hq1 & Hl1 & Hrows1).
  destruct (Publishing.update_rejected W1 _); [discriminate|].
  intros [= <- <-].
  assert (Hfind1 : Publishing.find st1' contentId (Publishing.publishQueue st1') = Some r0).
  { rewrite Hq1, <- Hfind. apply find_ext. intros x _. rewrite Hh1.
    destruct (decide (r0 = x)) as [<-|Hx].
    - by rewrite lookup_insert_eq, He.
    - by rewrite lookup_insert_ne. }
  rewrite Hfind1.
  assert (He1 : Publishing.heap st1' !! r0
                = Some (Publishing.set_status Publishing.paused e))
    by (by rewrite Hh1, lookup_insert_eq).
  destruct (assign_then_update W2 r0 (Publishing.set_status Publishing.scheduled) st1' _ He1)
    as (st2' & -> & Hh2 & Hq2 & Hl2 & Hrows2).
  change (Publishing.set_status Publishing.scheduled
            (Publishing.set_status Publishing.paused e))
    with (Publishing.set_status Publishing.scheduled e) in *.
  intros Hrun. exists e. split; [done|].
  assert (st2 = st2' /\
          (o = Ok r0 \/
           exists message,
             o = Throw message /\
             Publishing.update_rejected W2 (Publishing.set_status Publishing.scheduled e)
             = Some message)) as [-> Ho].
  { destruct (Publishing.update_rejected W2 _) as [m|]; injection Hrun as <- <-; eauto. }
  assert (Hheap : Publishing.heap st2'
                  = <[r0 := Publishing.set_status Publishing.scheduled e]> (Publishing.heap st))
    by (by rewrite Hh2, Hh1, insert_insert_eq).
  split; [done|]. split.
  { intros Hst. rewrite Hheap. apply insert_id. rewrite He. f_equal.
    destruct e; simpl in *. by subst. }
  split; [congruence|]. split; [by eapply rowsKept_trans|done].
Qed.

Lemma pause_then_resume_reschedules_the_entry_witness :
  Publishing.heap
    (Publishing.after (Publishing.resumeScheduledContent (Scenario.host 5 "" []) "prod_A" None)
       (Publishing.after (Publishing.pauseScheduledContent (Scenario.host 5 "" []) "prod_A")
                         Scenario.twoQueued))
  = Publishing.heap Scenario.twoQueued.
Proof.
  destruct (pause_then_resume_reschedules_the_entry
              (Scenario.host 5 "" []) (Scenario.host 5 "" []) "prod_A"
              Scenario.twoQueued
              (Publishing.after (Publishing.pauseScheduledContent (Scenario.host 5 "" []) "prod_A")
                                Scenario.twoQueued)
              (Publishing.after
                 (Publishing.resumeScheduledContent (Scenario.host 5 "" []) "prod_A" None)
                 (Publishing.after
                    (Publishing.pauseScheduledContent (Scenario.host 5 "" []) "prod_A")
                    Scenario.twoQueued))
              0%nat
              (fst (Publishing.resumeScheduledContent (Scenario.host 5 "" []) "prod_A" None
                      (Publishing.after
                         (Publishing.pauseScheduledContent (Scenario.host 5 "" []) "prod_A")
                         Scenario.twoQueued))))
    as (e & He & _ & Hsame & _); [vm_compute; reflexivity|vm_compute; reflexivity|].
  apply Hsame. vm_compute in He. injection He as <-. reflexivity.
Defined.
